(** * Cloud Debugger API layer ([googlecloudsdk/api_lib/debug/debug.py])

    A shallow embedding of the expression codec ([SplitLogExpressions],
    [MergeLogExpressions]), the debuggee resolver ([DefaultDebuggee],
    [FindDebuggee], [_FindLatestMinorVersion]) and the breakpoint listing
    ([ListMatchingBreakpoints], [AddTargetInfo]) of the debug API layer,
    with the properties the specification states about them.

    Python [str] is [string]; a Python [int] is [Z] (or [nat] where the
    code only ever counts list positions); a [dict] is a [gmap]; a raised
    exception is the [Raise] outcome. *)

From Stdlib Require Import ZArith Ascii String List Bool Lia.
From Stdlib Require Import DecimalString DecimalNat.
From Stdlib Require DecimalPos.
From stdpp Require Import base option list strings gmap.

Local Open Scope string_scope.

#[global] Arguments String.append !s1 s2 : simpl nomatch.

(** ** Characters and strings *)

Module Text.

(** [c.isdigit()] on a one-character byte string. *)
Definition isdigit (c : ascii) : bool :=
  match c with
  | "0" | "1" | "2" | "3" | "4" | "5" | "6" | "7" | "8" | "9" => true
  | _ => false
  end%char.

(** The value of a decimal digit character. *)
Definition digit_value (c : ascii) : N := (N_of_ascii c - 48)%N.

(** [str(i)] for a list position [i]. *)
Definition decimal (i : nat) : string :=
  NilZero.string_of_uint (Nat.to_uint i).

(** The characters of a string are all decimal digits. *)
Fixpoint all_digits (s : string) : bool :=
  match s with
  | "" => true
  | String c r => isdigit c && all_digits r
  end.

(** The integer a run of decimal digits denotes, continuing from [acc]. *)
Fixpoint digits_value (acc : N) (s : string) : N :=
  match s with
  | "" => acc
  | String c r => digits_value (acc * 10 + digit_value c)%N r
  end.

(** The first character of a string is a decimal digit. *)
Definition starts_with_digit (s : string) : bool :=
  match s with
  | "" => false
  | String c _ => isdigit c
  end.

(** [x in l] together with [l.index(x)]: the first position of [x]. *)
Fixpoint list_index (x : string) (l : list string) : option nat :=
  match l with
  | [] => None
  | y :: r => if String.eqb x y then Some 0%nat
              else S <$> list_index x r
  end.

End Text.
Import Text.

(** ** Outcomes of a call *)

Inductive value_error :=
  | UnbalancedLeftBrace     (* SplitLogExpressions *)
  | SingleCloseBrace        (* str.format: Single [}] encountered *)
  | SingleOpenBrace         (* str.format: Single [{] encountered *)
  | UnmatchedOpenBrace      (* str.format: unmatched [{] in format *)
  | TooManyDigits           (* str.format: index above PY_SSIZE_T_MAX *)
  | InvalidIntLiteral       (* int(): invalid literal *)
  | MalformedLocation.      (* _LocationFromString *)

(** ** Debuggees

    The attributes the resolver reads; the message-valued attributes
    ([status], the source contexts) play no part in it and are left out. *)

Record Debuggee := {
  project_number : Z;
  project_id : string;
  agent_version : string;
  description : string;
  target_id : string;
  is_disabled : bool;
  is_inactive : bool;
  target_uniquifier : string;
  labels : gmap string string }.

Inductive exn :=
  | ValueError (why : value_error)
  | IndexError
  | AttributeError (type_name attribute : string)
  | TypeError
  | RegexError
  | HttpError (status : Z)
  | NoEndpointError
  | NoDebuggeeError (pattern : option string)
  | MultipleDebuggeesError (pattern : option string)
                           (debuggees : list Debuggee).

(** A call returns, raises, or leaves the fragment of Python that is
    modelled here ([NotModelled], only produced by [Format.render_field]). *)
Inductive outcome (A : Type) :=
  | Return (a : A)
  | Raise (e : exn)
  | NotModelled.
Arguments Return {A} a.
Arguments Raise {A} e.
Arguments NotModelled {A}.

Definition outcome_bind {A B} (f : A -> outcome B) (m : outcome A)
  : outcome B :=
  match m with
  | Return a => f a
  | Raise e => Raise e
  | NotModelled => NotModelled
  end.

#[global] Instance outcome_mbind : MBind outcome := @outcome_bind.
#[global] Instance outcome_mret : MRet outcome := @Return.

(** ** The expression codec *)

Module Codec.

Record state := State {
  expressions : list string;
  log_format : string;
  current_expression : string;
  brace_count : Z;
  need_separator : bool }.

Definition initial : state :=
  {| expressions := []; log_format := ""; current_expression := "";
     brace_count := 0; need_separator := false |}.

Definition add_format (st : state) (s : string) : state :=
  {| expressions := expressions st;
     log_format := log_format st ++ s;
     current_expression := current_expression st;
     brace_count := brace_count st;
     need_separator := need_separator st |}.

Definition set_separator (st : state) (b : bool) : state :=
  {| expressions := expressions st;
     log_format := log_format st;
     current_expression := current_expression st;
     brace_count := brace_count st;
     need_separator := b |}.

Definition set_expression (st : state) (e : string) : state :=
  {| expressions := expressions st;
     log_format := log_format st;
     current_expression := e;
     brace_count := brace_count st;
     need_separator := need_separator st |}.

Definition set_count (st : state) (n : Z) : state :=
  {| expressions := expressions st;
     log_format := log_format st;
     current_expression := current_expression st;
     brace_count := n;
     need_separator := need_separator st |}.

Definition set_expressions (st : state) (l : list string) : state :=
  {| expressions := l;
     log_format := log_format st;
     current_expression := current_expression st;
     brace_count := brace_count st;
     need_separator := need_separator st |}.

(** The end of a top-level expression (source lines 84-95). *)
Definition finish_expression (st : state) : state :=
  let st := set_count st 0 in
  let '(i, st) :=
    match list_index (current_expression st) (expressions st) with
    | Some i => (i, st)
    | None => (length (expressions st),
               set_expressions st
                 (expressions st ++ [current_expression st]))
    end in
  let st := add_format st ("$" ++ decimal i) in
  set_separator st true.

(** One iteration of the loop over the characters (source lines 65-101). *)
Definition step (st : state) (c : ascii) : state :=
  let st := if need_separator st && isdigit c
            then add_format st " " else st in
  let st := set_separator st false in
  if Ascii.eqb c "{" then
    let st := if negb (brace_count st =? 0)%Z
              then set_expression st
                     (current_expression st ++ String c "")
              else set_expression st "" in
    set_count st (brace_count st + 1)
  else if negb (brace_count st =? 0)%Z then
    if negb (Ascii.eqb c "}") then
      set_expression st (current_expression st ++ String c "")
    else
      let st := set_count st (brace_count st - 1) in
      if (brace_count st =? 0)%Z then finish_expression st
      else set_expression st (current_expression st ++ String c "")
  else add_format st (String c "").

Fixpoint run (st : state) (s : string) : state :=
  match s with
  | "" => st
  | String c r => run (step st c) r
  end.

End Codec.

(** [SplitLogExpressions(format_string)]. *)
Definition SplitLogExpressions (format_string : string)
  : outcome (string * list string) :=
  let st := Codec.run Codec.initial format_string in
  if negb (Codec.brace_count st =? 0)%Z
  then Raise (ValueError UnbalancedLeftBrace)
  else Return (Codec.log_format st, Codec.expressions st).

(** ** [str.format] with positional arguments

    The scanner of CPython's [MarkupIterator_next]: doubled braces are
    escapes, a single closing brace or a field that never closes is a
    [ValueError], and a replacement field extends to its matching brace.
    A field whose text is a decimal number selects a positional
    argument; every other field (names, attribute and item access,
    conversions, format specifications, automatic numbering) is outside
    the model. *)

Module Format.

Definition PY_SSIZE_T_MAX : N := (2 ^ 63 - 1)%N.

(** CPython's [get_integer] on a run of decimal digits. *)
Fixpoint get_integer (acc : N) (s : string) : outcome N :=
  match s with
  | "" => Return acc
  | String c r =>
      if isdigit c then
        if ((PY_SSIZE_T_MAX - digit_value c) / 10 <? acc)%N
        then Raise (ValueError TooManyDigits)
        else get_integer (acc * 10 + digit_value c)%N r
      else NotModelled
  end.

(** [args[n]] for a tuple of positional arguments. *)
Definition positional (n : N) (args : list string) : outcome string :=
  if (n <? N.of_nat (length args))%N
  then match args !! N.to_nat n with
       | Some a => Return a
       | None => Raise IndexError
       end
  else Raise IndexError.

Definition render_field (field : string) (args : list string)
  : outcome string :=
  match field with
  | "" => NotModelled
  | _ => n ← get_integer 0 field; positional n args
  end.

Inductive mode :=
  | Literal
  | Field (count : nat) (text : string).

Definition emit (c : ascii) (rest : outcome string) : outcome string :=
  r ← rest; Return (String c r).

Fixpoint format_from (m : mode) (s : string) (args : list string)
  : outcome string :=
  match m, s with
  | Literal, "" => Return ""
  | Literal, String c r =>
      if Ascii.eqb c "}" then
        match r with
        | String c' r' =>
            if Ascii.eqb c' "}" then emit "}" (format_from Literal r' args)
            else Raise (ValueError SingleCloseBrace)
        | "" => Raise (ValueError SingleCloseBrace)
        end
      else if Ascii.eqb c "{" then
        match r with
        | "" => Raise (ValueError SingleOpenBrace)
        | String c' r' =>
            if Ascii.eqb c' "{" then emit "{" (format_from Literal r' args)
            else format_from (Field 1 "") r args
        end
      else emit c (format_from Literal r args)
  | Field _ _, "" => Raise (ValueError UnmatchedOpenBrace)
  | Field n text, String c r =>
      if Ascii.eqb c "{" then
        format_from (Field (S n) (text ++ "{")) r args
      else if Ascii.eqb c "}" then
        match n with
        | S (S n') => format_from (Field (S n') (text ++ "}")) r args
        | _ => v ← render_field text args;
               rest ← format_from Literal r args;
               Return (v ++ rest)
        end
      else format_from (Field n (text ++ String c "")) r args
  end.

(** [fmt.format( *args )]. *)
Definition format (fmt : string) (args : list string) : outcome string :=
  format_from Literal fmt args.

(** [re.sub(r'\$([0-9]+)', r'{{{\1}}}', s)]: every dollar sign that is
    followed by decimal digits is replaced, with the longest run of
    digits, by the run in three pairs of braces. [in_token] says that
    the characters just before [s] are the digits of such a run. *)
Fixpoint sub_tokens (in_token : bool) (s : string) : string :=
  match s with
  | "" => if in_token then "}}}" else ""
  | String c r =>
      if in_token && isdigit c then String c (sub_tokens true r)
      else (if in_token then "}}}" else "") ++
           (if Ascii.eqb c "$" && starts_with_digit r
            then "{{{" ++ sub_tokens true r
            else String c (sub_tokens false r))
  end.

End Format.

(** [MergeLogExpressions(log_format, expressions)]. *)
Definition MergeLogExpressions (log_format : string)
    (expressions : list string) : outcome string :=
  Format.format (Format.sub_tokens false log_format) expressions.

(** ** Python values used by the resolver *)

Module Py.

(** Truth value of a string that may be [None]. *)
Definition truthy (o : option string) : bool :=
  match o with
  | Some s => negb (String.eqb s "")
  | None => false
  end.

(** [o or d] for a string [o] that may be [None]. *)
Definition or_default (o : option string) (d : string) : string :=
  match o with
  | Some s => if String.eqb s "" then d else s
  | None => d
  end.

(** Some character of [s] is a decimal digit, or lies outside ASCII,
    where Unicode has other digits. *)
Fixpoint has_digit (s : string) : bool :=
  match s with
  | "" => false
  | String c r =>
      isdigit c || negb (N.ltb (N_of_ascii c) 128) || has_digit r
  end.

(** [int(s)] on a string: a decimal numeral, with an optional sign, is
    read as its value; an ASCII string without any decimal digit is an
    invalid literal; other strings (surrounding white space, digits of
    other scripts and the like) are outside the model. *)
Definition int (s : string) : outcome Z :=
  match s with
  | String c r =>
      if all_digits s then Return (Z.of_N (digits_value 0 s))
      else if (Ascii.eqb c "-" || Ascii.eqb c "+") && all_digits r
              && negb (String.eqb r "")
      then Return (if Ascii.eqb c "-"
                   then - Z.of_N (digits_value 0 r)
                   else Z.of_N (digits_value 0 r))%Z
      else if has_digit s then NotModelled
      else Raise (ValueError InvalidIntLiteral)
  | "" => Raise (ValueError InvalidIntLiteral)
  end.

(** Regular expressions are the standard library's: the resolver and the
    breakpoint listing only compile a pattern and search with it. *)
Class RegexEngine := {
  compiled : Type;
  re_compile : string -> option compiled;
  re_search : compiled -> string -> bool }.

End Py.
Import Py.

(** ** The debuggee resolver *)

Module Resolver.

Definition DEFAULT_MODULE : string := "default".
Definition DEFAULT_VERSION : string := "default".

Definition module (d : Debuggee) : option string := labels d !! "module".
Definition version (d : Debuggee) : option string := labels d !! "version".
Definition minorversion (d : Debuggee) : option string :=
  labels d !! "minorversion".

Definition name (d : Debuggee) : string :=
  if truthy (module d) || truthy (version d) || truthy (minorversion d)
  then or_default (module d) DEFAULT_MODULE ++ "-"
       ++ or_default (version d) DEFAULT_VERSION
  else target_id d.

(** [not best_version or minor_version > best_version]. *)
Definition improves (best_version : option Z) (minor_version : Z) : bool :=
  match best_version with
  | Some b => (b =? 0)%Z || (b <? minor_version)%Z
  | None => true
  end.

(** The loop of [_FindLatestMinorVersion] (source lines 729-741). *)
Fixpoint latest_loop (best : option Debuggee) (best_version : option Z)
    (name_ : option string) (debuggees : list Debuggee)
  : outcome (option Debuggee) :=
  match debuggees with
  | [] => Return best
  | d :: rest =>
      let after_name (name_ : option string) :=
        let minor_version := labels d !! "minorversion" in
        if negb (truthy minor_version) then Return None
        else
          minor_version ← Py.int (default "" minor_version);
          if improves best_version minor_version
          then latest_loop (Some d) (Some minor_version) name_ rest
          else latest_loop best best_version name_ rest in
      if negb (truthy name_) then after_name (Some (name d))
      else if negb (String.eqb (default "" name_) (name d))
      then Return None
      else after_name name_
  end.

Definition _FindLatestMinorVersion (debuggees : list Debuggee)
  : outcome (option Debuggee) :=
  match debuggees with
  | [] => Return None
  | _ => latest_loop None None None debuggees
  end.

(** [DefaultDebuggee]; [listing] is the result of [self.ListDebuggees()]. *)
Definition DefaultDebuggee (listing : outcome (list Debuggee))
  : outcome Debuggee :=
  debuggees ← listing;
  match debuggees with
  | [d] => Return d
  | [] => Raise (NoDebuggeeError None)
  | _ =>
    latest ← _FindLatestMinorVersion debuggees;
    match latest with
    | Some d => Return d
    | None =>
      let by_module :=
        List.filter (fun d => negb (truthy (module d))) debuggees in
      match by_module with
      | [] => Raise (MultipleDebuggeesError None debuggees)
      | [d] => Return d
      | _ =>
        latest ← _FindLatestMinorVersion by_module;
        match latest with
        | Some d => Return d
        | None =>
          let by_version :=
            List.filter (fun d => negb (truthy (version d))) by_module in
          match by_version with
          | [d] => Return d
          | [] => Raise (MultipleDebuggeesError None debuggees)
          | _ =>
            latest ← _FindLatestMinorVersion by_version;
            match latest with
            | Some d => Return d
            | None => Raise (NoDebuggeeError None)
            end
          end
        end
      end
    end
  end.

(** [FindDebuggee(pattern)]. *)
Definition FindDebuggee `{RegexEngine} (listing : outcome (list Debuggee))
    (pattern : option string) : outcome Debuggee :=
  if negb (truthy pattern) then DefaultDebuggee listing
  else
    let pattern := default "" pattern in
    all_debuggees ← listing;
    match re_compile pattern with
    | None => Raise RegexError
    | Some match_re =>
      let debuggees :=
        List.filter (fun d => String.eqb (target_id d) pattern
                              || re_search match_re (name d))
                    all_debuggees in
      let debuggees :=
        match debuggees with
        | [] => List.filter (fun d => re_search match_re (description d))
                            all_debuggees
        | _ => debuggees
        end in
      match debuggees with
      | [d] => Return d
      | [] => Raise (NoDebuggeeError (Some pattern))
      | _ =>
        best ← _FindLatestMinorVersion debuggees;
        match best with
        | None => Raise (MultipleDebuggeesError (Some pattern) debuggees)
        | Some d => Return d
        end
      end
    end.

End Resolver.

(** ** Breakpoints and their decoration *)

Module Breakpoints.

Inductive Action := CAPTURE | LOG.
Inductive LogLevel := INFO | WARNING | ERROR.

Record SourceLocation := { path : string; line : Z }.

(** Modelled from the spec: the generated [Breakpoint] message is not
    part of the sources. Its attributes are those of the data model
    (section 3): ID, source location, optional condition, watch
    expressions, optional log level and log message format, creator
    email, action kind and final-state flag. Labels and status are
    message-valued and never inspected by this layer; they are left out. *)
Record Breakpoint := {
  action : option Action;
  condition : option string;
  expressions : list string;
  id : string;
  isFinalState : bool;
  location : option SourceLocation;
  logLevel : option LogLevel;
  logMessageFormat : option string;
  userEmail : string }.

(** The Python values a field of a breakpoint or of its decorated
    dictionary can hold. *)
Inductive value :=
  | VNone
  | VBool (b : bool)
  | VInt (z : Z)
  | VStr (s : string)
  | VStrings (l : list string)
  | VAction (a : Action)
  | VLogLevel (l : LogLevel)
  | VLocation (l : SourceLocation).

(** [not v]: enumeration members and messages are always true. *)
Definition falsy (v : value) : bool :=
  match v with
  | VNone => true
  | VBool b => negb b
  | VInt z => (z =? 0)%Z
  | VStr s => String.eqb s ""
  | VStrings l => match l with [] => true | _ => false end
  | VAction _ | VLogLevel _ | VLocation _ => false
  end.

Definition of_option {A} (f : A -> value) (o : option A) : value :=
  match o with
  | Some a => f a
  | None => VNone
  end.

(** [message.all_fields()] with [getattr(message, field.name)]. *)
Definition all_fields (b : Breakpoint) : list (string * value) :=
  [ ("action", of_option VAction (action b));
    ("condition", of_option VStr (condition b));
    ("expressions", VStrings (expressions b));
    ("id", VStr (id b));
    ("isFinalState", VBool (isFinalState b));
    ("location", of_option VLocation (location b));
    ("logLevel", of_option VLogLevel (logLevel b));
    ("logMessageFormat", of_option VStr (logMessageFormat b));
    ("userEmail", VStr (userEmail b)) ].

(** [_MessageDict]: the dictionary itself, the hidden fields and the
    name of the wrapped type. *)
Record MessageDict := {
  orig_type : string;
  items : gmap string value;
  hidden_fields : gmap string value }.

(** [_MessageDict.__getattr__], which Python calls for an attribute that
    is neither a method of [dict] nor set on the instance; none of the
    names read in this layer is. *)
Definition getattr (d : MessageDict) (attr : string) : outcome value :=
  match items d !! attr with
  | Some v => Return v
  | None =>
      match hidden_fields d !! attr with
      | Some v => Return v
      | None => Raise (AttributeError (orig_type d) attr)
      end
  end.

Definition set_item (d : MessageDict) (k : string) (v : value)
  : MessageDict :=
  {| orig_type := orig_type d;
     items := <[k := v]> (items d);
     hidden_fields := hidden_fields d |}.

Definition set_hidden (d : MessageDict) (k : string) (v : value)
  : MessageDict :=
  {| orig_type := orig_type d;
     items := items d;
     hidden_fields := <[k := v]> (hidden_fields d) |}.

(** [_MessageDict.HideExistingField]. *)
Definition HideExistingField (d : MessageDict) (field_name : string)
  : MessageDict :=
  match hidden_fields d !! field_name with
  | Some _ => d
  | None =>
      {| orig_type := orig_type d;
         items := delete field_name (items d);
         hidden_fields :=
           <[field_name := default VNone (items d !! field_name)]>
             (hidden_fields d) |}
  end.

(** What the layer passes around as "a breakpoint": a message of the
    service, or a dictionary that [AddTargetInfo] already built. *)
Inductive pyobj :=
  | Message (b : Breakpoint)
  | Dict (d : MessageDict).

Definition type_name (o : pyobj) : string :=
  match o with
  | Message _ => "Breakpoint"
  | Dict _ => "_MessageDict"
  end.

Fixpoint assoc (k : string) (l : list (string * value)) : option value :=
  match l with
  | [] => None
  | (k', v) :: r => if String.eqb k k' then Some v else assoc k r
  end.

(** [o.attr]. *)
Definition attr (o : pyobj) (a : string) : outcome value :=
  match o with
  | Message b =>
      match assoc a (all_fields b) with
      | Some v => Return v
      | None => Raise (AttributeError "Breakpoint" a)
      end
  | Dict d => getattr d a
  end.

(** [o.all_fields()]: a dictionary has no such method, and a field of
    that name would not be callable. *)
Definition call_all_fields (o : pyobj) : outcome (list (string * value)) :=
  match o with
  | Message b => Return (all_fields b)
  | Dict d => _ ← getattr d "all_fields"; Raise TypeError
  end.

(** [_MessageDict.__init__] (source lines 750-762). *)
Definition new_MessageDict (message : pyobj) (hidden : gmap string value)
  : outcome MessageDict :=
  fields ← call_all_fields message;
  Return
    (fold_left
       (fun d '(field, v) =>
          if falsy v then set_hidden d field v else set_item d field v)
       fields
       {| orig_type := type_name message; items := ∅;
          hidden_fields := hidden |}).

(** *** The console URL *)

Definition hex_digit (n : N) : ascii :=
  ascii_of_N (if (n <? 10)%N then 48 + n else 55 + n).

Definition always_safe (c : ascii) : bool :=
  let n := N_of_ascii c in
  ((48 <=? n) && (n <=? 57) || (65 <=? n) && (n <=? 90)
   || (97 <=? n) && (n <=? 122))%N
  || Ascii.eqb c "_" || Ascii.eqb c "." || Ascii.eqb c "-".

(** [urllib.quote_plus]. *)
Fixpoint quote_plus (s : string) : string :=
  match s with
  | "" => ""
  | String c r =>
      (if always_safe c then String c ""
       else if Ascii.eqb c " " then "+"
       else String "%" (String (hex_digit (N_of_ascii c / 16))
              (String (hex_digit (N_of_ascii c mod 16)) "")))
      ++ quote_plus r
  end.

Definition decimalZ (z : Z) : string :=
  NilZero.string_of_int (Z.to_int z).

(** [str(v)] for the values that are put in a URL. *)
Definition py_str (v : value) : outcome string :=
  match v with
  | VStr s => Return s
  | VInt z => Return (decimalZ z)
  | _ => NotModelled
  end.

(** [urllib.urlencode] of a list of pairs. *)
Fixpoint urlencode (data : list (string * value)) : outcome string :=
  match data with
  | [] => Return ""
  | (k, v) :: r =>
      v ← py_str v;
      rest ← urlencode r;
      Return (quote_plus k ++ "=" ++ quote_plus v
              ++ match r with [] => "" | _ => "&" end ++ rest)
  end.

(** [DebugViewUrl(breakpoint)]. *)
Definition DebugViewUrl (breakpoint : MessageDict) : outcome string :=
  project_number ← getattr breakpoint "project_number";
  target_uniquifier ← getattr breakpoint "target_uniquifier";
  id ← getattr breakpoint "id";
  let data := [("project", project_number);
               ("dbgee", target_uniquifier); ("bp", id)] in
  location ← getattr breakpoint "location";
  data ←
    match location with
    | VLocation l =>
        let data := if negb (String.eqb (path l) "")
                    then (data ++ [("fp", VStr (path l))])%list else data in
        Return (if negb (line l =? 0)%Z
                then (data ++ [("fl", VInt (line l))])%list else data)
    | v => if falsy v then Return data else NotModelled
    end;
  query ← urlencode data;
  Return ("https://console.developers.google.com/debug/fromgcloud?"
          ++ query).

(** *** [Debuggee.AddTargetInfo] *)

Definition AddTargetInfo (self : Debuggee) (message : pyobj)
  : outcome MessageDict :=
  result ← new_MessageDict message
    (list_to_map
       [("project_id", VStr (project_id self));
        ("project_number", VInt (project_number self));
        ("target_uniquifier", VStr (target_uniquifier self));
        ("target_id", VStr (target_id self))]);
  url ← DebugViewUrl result;
  let result := set_item result "consoleViewUrl" (VStr url) in
  location ← attr message "location";
  result ←
    match location with
    | VLocation l =>
        Return (set_item result "location"
                  (VStr (path l ++ ":" ++ decimalZ (line l))))
    | v => if falsy v then Return result else NotModelled
    end;
  logMessageFormat ← attr message "logMessageFormat";
  match logMessageFormat with
  | VStr f =>
      if String.eqb f "" then Return result
      else
        exprs ← attr message "expressions";
        match exprs with
        | VStrings exprs =>
            merged ← Format.format (Format.sub_tokens false f) exprs;
            Return (HideExistingField
                      (set_item result "logMessageFormat" (VStr merged))
                      "expressions")
        | _ => NotModelled
        end
  | v => if falsy v then Return result else NotModelled
  end.

(** *** The breakpoint ID pattern *)

Definition hex (c : ascii) : bool :=
  isdigit c ||
  let n := N_of_ascii c in ((97 <=? n) && (n <=? 102))%N.

(** [cls{lo,hi}] followed by [k]; [hi = None] is "no upper bound". *)
Fixpoint repeat_class (cls : ascii -> bool) (lo : nat) (hi : option nat)
    (k : string -> bool) (s : string) : bool :=
  match lo with 0%nat => k s | _ => false end
  || match s with
     | String c r =>
         cls c
         && match hi with Some 0%nat => false | _ => true end
         && repeat_class cls (Nat.pred lo) (Nat.pred <$> hi) k r
     | "" => false
     end.

Definition literal (c : ascii) (k : string -> bool) (s : string) : bool :=
  match s with
  | String c' r => Ascii.eqb c c' && k r
  | "" => false
  end.

(** [$]: the end of the string, or just before a final newline. *)
Definition at_end (s : string) : bool :=
  String.eqb s "" || String.eqb s (String (ascii_of_N 10) "").

(** [_BREAKPOINT_ID_PATTERN.match(s)] for
    [^[0-9a-f]{13,16}-[0-9a-f]{4}-[0-9a-f]+$]. *)
Definition _BREAKPOINT_ID_PATTERN (s : string) : bool :=
  repeat_class hex 13 (Some 16)%nat
    (literal "-"
       (repeat_class hex 4 (Some 4)%nat
          (literal "-" (repeat_class hex 1 None at_end)))) s.

(** *** The remote service and the calls made to it *)

Inductive call :=
  | ListCall (debuggee_id : string) (include_all_users : bool)
             (include_inactive : bool)
  | GetCall (debuggee_id : string) (breakpoint_id : string).

Record Service := {
  clients_ready : bool;
  breakpoints_List : string -> bool -> bool -> outcome (list Breakpoint);
  breakpoints_Get : string -> string -> outcome Breakpoint }.

(** A computation that talks to the service: the calls made so far are
    threaded through, and stay recorded when the computation raises. *)
Definition rpc (A : Type) : Type := list call -> outcome A * list call.

Definition rpc_bind {A B} (f : A -> rpc B) (m : rpc A) : rpc B :=
  fun log =>
    match m log with
    | (Return a, log) => f a log
    | (Raise e, log) => (Raise e, log)
    | (NotModelled, log) => (NotModelled, log)
    end.

#[global] Instance rpc_mbind : MBind rpc := @rpc_bind.
#[global] Instance rpc_mret : MRet rpc := fun A a log => (Return a, log).

Definition lift {A} (o : outcome A) : rpc A := fun log => (o, log).

Definition _CheckClient (svc : Service) : outcome unit :=
  if clients_ready svc then Return tt else Raise NoEndpointError.

(** [Debuggee.GetBreakpoint]. *)
Definition GetBreakpoint (svc : Service) (self : Debuggee)
    (breakpoint_id : string) : rpc MessageDict :=
  fun log =>
    let log := (log ++ [GetCall (target_id self) breakpoint_id])%list in
    match breakpoints_Get svc (target_id self) breakpoint_id with
    | Return b => (AddTargetInfo self (Message b), log)
    | Raise e => (Raise e, log)
    | NotModelled => (NotModelled, log)
    end.

Definition SNAPSHOT_TYPE : Action := CAPTURE.
Definition LOGPOINT_TYPE : Action := LOG.

Definition Action_eqb (a b : Action) : bool :=
  match a, b with
  | CAPTURE, CAPTURE | LOG, LOG => true
  | _, _ => false
  end.

(** The condition of the comprehension in [_FilteredDictListWithInfo]. *)
Definition of_type (r : pyobj) (restrict_to_type : option Action)
  : outcome bool :=
  match restrict_to_type with
  | None => Return true
  | Some t =>
      a ← attr r "action";
      Return (match a with VAction a => Action_eqb a t | _ => false end
              || falsy a && Action_eqb t SNAPSHOT_TYPE)
  end.

(** [Debuggee._FilteredDictListWithInfo]. *)
Fixpoint _FilteredDictListWithInfo (self : Debuggee) (result : list pyobj)
    (restrict_to_type : option Action) : outcome (list MessageDict) :=
  match result with
  | [] => Return []
  | r :: rest =>
      keep ← of_type r restrict_to_type;
      if keep : bool then
        x ← AddTargetInfo self r;
        xs ← _FilteredDictListWithInfo self rest restrict_to_type;
        Return (x :: xs)
      else _FilteredDictListWithInfo self rest restrict_to_type
  end.

Section Matching.
Context `{RegexEngine}.

(** [_MatchesIdOrRegexp]. *)
Definition _MatchesIdOrRegexp (snapshot : Breakpoint)
    (ids : gset string) (patterns : list compiled) : bool :=
  if bool_decide (id snapshot ∈ ids) then true
  else match location snapshot with
       | None => false
       | Some l =>
           existsb
             (fun p => re_search p (path l ++ ":" ++ decimalZ (line l)))
             patterns
       end.

Fixpoint compile_all (ps : list string) : outcome (list compiled) :=
  match ps with
  | [] => Return []
  | p :: r =>
      match re_compile p with
      | Some c => cs ← compile_all r; Return (c :: cs)
      | None => Raise RegexError
      end
  end.

(** The loop [for i in missing_ids: result.append(self.GetBreakpoint(i))]. *)
Fixpoint fetch_missing (svc : Service) (self : Debuggee)
    (missing_ids : list string) : rpc (list MessageDict) :=
  match missing_ids with
  | [] => mret []
  | i :: r =>
      x ← GetBreakpoint svc self i;
      xs ← fetch_missing svc self r;
      mret (x :: xs)
  end.

(** [Debuggee.ListMatchingBreakpoints]. A Python [set] is iterated in
    an unspecified order; [elements] fixes one. *)
Definition ListMatchingBreakpoints (svc : Service) (self : Debuggee)
    (location_regexp_or_ids : list string)
    (include_all_users include_inactive : bool)
    (restrict_to_type : option Action) : rpc (list MessageDict) :=
  _ ← lift (_CheckClient svc);
  let ids : gset string :=
    list_to_set (List.filter _BREAKPOINT_ID_PATTERN
                             location_regexp_or_ids) in
  patterns ← lift (compile_all
                     (elements (list_to_set location_regexp_or_ids
                                ∖ ids : gset string)));
  response ← (fun log =>
    (breakpoints_List svc (target_id self)
                      include_all_users include_inactive,
     (log ++ [ListCall (target_id self)
                       include_all_users include_inactive])%list));
  let result :=
    List.filter (fun bp => _MatchesIdOrRegexp bp ids patterns)
                response in
  let missing_ids : gset string :=
    ids ∖ list_to_set (id <$> result) in
  fetched ← fetch_missing svc self (elements missing_ids);
  lift (_FilteredDictListWithInfo self
          ((Message <$> result) ++ (Dict <$> fetched))%list
          restrict_to_type).

End Matching.

End Breakpoints.

(** ** What the specification says about the codec

    The definitions of this module follow the words of the specification
    (sections 4.1 and 8), not the code; the theorems below compare the
    two. *)

Module CodecSpec.

(** *** Braces *)

(** The nesting depth after [s], starting at depth [d]; a closing brace
    at depth 0 leaves the depth at 0. *)
Fixpoint depth_from (d : nat) (s : string) : nat :=
  match s with
  | "" => d
  | String c r =>
      if Ascii.eqb c "{" then depth_from (S d) r
      else if Ascii.eqb c "}" then depth_from (Nat.pred d) r
      else depth_from d r
  end.

(** Every opening brace is closed and no closing brace is unmatched. *)
Fixpoint balanced_from (d : nat) (s : string) : bool :=
  match s with
  | "" => Nat.eqb d 0
  | String c r =>
      if Ascii.eqb c "{" then balanced_from (S d) r
      else if Ascii.eqb c "}" then
        match d with
        | O => false
        | S d' => balanced_from d' r
        end
      else balanced_from d r
  end.

Definition balanced (s : string) : bool := balanced_from 0 s.

Fixpoint count_char (c : ascii) (s : string) : nat :=
  match s with
  | "" => 0
  | String c' r => (if Ascii.eqb c' c then 1 else 0) + count_char c r
  end.

(** The brace opened just before [post] is not closed within [post]:
    no prefix of [post] holds more closing than opening braces. *)
Definition never_closed (post : string) : Prop :=
  forall p q, post = p ++ q -> count_char "}" p <= count_char "{" p.

(** Some top-level opening brace is never closed by the end of [s]. *)
Definition unclosed_top_level (s : string) : Prop :=
  exists pre post,
    s = pre ++ String "{" post /\ depth_from 0 pre = 0 /\ never_closed post.

Definition brace_free (s : string) : Prop :=
  count_char "{" s = 0 /\ count_char "}" s = 0.

(** Reading from the left, every closing brace is one of a doubled
    pair. *)
Fixpoint close_braces_paired (s : string) : bool :=
  match s with
  | "" => true
  | String c r =>
      if Ascii.eqb c "}" then
        match r with
        | String c' r' => Ascii.eqb c' "}" && close_braces_paired r'
        | "" => false
        end
      else close_braces_paired r
  end.

(** *** Expressions *)

(** A format string read as the specification does: text outside
    braces, and the expressions between a top-level opening brace and
    the brace that closes it, nested braces included. *)
Inductive item :=
  | Lit (c : ascii)
  | Expr (text : string).

Fixpoint parse_from (d : nat) (cur : string) (s : string) : list item :=
  match s with
  | "" => []
  | String c r =>
      match d with
      | O => if Ascii.eqb c "{" then parse_from 1 "" r
             else Lit c :: parse_from 0 "" r
      | S d' =>
          if Ascii.eqb c "{" then parse_from (S d) (cur ++ "{") r
          else if Ascii.eqb c "}" then
            match d' with
            | O => Expr cur :: parse_from 0 "" r
            | S _ => parse_from d' (cur ++ "}") r
            end
          else parse_from d (cur ++ String c "") r
      end
  end.

Definition parse (s : string) : list item := parse_from 0 "" s.

Fixpoint texts (items : list item) : list string :=
  match items with
  | [] => []
  | Lit _ :: r => texts r
  | Expr t :: r => t :: texts r
  end.

(** The expressions of [s], one entry for each occurrence, in order. *)
Definition expression_texts (s : string) : list string := texts (parse s).

Definition add_expression (seen : list string) (t : string) : list string :=
  match list_index t seen with
  | Some _ => seen
  | None => seen ++ [t]
  end.

(** The distinct elements of a list in the order of first appearance. *)
Definition first_occurrences (l : list string) : list string :=
  fold_left add_expression l [].

Definition position (t : string) (l : list string) : nat :=
  default 0%nat (list_index t l).

(** The encoded format of a list of items, given the expressions seen
    so far and whether the previous item was an expression: an
    expression becomes the token of its position, and a digit right
    after a token is kept apart from it by a space. *)
Fixpoint render_from (seen : list string) (sep : bool) (items : list item)
  : string :=
  match items with
  | [] => ""
  | Lit c :: r =>
      (if sep && isdigit c then " " else "")
      ++ String c (render_from seen false r)
  | Expr t :: r =>
      let seen' := add_expression seen t in
      "$" ++ decimal (position t seen') ++ render_from seen' true r
  end.

(** The items written back as text, with the separator spaces. *)
Fixpoint unparse (sep : bool) (items : list item) : string :=
  match items with
  | [] => ""
  | Lit c :: r =>
      (if sep && isdigit c then " " else "") ++ String c (unparse false r)
  | Expr t :: r => "{" ++ t ++ "}" ++ unparse true r
  end.

(** No literal dollar sign is directly followed by a literal digit. *)
Fixpoint lt_free (prev : bool) (items : list item) : bool :=
  match items with
  | [] => true
  | Lit c :: r => negb (prev && isdigit c) && lt_free (Ascii.eqb c "$") r
  | Expr _ :: r => lt_free false r
  end.

Fixpoint brace_literal_free (items : list item) : bool :=
  match items with
  | [] => true
  | Lit c :: r =>
      negb (Ascii.eqb c "{" || Ascii.eqb c "}") && brace_literal_free r
  | Expr _ :: r => brace_literal_free r
  end.

Definition starts_with_literal (items : list item) : Prop :=
  match items with
  | Lit _ :: _ => True
  | _ => False
  end.

(** The positions that the expressions of [items] get, given the
    expressions seen so far. *)
Fixpoint indices_from (seen : list string) (items : list item) : list nat :=
  match items with
  | [] => []
  | Lit _ :: r => indices_from seen r
  | Expr t :: r =>
      let seen' := add_expression seen t in
      position t seen' :: indices_from seen' r
  end.

(** *** Tokens *)

Inductive tok_state :=
  | Outside
  | Dollar
  | Digits (n : N).

Definition tok_step (q : tok_state) (c : ascii) : tok_state * list nat :=
  match q with
  | Digits n =>
      if isdigit c then (Digits (n * 10 + digit_value c)%N, [])
      else if Ascii.eqb c "$" then (Dollar, [N.to_nat n])
      else (Outside, [N.to_nat n])
  | Dollar =>
      if isdigit c then (Digits (digit_value c), [])
      else if Ascii.eqb c "$" then (Dollar, [])
      else (Outside, [])
  | Outside => if Ascii.eqb c "$" then (Dollar, []) else (Outside, [])
  end.

Fixpoint tokens_from (q : tok_state) (s : string) : list nat :=
  match s with
  | "" => match q with Digits n => [N.to_nat n] | _ => [] end
  | String c r =>
      let '(q', out) := tok_step q c in (out ++ tokens_from q' r)%list
  end.

(** The indices [i] of the tokens [$i] of an encoded format, from left
    to right: a dollar sign with the longest run of digits after it. *)
Definition tokens (s : string) : list nat := tokens_from Outside s.

(** No dollar sign outside the expressions is directly followed by a
    digit. *)
Fixpoint literal_token_free_from (d : nat) (s : string) : bool :=
  match s with
  | "" => true
  | String c r =>
      negb (Nat.eqb d 0 && Ascii.eqb c "$" && starts_with_digit r)
      && literal_token_free_from
           (if Ascii.eqb c "{" then S d
            else if Ascii.eqb c "}" then Nat.pred d else d) r
  end.

Definition literal_token_free (s : string) : bool :=
  literal_token_free_from 0 s.

(** *** Separators *)

(** [s] with a space after every brace that closes a top-level
    expression and is directly followed by a digit. *)
Fixpoint separated_from (d : nat) (s : string) : string :=
  match s with
  | "" => ""
  | String c r =>
      String c
        ((if Ascii.eqb c "}" && Nat.eqb d 1 && starts_with_digit r
          then " " else "")
         ++ separated_from
              (if Ascii.eqb c "{" then S d
               else if Ascii.eqb c "}" then Nat.pred d else d) r)
  end.

Definition separated (s : string) : string := separated_from 0 s.

(** A Python string holds at most [PY_SSIZE_T_MAX] characters. *)
Definition representable (s : string) : Prop :=
  (N.of_nat (String.length s) <= Format.PY_SSIZE_T_MAX)%N.

(** *** The statements of section 8 *)

(** "For all format strings with balanced top-level braces, [Split]
    yields [(encoded, exprs)] such that every token [$i] in [encoded]
    satisfies [0 <= i < len(exprs)], identical expression text always
    maps to the same index", and [exprs] is deduplicated and ordered by
    first appearance: the tokens are, in order, the positions in
    [exprs] of the expressions of [s]. *)
Definition split_indexes_expressions (s : string) : Prop :=
  balanced s = true ->
  exists encoded exprs,
    SplitLogExpressions s = Return (encoded, exprs)
    /\ Forall (fun i => (i < length exprs)%nat) (tokens encoded)
    /\ tokens encoded
       = List.map (fun t => position t exprs) (expression_texts s)
    /\ (forall k t, expression_texts s !! k = Some t ->
          exists i, tokens encoded !! k = Some i /\ exprs !! i = Some t)
    /\ exprs = first_occurrences (expression_texts s)
    /\ NoDup exprs.

(** "[Merge] applied to the output of [Split(s)] reconstructs [s],
    differing only in the separator spaces". *)
Definition merge_restores (s : string) : Prop :=
  balanced s = true -> representable s ->
  exists encoded exprs,
    SplitLogExpressions s = Return (encoded, exprs)
    /\ MergeLogExpressions encoded exprs = Return (separated s).

Definition raises {A} (o : outcome A) : Prop := exists e, o = Raise e.

Definition token_out_of_range (fmt : string) (exprs : list string) : Prop :=
  exists i, In i (tokens fmt) /\ (length exprs <= i)%nat.

(** "[Merge] raises whenever the encoded format contains an unmatched
    brace character, or a token [$N] with [N >= len(expressions)]". *)
Definition merge_raises_on (fmt : string) (exprs : list string) : Prop :=
  balanced fmt = false \/ token_out_of_range fmt exprs ->
  raises (MergeLogExpressions fmt exprs).

End CodecSpec.

(** ** What the specification says about the resolver *)

Module ResolverSpec.
Import Resolver.

(** "No label": the label is not in the mapping. *)
Definition absent (o : option string) : bool :=
  match o with
  | None => true
  | Some _ => false
  end.

(** The label is not in the mapping, or is the empty string. *)
Definition blank (o : option string) : bool := negb (truthy o).

(** A step of the resolution yields a verdict or nothing. *)
Definition try_latest (ds : list Debuggee) : option (outcome Debuggee) :=
  match _FindLatestMinorVersion ds with
  | Return (Some d) => Some (Return d)
  | Return None => None
  | Raise e => Some (Raise e)
  | NotModelled => Some NotModelled
  end.

Definition unique_or_ambiguous (all candidates : list Debuggee)
  : option (outcome Debuggee) :=
  match candidates with
  | [] => Some (Raise (MultipleDebuggeesError None all))
  | [d] => Some (Return d)
  | _ => None
  end.

Fixpoint first_verdict (steps : list (option (outcome Debuggee)))
    (otherwise : outcome Debuggee) : outcome Debuggee :=
  match steps with
  | [] => otherwise
  | Some v :: _ => v
  | None :: rest => first_verdict rest otherwise
  end.

(** [ResolveDefault] of section 4.2; [unlabelled] says when a debuggee
    counts as having no label of a kind. *)
Definition ResolveDefault (unlabelled : option string -> bool)
    (debuggees : list Debuggee) : outcome Debuggee :=
  match debuggees with
  | [] => Raise (NoDebuggeeError None)
  | [d] => Return d
  | _ =>
      let no_module :=
        List.filter (fun d => unlabelled (module d)) debuggees in
      let no_version :=
        List.filter (fun d => unlabelled (version d)) no_module in
      first_verdict
        [ try_latest debuggees;
          unique_or_ambiguous debuggees no_module;
          try_latest no_module;
          unique_or_ambiguous debuggees no_version;
          try_latest no_version ]
        (Raise (NoDebuggeeError None))
  end.

(** [Resolve] of section 4.2 for a pattern that is given. *)
Definition Resolve `{RegexEngine} (debuggees : list Debuggee)
    (pattern : string) : outcome Debuggee :=
  match re_compile pattern with
  | None => Raise RegexError
  | Some re =>
      let by_name :=
        List.filter (fun d => String.eqb (target_id d) pattern
                              || re_search re (name d)) debuggees in
      let by_description :=
        List.filter (fun d => re_search re (description d)) debuggees in
      let candidates :=
        match by_name with [] => by_description | _ => by_name end in
      match candidates with
      | [] => Raise (NoDebuggeeError (Some pattern))
      | [d] => Return d
      | _ =>
          match _FindLatestMinorVersion candidates with
          | Return (Some d) => Return d
          | Return None =>
              Raise (MultipleDebuggeesError (Some pattern) candidates)
          | Raise e => Raise e
          | NotModelled => NotModelled
          end
      end
  end.

(** The minor version of a debuggee as a number. *)
Definition minor_value (d : Debuggee) : option Z :=
  match minorversion d with
  | Some l => match Py.int l with Return v => Some v | _ => None end
  | None => None
  end.

(** [d] is a debuggee of [ds] with the numerically largest minor
    version. *)
Definition is_latest (d : Debuggee) (ds : list Debuggee) : Prop :=
  In d ds /\
  exists v, minor_value d = Some v /\
    forall d' v', In d' ds -> minor_value d' = Some v' -> (v' <= v)%Z.

Definition same_name (ds : list Debuggee) : Prop :=
  forall d d', In d ds -> In d' ds -> name d = name d'.

Definition all_versioned (ds : list Debuggee) : Prop :=
  forall d, In d ds -> truthy (minorversion d) = true.

(** "[LatestMinorVersion] returns the debuggee with the numeric-maximum
    minor version if and only if every debuggee has the same display
    name and a truthy minor-version label; in every other case it yields
    no result rather than an error". *)
Definition latest_iff_uniform (ds : list Debuggee) : Prop :=
  ((exists d, _FindLatestMinorVersion ds = Return (Some d)
              /\ is_latest d ds)
   <-> same_name ds /\ all_versioned ds)
  /\ (~ (same_name ds /\ all_versioned ds) ->
      _FindLatestMinorVersion ds = Return None).

(** Every minor-version label that is present and not empty is a
    decimal numeral. *)
Definition numeric_labels (ds : list Debuggee) : Prop :=
  forall d l, In d ds -> minorversion d = Some l -> l <> "" ->
    exists v, Py.int l = Return v.

(** No minor version is negative, or none is zero. *)
Definition sign_uniform (ds : list Debuggee) : Prop :=
  (forall d v, In d ds -> minor_value d = Some v -> (0 <= v)%Z)
  \/ (forall d v, In d ds -> minor_value d = Some v -> v <> 0%Z).

End ResolverSpec.

(** ** What the specification says about breakpoint IDs *)

Module BreakpointSpec.
Import Breakpoints.

(** [^[0-9a-f]{13,16}-[0-9a-f]{4}-[0-9a-f]{1,8}$] of section 6. *)
Definition breakpoint_id_format (s : string) : bool :=
  repeat_class hex 13 (Some 16)%nat
    (literal "-"
       (repeat_class hex 4 (Some 4)%nat
          (literal "-" (repeat_class hex 1 (Some 8)%nat at_end)))) s.

End BreakpointSpec.

(** ** Auxiliary notions for the proofs *)

Module Aux.
Import CodecSpec.

(** The token that a scanner state still has to deliver. *)
Definition pending (q : tok_state) : list nat :=
  match q with
  | Digits n => [N.to_nat n]
  | _ => []
  end.

(** What the scanner state after the output so far promises about the
    items still to be encoded. *)
Definition compatible (q : tok_state) (sep : bool) (items : list item)
  : Prop :=
  match q with
  | Digits _ => sep = true
  | Dollar => lt_free true items = true
  | Outside => True
  end.


(** From scanner state [q] on, [fmt] holds a token that is no index
    into [args]. *)
Definition bad (q : tok_state) (fmt : string) (args : list string) : Prop :=
  exists i, In i (tokens_from q fmt) /\ (length args <= i)%nat.

(** The scanner state that corresponds to the digits read so far. *)
Definition q_of (text : string) : tok_state :=
  match text with
  | "" => Dollar
  | _ => Digits (digits_value 0 text)
  end.

(** Every debuggee of [ds] has the name [n] and a minor version. *)
Definition uniformb (n : string) (ds : list Debuggee) : bool :=
  forallb (fun d => String.eqb n (Resolver.name d)
                    && truthy (Resolver.minorversion d)) ds.

(** The names of a list of fields. *)
Definition keys (fields : list (string * Breakpoints.value)) : list string :=
  List.map fst fields.

(** The loop of [_MessageDict.__init__]. *)
Definition fill (d : Breakpoints.MessageDict)
    (fields : list (string * Breakpoints.value)) : Breakpoints.MessageDict :=
  fold_left
    (fun d '(field, v) =>
       if Breakpoints.falsy v then Breakpoints.set_hidden d field v
       else Breakpoints.set_item d field v)
    fields d.

(** The hidden fields that [AddTargetInfo] passes on. *)
Definition hidden_of (self : Debuggee) : gmap string Breakpoints.value :=
  list_to_map
    [("project_id", Breakpoints.VStr (project_id self));
     ("project_number", Breakpoints.VInt (project_number self));
     ("target_uniquifier", Breakpoints.VStr (target_uniquifier self));
     ("target_id", Breakpoints.VStr (target_id self))].

(** The dictionary that wraps a message of the service. *)
Definition wrapped (self : Debuggee) (b : Breakpoints.Breakpoint)
  : Breakpoints.MessageDict :=
  fill {| Breakpoints.orig_type := "Breakpoint";
          Breakpoints.items := ∅;
          Breakpoints.hidden_fields := hidden_of self |}
       (Breakpoints.all_fields b).

Fixpoint all_hex (s : string) : bool :=
  match s with
  | "" => true
  | String c r => Breakpoints.hex c && all_hex r
  end.

End Aux.

(** ** Tactics of the proofs *)

Module Tactics.

(** The 256 cases of a character. *)
Ltac ascii_cases c :=
  let b0 := fresh in let b1 := fresh in let b2 := fresh in
  let b3 := fresh in let b4 := fresh in let b5 := fresh in
  let b6 := fresh in let b7 := fresh in
  destruct c as [b0 b1 b2 b3 b4 b5 b6 b7];
  destruct b0, b1, b2, b3, b4, b5, b6, b7.

(** Tests on integers and booleans among the hypotheses, as
    propositions. *)
Ltac zify_tests :=
  repeat match goal with
  | H : (_ =? _)%Z = true |- _ => apply Z.eqb_eq in H
  | H : (_ =? _)%Z = false |- _ => apply Z.eqb_neq in H
  | H : negb _ = true |- _ => apply negb_true_iff in H
  | H : negb _ = false |- _ => apply negb_false_iff in H
  end.

(** A case for every test of the goal. *)
Ltac split_tests :=
  repeat match goal with
  | |- context [if ?b then _ else _] => destruct b eqn:?; cbn
  | |- context [match list_index ?x ?l with _ => _ end] =>
      destruct (list_index x l) eqn:?; cbn
  end.

(** Decides the comparisons of a brace count with zero. *)
Ltac decide_counts :=
  repeat (match goal with
          | |- context [(?x =? 0)%Z] =>
              let H := fresh in
              destruct (Z.eqb_spec x 0) as [H|H];
              [try (exfalso; cbn -[Z.of_nat Z.sub Z.add] in H; lia)
              |try (exfalso; cbn -[Z.of_nat Z.sub Z.add] in H; lia)]
          end; cbn -[Z.of_nat Z.sub Z.add]).

End Tactics.

Import Tactics.

(** ** Concrete debuggees, breakpoints and services *)

Module Examples.
Import Breakpoints.

(** A debuggee of project 12345 with the given target ID and labels. *)
Definition debuggee (id : string) (l : list (string * string)) : Debuggee :=
  {| project_number := 12345; project_id := "demo"; agent_version := "";
     description := ""; target_id := id; is_disabled := false;
     is_inactive := false; target_uniquifier := "uniq";
     labels := list_to_map l |}.

Definition svc_v1 (id minor : string) : Debuggee :=
  debuggee id [("module", "svc"); ("version", "v1");
               ("minorversion", minor)].

(** An engine for patterns without special characters: a pattern is
    found where it occurs as a substring. *)
#[export] Instance literal_engine : RegexEngine :=
  {| compiled := string;
     re_compile := Some;
     re_search := fun p s =>
       match String.index 0 p s with Some _ => true | None => false end |}.

Definition logpoint (i : string) : Breakpoint :=
  {| action := Some LOG; condition := None; expressions := ["a"; "b"];
     id := i; isFinalState := false;
     location := Some {| path := "main.py"; line := 12 |};
     logLevel := Some INFO; logMessageFormat := Some "a=$0, b=$1";
     userEmail := "dev@example.com" |}.

(** A service whose listing is [listed] and that knows every ID. *)
Definition service (listed : list Breakpoint) : Service :=
  {| clients_ready := true;
     breakpoints_List := fun _ _ _ => Return listed;
     breakpoints_Get := fun _ i => Return (logpoint i) |}.

End Examples.

(** * The other operations of the layer *)

(** ** Source locations *)

Module Locations.
Import Breakpoints.

(** [s.split(':')]; [cur] is the component read so far. *)
Fixpoint split_from (cur : string) (s : string) : list string :=
  match s with
  | "" => [cur]
  | String c r =>
      if Ascii.eqb c ":" then cur :: split_from "" r
      else split_from (cur ++ String c "") r
  end.

Definition split (s : string) : list string := split_from "" s.

(** [Debuggee._LocationFromString] (source lines 659-673). *)
Definition _LocationFromString (location : string)
  : outcome SourceLocation :=
  match split location with
  | [p; l] => n ← Py.int l; Return {| path := p; line := n |}
  | _ => Raise (ValueError MalformedLocation)
  end.

(** The text that [AddTargetInfo] shows for a location. *)
Definition shown (l : SourceLocation) : string :=
  path l ++ ":" ++ decimalZ (line l).

End Locations.

(** ** What a decorated breakpoint holds *)

Module Decoration.
Import Breakpoints Locations Aux.

(** A query string: the pairs [key=value], quoted, with an ampersand
    between them. *)
Fixpoint query_string (data : list (string * string)) : string :=
  match data with
  | [] => ""
  | (k, v) :: r =>
      quote_plus k ++ "=" ++ quote_plus v
      ++ match r with [] => "" | _ => "&" end ++ query_string r
  end.

(** The address of the console for the breakpoint [b] of the debuggee
    [self]. *)
Definition console_url (self : Debuggee) (b : Breakpoint) : string :=
  "https://console.developers.google.com/debug/fromgcloud?"
  ++ query_string
       ([("project", decimalZ (project_number self));
         ("dbgee", target_uniquifier self);
         ("bp", id b)]
        ++ match location b with
           | Some l =>
               (if String.eqb (path l) "" then [] else [("fp", path l)])
               ++ (if (line l =? 0)%Z then []
                   else [("fl", decimalZ (line l))])
           | None => []
           end)%list.

(** The dictionary for the breakpoint [b]; [merged] is the log message
    format with its expressions put back, if [b] has one. *)
Definition decorated (self : Debuggee) (b : Breakpoint)
    (merged : option string) : MessageDict :=
  let result :=
    set_item (wrapped self b) "consoleViewUrl"
             (VStr (console_url self b)) in
  let result :=
    match location b with
    | Some l => set_item result "location" (VStr (shown l))
    | None => result
    end in
  match merged with
  | Some m =>
      HideExistingField (set_item result "logMessageFormat" (VStr m))
                        "expressions"
  | None => result
  end.

End Decoration.

(** ** Listing breakpoints *)

Module Listing.
Import Breakpoints.

(** [Debuggee.ListBreakpoints] (source lines 452-464). *)
Definition ListBreakpoints (svc : Service) (self : Debuggee)
    (include_all_users include_inactive : bool)
    (restrict_to_type : option Action) : rpc (list MessageDict) :=
  _ ← lift (_CheckClient svc);
  response ← (fun log =>
    (breakpoints_List svc (target_id self)
                      include_all_users include_inactive,
     (log ++ [ListCall (target_id self)
                       include_all_users include_inactive])%list));
  lift (_FilteredDictListWithInfo self (Message <$> response)
                                  restrict_to_type).

(** The breakpoints that [_FilteredDictListWithInfo] keeps: all of
    them without a type, and otherwise those whose action is the type,
    a breakpoint without action being a snapshot. *)
Definition kept (restrict_to_type : option Action) (b : Breakpoint)
  : bool :=
  match restrict_to_type with
  | None => true
  | Some t =>
      match action b with
      | Some a => Action_eqb a t
      | None => Action_eqb t SNAPSHOT_TYPE
      end
  end.

(** The breakpoint has no log message format to decode. *)
Definition plain (b : Breakpoint) : bool :=
  negb (truthy (logMessageFormat b)).

End Listing.

(** ** Creating breakpoints *)

Module Creation.
Import Breakpoints Locations.

(** The [Breakpoint] message that [CreateSnapshot] and [CreateLogpoint]
    build, with the keyword arguments they give; a field that is not
    given is [None]. *)
Module Request.

Record t := {
  location : SourceLocation;
  condition : option string;
  logLevel : option LogLevel;
  logMessageFormat : option string;
  expressions : list string;
  labels : option (list (string * string));
  userEmail : option string;
  action : Action }.

End Request.

Inductive request :=
  | SetCall (debuggee_id : string) (breakpoint : Request.t).

(** The service together with what the creation of a breakpoint uses
    besides: the constructor of the log level enumeration, which is
    part of the generated messages, and the [Set] method. *)
Record Client := {
  service : Service;
  LogLevelValueValuesEnum : string -> outcome LogLevel;
  breakpoints_Set : string -> Request.t -> outcome Breakpoint }.

Definition io (A : Type) : Type :=
  list request -> outcome A * list request.

Definition io_bind {A B} (f : A -> io B) (m : io A) : io B :=
  fun log =>
    match m log with
    | (Return a, log) => f a log
    | (Raise e, log) => (Raise e, log)
    | (NotModelled, log) => (NotModelled, log)
    end.

#[global] Instance io_mbind : MBind io := @io_bind.
#[global] Instance io_mret : MRet io := fun A a log => (Return a, log).

Definition pure {A} (o : outcome A) : io A := fun log => (o, log).

Definition Set_ (c : Client) (debuggee_id : string)
    (breakpoint : Request.t) : io Breakpoint :=
  fun log =>
    (breakpoints_Set c debuggee_id breakpoint,
     (log ++ [SetCall debuggee_id breakpoint])%list).

(** [labels_value]: a dictionary of labels that is not empty becomes
    the list of its items; [map_to_list] fixes their order, which
    Python leaves open. *)
Definition labels_value (labels : option (gmap string string))
  : option (list (string * string)) :=
  match labels with
  | Some m => if bool_decide (m = ∅) then None else Some (map_to_list m)
  | None => None
  end.

(** [c.upper()] for an ASCII character. *)
Definition upper_char (c : ascii) : ascii :=
  let n := N_of_ascii c in
  if ((97 <=? n) && (n <=? 122))%N then ascii_of_N (n - 32) else c.

(** [s.upper()]; characters outside ASCII are outside the model. *)
Fixpoint upper (s : string) : outcome string :=
  match s with
  | "" => Return ""
  | String c r =>
      if (N_of_ascii c <? 128)%N
      then r' ← upper r; Return (String (upper_char c) r')
      else NotModelled
  end.

(** [Debuggee.CreateSnapshot] (source lines 507-547). *)
Definition CreateSnapshot (c : Client) (self : Debuggee)
    (location : string) (condition : option string)
    (expressions : option (list string)) (user_email : option string)
    (labels : option (gmap string string)) : io MessageDict :=
  _ ← pure (_CheckClient (service c));
  let labels_value := labels_value labels in
  location ← pure (_LocationFromString location);
  let expressions :=
    match expressions with
    | Some (e :: l) => e :: l
    | _ => []
    end in
  response ← Set_ c (target_id self)
    {| Request.location := location;
       Request.condition := condition;
       Request.logLevel := None;
       Request.logMessageFormat := None;
       Request.expressions := expressions;
       Request.labels := labels_value;
       Request.userEmail := user_email;
       Request.action := CAPTURE |};
  pure (AddTargetInfo self (Message response)).

(** The [ValueError]s that [CreateLogpoint] raises on its own
    arguments. *)
Inductive argument_error :=
  | EmptyLocation      (* The location must not be empty. *)
  | EmptyLogFormat.    (* The log format string must not be empty. *)

(** What a call of [CreateLogpoint] comes to: one of its own
    [ValueError]s, or the outcome of the rest of its body. *)
Inductive verdict (A : Type) :=
  | Rejected (why : argument_error)
  | Ran (o : outcome A).
Arguments Rejected {A} why.
Arguments Ran {A} o.

(** The log level of a logpoint (source lines 585-588): a name that
    is given and not empty is put in upper case and handed to the
    enumeration. *)
Definition log_level_value (c : Client) (log_level : option string)
  : outcome (option LogLevel) :=
  if truthy log_level
  then name ← upper (default "" log_level);
       level ← LogLevelValueValuesEnum c name;
       Return (Some level)
  else Return None.

(** [CreateLogpoint] after the checks of its arguments (source lines
    577-602). *)
Definition create_logpoint (c : Client) (self : Debuggee)
    (location log_format_string : string) (log_level : option string)
    (condition user_email : option string)
    (labels : option (gmap string string)) : io MessageDict :=
  let labels_value := labels_value labels in
  location ← pure (_LocationFromString location);
  log_level ← pure (log_level_value c log_level);
  split ← pure (SplitLogExpressions log_format_string);
  let '(log_message_format, expressions) := split in
  response ← Set_ c (target_id self)
    {| Request.location := location;
       Request.condition := condition;
       Request.logLevel := log_level;
       Request.logMessageFormat := Some log_message_format;
       Request.expressions := expressions;
       Request.labels := labels_value;
       Request.userEmail := user_email;
       Request.action := LOG |};
  pure (AddTargetInfo self (Message response)).

(** [Debuggee.CreateLogpoint] (source lines 549-602). *)
Definition CreateLogpoint (c : Client) (self : Debuggee)
    (location log_format_string : string) (log_level : option string)
    (condition user_email : option string)
    (labels : option (gmap string string))
  : list request -> verdict MessageDict * list request :=
  fun log =>
    match _CheckClient (service c) with
    | Return _ =>
        if String.eqb location "" then (Rejected EmptyLocation, log)
        else if String.eqb log_format_string ""
        then (Rejected EmptyLogFormat, log)
        else
          let '(o, log) :=
            create_logpoint c self location log_format_string log_level
                            condition user_email labels log in
          (Ran o, log)
    | Raise e => (Ran (Raise e), log)
    | NotModelled => (Ran NotModelled, log)
    end.

(** The breakpoint that a service which stores a request under the ID
    [i] answers with. *)
Definition stored (i : string) (r : Request.t) : Breakpoint :=
  {| action := Some (Request.action r);
     condition := Request.condition r;
     expressions := Request.expressions r;
     id := i;
     isFinalState := false;
     location := Some (Request.location r);
     logLevel := Request.logLevel r;
     logMessageFormat := Request.logMessageFormat r;
     userEmail := default "" (Request.userEmail r) |}.

End Creation.

(** ** Projects and the caches of their numbers *)

Module Projects.

(** Modelled from the spec: the [Project] message of the resource
    manager is not part of the sources; the layer reads its ID and its
    number. *)
Record Project := { projectId : string; projectNumber : Z }.

(** The two dictionaries of the class [DebugObject], and the project
    IDs the resource manager was asked for so far. *)
Record state := {
  _project_id_to_number_cache : gmap string Z;
  _project_number_to_id_cache : gmap Z string;
  asked : list string }.

Definition initial : state :=
  {| _project_id_to_number_cache := ∅;
     _project_number_to_id_cache := ∅;
     asked := [] |}.

Section Lookup.
(** [cls._resource_client.projects.Get], with the errors that
    [project_util.HandleHttpError] makes of its failures. *)
Variable GetProject : string -> outcome Project.

(** [DebugObject.GetProjectNumber] (source lines 190-210). *)
Definition GetProjectNumber (project_id : string) (st : state)
  : outcome Z * state :=
  match _project_id_to_number_cache st !! project_id with
  | Some n => (Return n, st)
  | None =>
      let log := (asked st ++ [project_id])%list in
      match GetProject project_id with
      | Return project =>
          (Return (projectNumber project),
           {| _project_id_to_number_cache :=
                <[projectId project := projectNumber project]>
                  (_project_id_to_number_cache st);
              _project_number_to_id_cache :=
                <[projectNumber project := projectId project]>
                  (_project_number_to_id_cache st);
              asked := log |})
      | Raise e =>
          (Raise e,
           {| _project_id_to_number_cache :=
                _project_id_to_number_cache st;
              _project_number_to_id_cache :=
                _project_number_to_id_cache st;
              asked := log |})
      | NotModelled =>
          (NotModelled,
           {| _project_id_to_number_cache :=
                _project_id_to_number_cache st;
              _project_number_to_id_cache :=
                _project_number_to_id_cache st;
              asked := log |})
      end
  end.

(** [DebugObject.GetProjectId] (source lines 212-227). *)
Definition GetProjectId (project_number : Z) (st : state)
  : outcome string * state :=
  match _project_number_to_id_cache st !! project_number with
  | Some i => (Return i, st)
  | None =>
      match GetProjectNumber
              (Breakpoints.decimalZ project_number) st with
      | (Return _, st) =>
          (Return (default (Breakpoints.decimalZ project_number)
                     (_project_number_to_id_cache st
                        !! project_number)),
           st)
      | (Raise e, st) => (Raise e, st)
      | (NotModelled, st) => (NotModelled, st)
      end
  end.

End Lookup.

(** Every number the first cache gives is a key of the second, and
    every ID the second gives is a key of the first. *)
Definition coherent (st : state) : Prop :=
  (forall i n, _project_id_to_number_cache st !! i = Some n ->
     is_Some (_project_number_to_id_cache st !! n))
  /\ (forall n i, _project_number_to_id_cache st !! n = Some i ->
        is_Some (_project_id_to_number_cache st !! i)).

End Projects.

(** ** A client and a resource manager to try the operations on *)

Module Samples.
Import Breakpoints Creation Projects.

Definition snapshot (i : string) : Breakpoint :=
  {| action := Some CAPTURE; condition := None; expressions := ["x"];
     id := i; isFinalState := true;
     location := Some {| path := "main.py"; line := 7 |};
     logLevel := None; logMessageFormat := None;
     userEmail := "dev@example.com" |}.

Definition level_by_name (name : string) : outcome LogLevel :=
  if String.eqb name "INFO" then Return INFO
  else if String.eqb name "WARNING" then Return WARNING
  else if String.eqb name "ERROR" then Return ERROR
  else Raise TypeError.

(** A client whose service stores every breakpoint it is asked to set
    under the ID [i]. *)
Definition storing (i : string) : Client :=
  {| service := Examples.service [];
     LogLevelValueValuesEnum := level_by_name;
     breakpoints_Set := fun _ r => Return (stored i r) |}.

(** A resource manager that knows one project, by its ID and by its
    number. *)
Definition registry (project_id : string) : outcome Project :=
  if String.eqb project_id "demo" || String.eqb project_id "12345"
  then Return {| projectId := "demo"; projectNumber := 12345 |}
  else Raise (HttpError 404).

End Samples.

(** * Properties *)

(** ** Strings, digits and decimal numerals *)

Module TextFacts.

Lemma append_nil_r (s : string) : s ++ "" = s.
Proof. induction s as [|c s IH]; simpl; [reflexivity | now rewrite IH]. Qed.

Lemma append_assoc (a b c : string) : (a ++ b) ++ c = a ++ (b ++ c).
Proof. induction a as [|x a IH]; simpl; [reflexivity | now rewrite IH]. Qed.

Lemma append_cons (c : ascii) (a b : string) :
  String c a ++ b = String c (a ++ b).
Proof. reflexivity. Qed.

Lemma append_snoc (a : string) (c : ascii) (b : string) :
  (a ++ String c "") ++ b = a ++ String c b.
Proof. now rewrite append_assoc. Qed.

Lemma length_append (a b : string) :
  String.length (a ++ b) = (String.length a + String.length b)%nat.
Proof. induction a as [|x a IH]; simpl; [reflexivity | now rewrite IH]. Qed.

Lemma append_inv_head (a b c : string) : a ++ b = a ++ c -> b = c.
Proof.
  induction a as [|x a IH]; simpl; intros H; [assumption|].
  injection H as H. now apply IH.
Qed.

Lemma eqb_false_ne (c d : ascii) : Ascii.eqb c d = false <-> c <> d.
Proof. apply Ascii.eqb_neq. Qed.

Lemma isdigit_code (c : ascii) :
  isdigit c = ((48 <=? N_of_ascii c) && (N_of_ascii c <=? 57))%N.
Proof. ascii_cases c; reflexivity. Qed.

Lemma isdigit_range (c : ascii) :
  isdigit c = true <-> (48 <= N_of_ascii c <= 57)%N.
Proof.
  rewrite isdigit_code, andb_true_iff, !N.leb_le. reflexivity.
Qed.

Lemma isdigit_not_brace (c : ascii) :
  isdigit c = true ->
  Ascii.eqb c "{" = false /\ Ascii.eqb c "}" = false
  /\ Ascii.eqb c "$" = false /\ Ascii.eqb c " " = false.
Proof.
  intros H. repeat split; apply Ascii.eqb_neq; intros ->; discriminate H.
Qed.

Lemma digit_value_lt (c : ascii) :
  isdigit c = true -> (digit_value c < 10)%N.
Proof.
  intros H. apply isdigit_range in H. unfold digit_value. lia.
Qed.

Lemma all_digits_app (a b : string) :
  all_digits (a ++ b) = all_digits a && all_digits b.
Proof.
  induction a as [|c a IH]; simpl; [reflexivity|].
  now rewrite IH, andb_assoc.
Qed.

Lemma digits_value_app (a b : string) (acc : N) :
  digits_value acc (a ++ b) = digits_value (digits_value acc a) b.
Proof.
  revert acc. induction a as [|c a IH]; simpl; intros acc;
    [reflexivity | apply IH].
Qed.

Lemma digits_value_ge (s : string) (acc : N) :
  all_digits s = true -> (acc <= digits_value acc s)%N.
Proof.
  revert acc. induction s as [|c s IH]; simpl; intros acc H; [lia|].
  apply andb_true_iff in H as [Hc Hs].
  specialize (IH (acc * 10 + digit_value c)%N Hs). lia.
Qed.

(** *** The numeral of a list position *)

Lemma string_of_uint_digits (d : Decimal.uint) :
  all_digits (NilEmpty.string_of_uint d) = true.
Proof. induction d; simpl; auto. Qed.

Lemma string_of_uint_value (d : Decimal.uint) (acc : nat) :
  digits_value (N.of_nat acc) (NilEmpty.string_of_uint d)
  = N.of_nat (Nat.of_uint_acc d acc).
Proof.
  revert acc. induction d; intros acc; simpl; try reflexivity;
    rewrite Nat.tail_mul_spec;
    match goal with
    | |- digits_value ?x _ = N.of_nat (Nat.of_uint_acc _ ?y) =>
        replace x with (N.of_nat y);
        [apply IHd | unfold digit_value; simpl; lia]
    end.
Qed.

Lemma to_uint_not_nil (i : nat) : Nat.to_uint i <> Decimal.Nil.
Proof.
  intros H. pose proof (Unsigned.of_to i) as Hi. rewrite H in Hi.
  simpl in Hi. subst i. discriminate H.
Qed.

Lemma decimal_unfold (i : nat) :
  decimal i = NilEmpty.string_of_uint (Nat.to_uint i).
Proof.
  unfold decimal, NilZero.string_of_uint.
  destruct (Nat.to_uint i) eqn:E; try reflexivity.
  now apply to_uint_not_nil in E.
Qed.

Lemma decimal_digits (i : nat) : all_digits (decimal i) = true.
Proof. rewrite decimal_unfold. apply string_of_uint_digits. Qed.

Lemma decimal_value (i : nat) : digits_value 0 (decimal i) = N.of_nat i.
Proof.
  rewrite decimal_unfold.
  change 0%N with (N.of_nat 0). rewrite string_of_uint_value.
  change (Nat.of_uint_acc (Nat.to_uint i) 0) with (Nat.of_uint (Nat.to_uint i)).
  now rewrite Unsigned.of_to.
Qed.

Lemma decimal_not_empty (i : nat) : decimal i <> "".
Proof.
  rewrite decimal_unfold.
  destruct (Nat.to_uint i) eqn:E; simpl; try discriminate.
  now apply to_uint_not_nil in E.
Qed.

Lemma decimal_head (i : nat) :
  exists c r, decimal i = String c r /\ isdigit c = true
              /\ all_digits r = true.
Proof.
  pose proof (decimal_digits i) as H. pose proof (decimal_not_empty i) as Hn.
  destruct (decimal i) as [|c r]; [congruence|].
  simpl in H. apply andb_true_iff in H as [Hc Hr]. eauto.
Qed.

(** *** Positions in a list of expressions *)

Lemma list_index_Some (x : string) (l : list string) (i : nat) :
  list_index x l = Some i -> l !! i = Some x.
Proof.
  revert i. induction l as [|y l IH]; simpl; intros i H; [discriminate|].
  destruct (String.eqb_spec x y) as [->|Hne].
  - now injection H as <-.
  - destruct (list_index x l) as [j|] eqn:E; simpl in H; [|discriminate].
    injection H as <-. now apply IH.
Qed.

Lemma list_index_None (x : string) (l : list string) :
  list_index x l = None <-> ~ In x l.
Proof.
  induction l as [|y l IH]; simpl; [tauto|].
  destruct (String.eqb_spec x y) as [->|Hne].
  - split; [discriminate | intros H; elim H; now left].
  - destruct (list_index x l) as [j|]; simpl.
    + split; [discriminate|]. intros H. exfalso. apply H. right.
      destruct IH as [IH1 IH2].
      destruct (in_dec String.string_dec x l) as [Hin|Hnin]; [assumption|].
      now specialize (IH2 Hnin).
    + split; [|reflexivity]. intros _ [Heq|Hin]; [congruence|].
      now apply IH.
Qed.

Lemma list_index_app_l (x : string) (l r : list string) (i : nat) :
  list_index x l = Some i -> list_index x (l ++ r)%list = Some i.
Proof.
  revert i. induction l as [|y l IH]; simpl; intros i H; [discriminate|].
  destruct (String.eqb x y); [assumption|].
  destruct (list_index x l) as [j|]; simpl in *; [|discriminate].
  now rewrite (IH j eq_refl).
Qed.

Lemma list_index_app_fresh (x : string) (l : list string) :
  list_index x l = None ->
  list_index x (l ++ [x])%list = Some (length l).
Proof.
  induction l as [|y l IH]; simpl; intros H.
  - now rewrite String.eqb_refl.
  - destruct (String.eqb x y); [discriminate|].
    destruct (list_index x l) as [j|]; simpl in *; [discriminate|].
    now rewrite (IH eq_refl).
Qed.

End TextFacts.

(** ** The loop of [SplitLogExpressions] *)

Module CodecFacts.
Import Codec CodecSpec TextFacts.

Lemma run_app (st : state) (a b : string) :
  run st (a ++ b) = run (run st a) b.
Proof.
  revert st. induction a as [|c a IH]; simpl; intros st;
    [reflexivity | apply IH].
Qed.

(** *** The state follows the brace depth *)

Lemma step_count (st : state) (c : ascii) (d : nat) :
  brace_count st = Z.of_nat d ->
  brace_count (step st c)
  = Z.of_nat (if Ascii.eqb c "{" then S d
              else if Ascii.eqb c "}" then Nat.pred d else d).
Proof.
  destruct st as [E lf cur bc sep]. cbn. intros ->.
  unfold step, finish_expression. cbn -[Z.of_nat Z.eqb Z.sub Z.add].
  split_tests; zify_tests; cbn -[Z.of_nat Z.eqb Z.sub Z.add] in *;
    try discriminate; try lia.
Qed.

Lemma run_count (s : string) (st : state) (d : nat) :
  brace_count st = Z.of_nat d ->
  brace_count (run st s) = Z.of_nat (depth_from d s).
Proof.
  revert st d. induction s as [|c s IH]; simpl; intros st d Hd;
    [exact Hd|].
  pose proof (step_count st c d Hd) as Hs.
  destruct (Ascii.eqb c "{"); [|destruct (Ascii.eqb c "}")];
    now apply IH.
Qed.

(** The brace count never goes below zero. *)
Lemma run_count_nonneg (s : string) :
  (0 <= brace_count (run initial s))%Z.
Proof.
  rewrite (run_count s initial 0 eq_refl). lia.
Qed.

(** *** The output only grows *)



(** *** The loop computes the encoding of the parsed string *)

Lemma parse_from_0_cur (cur s : string) :
  parse_from 0 cur s = parse_from 0 "" s.
Proof. destruct s; reflexivity. Qed.

Lemma parse_from_inside (s : string) (d : nat) (cur : string) :
  ~ starts_with_literal (parse_from (S d) cur s).
Proof.
  revert d cur. induction s as [|c s IH]; simpl; intros d cur; [tauto|].
  destruct (Ascii.eqb c "{"); [apply IH|].
  destruct (Ascii.eqb c "}"); [|apply IH].
  destruct d; [simpl; tauto | apply IH].
Qed.

Lemma render_from_sep (E : list string) (b : bool) (items : list item) :
  ~ starts_with_literal items ->
  render_from E b items = render_from E false items.
Proof.
  destruct items as [|[c|t] r]; simpl; intros H; [reflexivity| |reflexivity].
  now elim H.
Qed.

Lemma step_spec (E : list string) (lf cur : string) (d : nat) (sep : bool)
    (c : ascii) :
  (sep = true -> d = O) ->
  step (State E lf cur (Z.of_nat d) sep) c =
    if Ascii.eqb c "{" then
      State E lf (match d with O => "" | _ => cur ++ "{" end)
            (Z.of_nat (S d)) false
    else
      match d with
      | O => State E (lf ++ (if sep && isdigit c then " " else "")
                        ++ String c "") cur 0 false
      | S d' =>
          if Ascii.eqb c "}" then
            match d' with
            | O => let E' := add_expression E cur in
                   State E' (lf ++ "$" ++ decimal (position cur E'))
                         cur 0 true
            | S _ => State E lf (cur ++ "}") (Z.of_nat d') false
            end
          else State E lf (cur ++ String c "") (Z.of_nat d) false
      end.
Proof.
  intros Hsep.
  unfold step, finish_expression, add_expression, position, set_count,
    set_expression, set_separator, set_expressions, add_format.
  destruct (Ascii.eqb_spec c "{") as [->|Hne].
  - destruct d; cbn -[Z.of_nat Z.add]; rewrite andb_false_r;
      cbn -[Z.of_nat Z.add]; decide_counts; f_equal; lia.
  - destruct d as [|d].
    + cbn -[Z.of_nat]. destruct (sep && isdigit c); cbn -[Z.of_nat]; decide_counts;
        rewrite ?append_assoc; reflexivity.
    + assert (sep = false) as ->
        by (destruct sep; [now specialize (Hsep eq_refl)|reflexivity]).
      destruct (Ascii.eqb_spec c "}") as [->|Hnc].
      * destruct d as [|d]; cbn -[Z.of_nat Z.sub]; decide_counts.
        -- destruct (list_index cur E) eqn:Ei; cbn; rewrite ?Ei; cbn.
           ++ reflexivity.
           ++ rewrite (list_index_app_fresh _ _ Ei). reflexivity.
        -- f_equal. lia.
      * cbn -[Z.of_nat Z.sub]. decide_counts. reflexivity.
Qed.

Lemma run_refines (s : string) :
  forall (E : list string) (lf cur : string) (d : nat) (sep : bool),
    (sep = true -> d = O) ->
    let st' := run (State E lf cur (Z.of_nat d) sep) s in
    let items := parse_from d cur s in
    log_format st' = lf ++ render_from E sep items
    /\ expressions st' = fold_left add_expression (texts items) E.
Proof.
  induction s as [|c s IH]; intros E lf cur d sep Hsep; cbv zeta.
  - simpl. now rewrite append_nil_r.
  - cbn [run]. rewrite (step_spec _ _ _ _ _ _ Hsep). cbn [parse_from].
    destruct (Ascii.eqb c "{") eqn:Eo.
    + (* an opening brace *)
      destruct d as [|d].
      * rewrite (render_from_sep E sep) by apply parse_from_inside.
        exact (IH E lf "" 1%nat false ltac:(discriminate)).
      * assert (sep = false) as ->
          by (destruct sep; [now specialize (Hsep eq_refl)|reflexivity]).
        exact (IH E lf (cur ++ "{") (S (S d)) false ltac:(discriminate)).
    + destruct d as [|d].
      * (* literal text *)
        cbn [texts render_from].
        specialize (IH E (lf ++ (if sep && isdigit c then " " else "")
                            ++ String c "") cur 0%nat false
                      ltac:(reflexivity)).
        cbv zeta in IH. rewrite parse_from_0_cur in IH.
        destruct IH as [IH1 IH2]. split; [|exact IH2].
        change (Z.of_nat 0) with 0%Z in IH1.
        rewrite IH1. now rewrite !append_assoc.
      * (* inside an expression *)
        assert (sep = false) as ->
          by (destruct sep; [now specialize (Hsep eq_refl)|reflexivity]).
        destruct (Ascii.eqb c "}") eqn:Ec.
        -- destruct d as [|d].
           ++ (* the expression ends *)
              cbv zeta. cbn [texts render_from fold_left].
              specialize (IH (add_expression E cur)
                (lf ++ "$" ++ decimal (position cur (add_expression E cur)))
                cur 0%nat true ltac:(reflexivity)).
              cbv zeta in IH. rewrite parse_from_0_cur in IH.
              destruct IH as [IH1 IH2]. split; [|exact IH2].
              change (Z.of_nat 0) with 0%Z in IH1.
              rewrite IH1. cbn. now rewrite !append_assoc.
           ++ exact (IH E lf (cur ++ "}") (S d) false ltac:(discriminate)).
        -- exact (IH E lf (cur ++ String c "") (S d) false
                    ltac:(discriminate)).
Qed.

End CodecFacts.

Module SplitFacts.
Import Codec CodecSpec Aux TextFacts CodecFacts.

Lemma balanced_depth (s : string) (d : nat) :
  balanced_from d s = true -> depth_from d s = 0%nat.
Proof.
  revert d. induction s as [|c s IH]; simpl; intros d H.
  - now apply Nat.eqb_eq in H.
  - destruct (Ascii.eqb c "{"); [now apply IH|].
    destruct (Ascii.eqb c "}"); [|now apply IH].
    destruct d; [discriminate | now apply IH].
Qed.

(** [SplitLogExpressions] in terms of the parsed string. *)
Lemma Split_parse (s : string) :
  SplitLogExpressions s =
    if Nat.eqb (depth_from 0 s) 0
    then Return (render_from [] false (parse s),
                 first_occurrences (expression_texts s))
    else Raise (ValueError UnbalancedLeftBrace).
Proof.
  unfold SplitLogExpressions.
  pose proof (run_refines s [] "" "" 0%nat false ltac:(discriminate)) as H.
  cbv zeta in H. destruct H as [H1 H2].
  pose proof (run_count s initial 0%nat eq_refl) as Hc.
  change (State [] "" "" (Z.of_nat 0) false) with initial in *.
  rewrite Hc, H1, H2.
  destruct (Nat.eqb_spec (depth_from 0 s) 0) as [E|E].
  - rewrite E. reflexivity.
  - replace (Z.of_nat (depth_from 0 s) =? 0)%Z with false
      by (symmetry; apply Z.eqb_neq; lia).
    reflexivity.
Qed.

(** *** Literal dollar signs *)

Lemma lt_free_weaken (items : list item) :
  lt_free true items = true -> lt_free false items = true.
Proof.
  destruct items as [|[c|t] r]; simpl; auto.
  intros H. apply andb_true_iff in H. tauto.
Qed.

Lemma literal_token_free_items (s : string) :
  forall (d : nat) (cur : string) (prev : bool),
    literal_token_free_from d s = true ->
    (prev = true -> d = O -> starts_with_digit s = false) ->
    lt_free prev (parse_from d cur s) = true.
Proof.
  induction s as [|c s IH]; intros d cur prev H Hp; [reflexivity|].
  simpl in H. apply andb_true_iff in H as [H1 H2].
  apply negb_true_iff in H1.
  destruct d as [|d]; cbn [parse_from].
  - destruct (Ascii.eqb c "{") eqn:Eo.
    + apply IH; [exact H2 | discriminate].
    + cbn [lt_free]. apply andb_true_iff. split.
      * apply negb_true_iff. destruct prev; [|reflexivity].
        exact (Hp eq_refl eq_refl).
      * apply IH.
        -- destruct (Ascii.eqb c "}"); exact H2.
        -- intros Hd _. simpl in H1. rewrite Hd in H1. exact H1.
  - destruct (Ascii.eqb c "{") eqn:Eo.
    + apply IH; [exact H2 | discriminate].
    + destruct (Ascii.eqb c "}") eqn:Ec.
      * destruct d as [|d].
        -- cbn [lt_free]. apply IH; [exact H2 | discriminate].
        -- apply IH; [exact H2 | discriminate].
      * apply IH; [exact H2 | discriminate].
Qed.

(** *** The tokens of an encoded format *)

Lemma tokens_from_digits (ds rest : string) (n : N) :
  all_digits ds = true ->
  tokens_from (Digits n) (ds ++ rest)
  = tokens_from (Digits (digits_value n ds)) rest.
Proof.
  revert n. induction ds as [|c ds IH]; simpl; intros n H; [reflexivity|].
  apply andb_true_iff in H as [Hc Hd]. rewrite Hc. simpl. now apply IH.
Qed.

Lemma tok_step_dollar (q : tok_state) :
  tok_step q "$" = (Dollar, pending q).
Proof. destruct q; reflexivity. Qed.

Lemma tok_step_space (q : tok_state) :
  tok_step q " " = (Outside, pending q).
Proof. destruct q; reflexivity. Qed.

Lemma tokens_from_token (q : tok_state) (i : nat) (rest : string) :
  tokens_from q ("$" ++ decimal i ++ rest)
  = (pending q ++ tokens_from (Digits (N.of_nat i)) rest)%list.
Proof.
  cbn [String.append tokens_from]. rewrite tok_step_dollar. f_equal.
  destruct (decimal_head i) as (c & r & Hd & Hc & Hr).
  pose proof (decimal_value i) as Hv. rewrite Hd in *.
  cbn [String.append tokens_from tok_step]. rewrite Hc. cbn [app].
  rewrite (tokens_from_digits r rest _ Hr). cbn [digits_value] in Hv.
  rewrite N.mul_0_l, N.add_0_l in Hv. now rewrite Hv.
Qed.

Lemma tokens_render (items : list item) :
  forall (E : list string) (sep : bool) (q : tok_state),
    lt_free false items = true ->
    compatible q sep items ->
    tokens_from q (render_from E sep items)
    = (pending q ++ indices_from E items)%list.
Proof.
  induction items as [|[c|t] r IH]; intros E sep q Hf Hq.
  - simpl. destruct q; reflexivity.
  - cbn [render_from indices_from]. cbn [lt_free] in Hf. simpl in Hf.
    destruct (sep && isdigit c) eqn:Es.
    + apply andb_true_iff in Es as [-> Hc].
      destruct (isdigit_not_brace c Hc) as (_ & _ & Hd & _).
      rewrite Hd in Hf.
      cbn [String.append tokens_from]. rewrite tok_step_space.
      cbn [tok_step]. rewrite Hd. cbn [app].
      rewrite (IH E false Outside Hf I). reflexivity.
    + cbn [String.append tokens_from].
      assert (Hstep : exists q', tok_step q c = (q', pending q)
                /\ compatible q' false r).
      { destruct q as [| |n]; cbn [tok_step pending compatible] in *.
        - destruct (Ascii.eqb c "$"); eexists; split; try reflexivity;
            cbn; auto.
        - apply andb_true_iff in Hq as [Hq1 Hq2].
          apply negb_true_iff in Hq1. simpl in Hq1. rewrite Hq1.
          destruct (Ascii.eqb c "$"); eexists; split; try reflexivity;
            cbn; auto.
        - subst sep. simpl in Es. rewrite Es.
          destruct (Ascii.eqb c "$"); eexists; split; try reflexivity;
            cbn; auto. }
      destruct Hstep as (q' & -> & Hq').
      f_equal. 
      assert (Hf' : lt_free false r = true)
        by (destruct (Ascii.eqb c "$"); auto using lt_free_weaken).
      rewrite (IH E false q' Hf' Hq').
      destruct q'; try reflexivity. 
      cbn in Hq'. discriminate.
  - cbn [render_from indices_from]. cbn zeta.
    rewrite tokens_from_token. f_equal.
    rewrite (IH _ true (Digits _) Hf eq_refl).
    cbn [pending app]. now rewrite Nat2N.id.
Qed.
(** *** Positions in the final list of expressions *)

Lemma add_expression_prefix (E : list string) (t : string) :
  exists rest, add_expression E t = (E ++ rest)%list.
Proof.
  unfold add_expression. destruct (list_index t E).
  - exists []. now rewrite app_nil_r.
  - now exists [t].
Qed.

Lemma fold_add_prefix (l E : list string) :
  exists rest, fold_left add_expression l E = (E ++ rest)%list.
Proof.
  revert E. induction l as [|t l IH]; simpl; intros E.
  - exists []. now rewrite app_nil_r.
  - destruct (IH (add_expression E t)) as [r1 H1].
    destruct (add_expression_prefix E t) as [r2 H2].
    exists (r2 ++ r1)%list. now rewrite H1, H2, <- app_assoc.
Qed.

Lemma add_expression_index (E : list string) (t : string) :
  exists i, list_index t (add_expression E t) = Some i.
Proof.
  unfold add_expression. destruct (list_index t E) as [i|] eqn:Ei.
  - eauto.
  - exists (length E). now apply list_index_app_fresh.
Qed.

Lemma position_stable (E rest : list string) (t : string) (i : nat) :
  list_index t E = Some i -> position t (E ++ rest) = i.
Proof.
  intros H. unfold position. now rewrite (list_index_app_l _ _ rest _ H).
Qed.

Lemma indices_from_final (items : list item) (E : list string) :
  indices_from E items
  = List.map
      (fun t => position t (fold_left add_expression (texts items) E))
      (texts items).
Proof.
  revert E. induction items as [|[c|t] r IH]; intros E;
    cbn [indices_from texts List.map fold_left]; auto.
  rewrite IH. f_equal.
  destruct (add_expression_index E t) as [i Hi].
  destruct (fold_add_prefix (texts r) (add_expression E t)) as [rest ->].
  rewrite (position_stable _ rest _ _ Hi). unfold position. now rewrite Hi.
Qed.

Lemma fold_add_In (l E : list string) (t : string) :
  In t l -> exists i, list_index t (fold_left add_expression l E) = Some i.
Proof.
  revert E. induction l as [|u l IH]; simpl; intros E H; [tauto|].
  destruct H as [->|H]; [|now apply IH].
  destruct (add_expression_index E t) as [i Hi].
  destruct (fold_add_prefix l (add_expression E t)) as [rest ->].
  exists i. now apply list_index_app_l.
Qed.

Lemma fold_add_NoDup (l E : list string) :
  NoDup E -> NoDup (fold_left add_expression l E).
Proof.
  revert E. induction l as [|t l IH]; simpl; intros E H; [exact H|].
  apply IH. unfold add_expression.
  destruct (list_index t E) eqn:Ei; [exact H|].
  apply list_index_None in Ei.
  apply NoDup_app. split; [exact H|]. split.
  - intros x Hx Hx'. apply list_elem_of_In in Hx.
    apply list_elem_of_In in Hx'. destruct Hx' as [->|[]]. contradiction.
  - apply NoDup_singleton.
Qed.

Lemma first_occurrences_NoDup (l : list string) :
  NoDup (first_occurrences l).
Proof. apply fold_add_NoDup. constructor. Qed.

Lemma position_in_range (l : list string) (t : string) :
  In t l ->
  (position t (first_occurrences l) < length (first_occurrences l))%nat
  /\ first_occurrences l !! position t (first_occurrences l) = Some t.
Proof.
  intros H. destruct (fold_add_In l [] t H) as [i Hi].
  unfold position, first_occurrences. rewrite Hi. cbn.
  apply list_index_Some in Hi. split; [|exact Hi].
  now apply lookup_lt_Some in Hi.
Qed.

Lemma first_occurrences_length (l : list string) :
  (length (first_occurrences l) <= length l)%nat.
Proof.
  unfold first_occurrences.
  enough (H : forall E, (length (fold_left add_expression l E)
                         <= length E + length l)%nat)
    by apply (H []).
  induction l as [|t l IH]; simpl; intros E; [lia|].
  specialize (IH (add_expression E t)).
  assert (length (add_expression E t) <= S (length E))%nat.
  { unfold add_expression. destruct (list_index t E); [lia|].
    rewrite length_app. simpl. lia. }
  lia.
Qed.

(** [SplitLogExpressions] on a string whose braces are balanced and
    that has no literal dollar sign directly before a digit. *)
Lemma split_indexes (s : string) :
  literal_token_free s = true -> split_indexes_expressions s.
Proof.
  intros Hfree Hbal. unfold balanced in Hbal.
  pose proof (balanced_depth s 0 Hbal) as Hd.
  exists (render_from [] false (parse s)),
         (first_occurrences (expression_texts s)).
  assert (Hs : SplitLogExpressions s
               = Return (render_from [] false (parse s),
                         first_occurrences (expression_texts s)))
    by (rewrite Split_parse, Hd; reflexivity).
  assert (Hitems : lt_free false (parse s) = true)
    by (apply literal_token_free_items; [exact Hfree | discriminate]).
  assert (Htok : tokens (render_from [] false (parse s))
                 = List.map
                     (fun t => position t
                                 (first_occurrences (expression_texts s)))
                     (expression_texts s)).
  { unfold tokens. rewrite (tokens_render _ [] false Outside Hitems I).
    cbn [pending app]. apply indices_from_final. }
  split; [exact Hs|]. split; [|split; [exact Htok|]].
  - rewrite Htok. apply List.Forall_forall. intros i Hi.
    apply in_map_iff in Hi as (t & <- & Ht).
    now apply position_in_range.
  - split; [|split; [reflexivity | apply first_occurrences_NoDup]].
    intros k t Hk.
    exists (position t (first_occurrences (expression_texts s))). split.
    + rewrite Htok. 
      change (List.map ?f ?l) with (f <$> l).
      rewrite list_lookup_fmap, Hk. reflexivity.
    + apply position_in_range.
      apply list_elem_of_In. now apply list_elem_of_lookup_2 in Hk.
Qed.
End SplitFacts.

(** ** [MergeLogExpressions] *)

Module MergeFacts.
Import Codec CodecSpec Aux TextFacts CodecFacts SplitFacts Format.

(** *** The substitution of the tokens *)

Lemma sub_tokens_literal (c : ascii) (r : string) :
  Ascii.eqb c "$" && starts_with_digit r = false ->
  sub_tokens false (String c r) = String c (sub_tokens false r).
Proof. intros H. cbn. now rewrite H. Qed.

Lemma sub_tokens_digits (ds rest : string) :
  all_digits ds = true -> starts_with_digit rest = false ->
  sub_tokens true (ds ++ rest) = ds ++ "}}}" ++ sub_tokens false rest.
Proof.
  intros Hd Hr. induction ds as [|c ds IH]; cbn.
  - destruct rest as [|c r]; [reflexivity|].
    simpl in Hr. cbn. now rewrite Hr.
  - simpl in Hd. apply andb_true_iff in Hd as [Hc Hd].
    rewrite Hc. cbn. now rewrite IH.
Qed.

Lemma starts_with_digit_app (a b : string) :
  a <> "" -> starts_with_digit (a ++ b) = starts_with_digit a.
Proof. destruct a; [congruence | reflexivity]. Qed.

Lemma decimal_starts_with_digit (i : nat) (rest : string) :
  starts_with_digit (decimal i ++ rest) = true.
Proof.
  destruct (decimal_head i) as (c & r & -> & Hc & _). exact Hc.
Qed.

Lemma sub_tokens_token (i : nat) (rest : string) :
  starts_with_digit rest = false ->
  sub_tokens false ("$" ++ decimal i ++ rest)
  = "{{{" ++ decimal i ++ "}}}" ++ sub_tokens false rest.
Proof.
  intros Hr. cbn [String.append sub_tokens]. cbn [andb].
  rewrite decimal_starts_with_digit. cbn.
  now rewrite (sub_tokens_digits _ _ (decimal_digits i) Hr).
Qed.

(** *** [str.format] on literal text and on a token *)

Lemma format_literal (c : ascii) (r : string) (args : list string) :
  Ascii.eqb c "{" = false -> Ascii.eqb c "}" = false ->
  format_from Literal (String c r) args
  = emit c (format_from Literal r args).
Proof. intros H1 H2. cbn. now rewrite H1, H2. Qed.

Lemma format_field_digits (ds text rest : string) (args : list string) :
  all_digits ds = true ->
  format_from (Field 1 text) (ds ++ String "}" rest) args
  = (v ← render_field (text ++ ds) args;
     r ← format_from Literal rest args;
     Return (v ++ r)).
Proof.
  revert text. induction ds as [|c ds IH]; intros text Hd.
  - cbn. now rewrite append_nil_r.
  - simpl in Hd. apply andb_true_iff in Hd as [Hc Hd].
    destruct (isdigit_not_brace c Hc) as (H1 & H2 & _).
    cbn [String.append format_from]. rewrite H1, H2.
    rewrite (IH _ Hd). now rewrite append_snoc.
Qed.

Lemma format_token (ds rest : string) (args : list string) :
  all_digits ds = true -> ds <> "" ->
  format_from Literal ("{{{" ++ ds ++ "}}}" ++ rest) args
  = emit "{" (v ← render_field ds args;
              r ← emit "}" (format_from Literal rest args);
              Return (v ++ r)).
Proof.
  intros Hd Hn. destruct ds as [|c ds]; [congruence|].
  simpl in Hd. apply andb_true_iff in Hd as [Hc Hd].
  destruct (isdigit_not_brace c Hc) as (H1 & H2 & _).
  cbn [String.append format_from Ascii.eqb Bool.eqb].
  cbn [String.append] in *. f_equal. rewrite H1, H2.
  rewrite (format_field_digits _ _ _ _ Hd). reflexivity.
Qed.

Lemma get_integer_digits (ds : string) (acc : N) :
  all_digits ds = true ->
  (digits_value acc ds <= PY_SSIZE_T_MAX)%N ->
  get_integer acc ds = Return (digits_value acc ds).
Proof.
  revert acc. induction ds as [|c ds IH]; intros acc Hd Hm; [reflexivity|].
  simpl in Hd. apply andb_true_iff in Hd as [Hc Hd].
  cbn [get_integer digits_value] in *. rewrite Hc.
  pose proof (digits_value_ge ds (acc * 10 + digit_value c)%N Hd) as Hge.
  assert (Hlt : ((PY_SSIZE_T_MAX - digit_value c) / 10 <? acc)%N = false).
  { apply N.ltb_ge. apply N.div_le_lower_bound; lia. }
  rewrite Hlt. now apply IH.
Qed.

Lemma render_field_decimal (i : nat) (t : string) (args : list string) :
  args !! i = Some t ->
  (N.of_nat (length args) <= PY_SSIZE_T_MAX + 1)%N ->
  render_field (decimal i) args = Return t.
Proof.
  intros Hi Hm. pose proof (lookup_lt_Some _ _ _ Hi) as Hlt.
  unfold render_field.
  destruct (decimal i) as [|c r] eqn:Ed;
    [now elim (decimal_not_empty i)|].
  rewrite <- Ed.
  rewrite get_integer_digits;
    [|apply decimal_digits | rewrite decimal_value; lia].
  rewrite decimal_value. cbn. unfold positional.
  replace (N.of_nat i <? N.of_nat (length args))%N with true
    by (symmetry; apply N.ltb_lt; lia).
  now rewrite Nat2N.id, Hi.
Qed.
(** *** The encoding of a parsed string decodes to its text *)

Lemma render_after_token (E : list string) (items : list item) :
  starts_with_digit (render_from E true items) = false.
Proof.
  destruct items as [|[c|t] r]; cbn; try reflexivity.
  destruct (isdigit c) eqn:Ec; cbn; [reflexivity | exact Ec].
Qed.

Lemma render_after_dollar (E : list string) (items : list item) :
  lt_free true items = true ->
  starts_with_digit (render_from E false items) = false.
Proof.
  destruct items as [|[c|t] r]; cbn; try reflexivity.
  intros H. apply andb_true_iff in H as [H _].
  now apply negb_true_iff in H.
Qed.

Lemma merge_render (items : list item) :
  forall (E F : list string) (sep : bool),
    lt_free false items = true ->
    brace_literal_free items = true ->
    F = fold_left add_expression (texts items) E ->
    (N.of_nat (length F) <= PY_SSIZE_T_MAX + 1)%N ->
    format_from Literal (sub_tokens false (render_from E sep items)) F
    = Return (unparse sep items).
Proof.
  induction items as [|[c|t] r IH]; intros E F sep Hf Hb HF Hm.
  - reflexivity.
  - cbn [render_from unparse]. cbn [lt_free brace_literal_free] in Hf, Hb.
    simpl in Hf. apply andb_true_iff in Hb as [Hc Hb].
    apply negb_true_iff, orb_false_iff in Hc as [Hc1 Hc2].
    assert (Hr : lt_free false r = true)
      by (destruct (Ascii.eqb c "$"); auto using lt_free_weaken).
    assert (Hbody :
      format_from Literal
        (sub_tokens false (String c (render_from E false r))) F
      = Return (String c (unparse false r))).
    { rewrite sub_tokens_literal.
      - rewrite (format_literal _ _ _ Hc1 Hc2).
        now rewrite (IH E F false Hr Hb HF Hm).
      - destruct (Ascii.eqb c "$"); [|reflexivity].
        cbn. now apply render_after_dollar. }
    destruct (sep && isdigit c); [|exact Hbody].
    cbn [String.append]. rewrite sub_tokens_literal by reflexivity.
    rewrite format_literal by reflexivity. now rewrite Hbody.
  - cbn [render_from unparse]. cbv zeta.
    cbn [lt_free brace_literal_free texts fold_left] in Hf, Hb, HF.
    rewrite (sub_tokens_token _ _ (render_after_token _ r)).
    rewrite (format_token _ _ _ (decimal_digits _) (decimal_not_empty _)).
    rewrite (IH _ F true Hf Hb HF Hm).
    destruct (add_expression_index E t) as [i Hi].
    assert (Hpos : position t (add_expression E t) = i)
      by (unfold position; now rewrite Hi).
    rewrite Hpos.
    rewrite (render_field_decimal i t F); [reflexivity| |exact Hm].
    destruct (fold_add_prefix (texts r) (add_expression E t)) as [rest Hp].
    rewrite HF, Hp. apply lookup_app_l_Some. now apply list_index_Some.
Qed.

(** *** Writing the items back gives the string with its separators *)

Lemma unparse_separated (s : string) :
  forall (d : nat) (cur : string) (sep : bool),
    balanced_from d s = true ->
    unparse sep (parse_from d cur s)
    = match d with
      | O => (if sep && starts_with_digit s then " " else "")
             ++ separated_from 0 s
      | S _ => "{" ++ cur ++ separated_from d s
      end.
Proof.
  induction s as [|c s IH]; intros d cur sep Hb.
  - destruct d; [|discriminate]. cbn. now rewrite andb_false_r.
  - cbn [balanced_from] in Hb. cbn [parse_from separated_from].
    destruct (Ascii.eqb_spec c "{") as [->|Ho].
    + cbn [Ascii.eqb Bool.eqb andb starts_with_digit isdigit].
      destruct d as [|d].
      * rewrite (IH 1%nat "" sep Hb). rewrite andb_false_r. reflexivity.
      * rewrite (IH (S (S d)) _ sep Hb). cbn.
        rewrite ?append_assoc; reflexivity.
    + apply Ascii.eqb_neq in Ho.
      destruct (Ascii.eqb_spec c "}") as [->|Hc].
      * destruct d as [|[|d]]; [discriminate| |].
        -- cbn [unparse]. rewrite (IH 0%nat "" true Hb). cbn.
           rewrite ?append_assoc; reflexivity.
        -- rewrite (IH (S d) _ sep Hb). cbn. rewrite ?append_assoc; reflexivity.
      * cbn [andb].
        destruct d as [|d].
        -- cbn [unparse starts_with_digit].
           rewrite (IH 0%nat "" false Hb). cbn.
           rewrite ?append_assoc; reflexivity.
        -- rewrite (IH (S d) _ sep Hb). cbn. rewrite ?append_assoc; reflexivity.
Qed.

Lemma balanced_items (s : string) :
  forall (d : nat) (cur : string),
    balanced_from d s = true ->
    brace_literal_free (parse_from d cur s) = true.
Proof.
  induction s as [|c s IH]; intros d cur Hb; [reflexivity|].
  cbn [balanced_from] in Hb. cbn [parse_from].
  destruct (Ascii.eqb c "{") eqn:Eo.
  - destruct d; now apply IH.
  - destruct (Ascii.eqb c "}") eqn:Ec.
    + destruct d as [|[|d]]; [discriminate| |]; cbn; now apply IH.
    + destruct d; cbn; [rewrite Eo, Ec; cbn|]; now apply IH.
Qed.

Lemma texts_length (s : string) :
  forall (d : nat) (cur : string),
    (length (texts (parse_from d cur s)) <= String.length s)%nat.
Proof.
  induction s as [|c s IH]; intros d cur; cbn; [lia|].
  destruct d as [|d].
  - destruct (Ascii.eqb c "{"); cbn.
    + specialize (IH 1%nat ""). lia.
    + specialize (IH 0%nat ""). lia.
  - destruct (Ascii.eqb c "{").
    + specialize (IH (S (S d)) (cur ++ "{")). lia.
    + destruct (Ascii.eqb c "}").
      * destruct d; cbn.
        -- specialize (IH 0%nat ""). lia.
        -- specialize (IH (S d) (cur ++ "}")). lia.
      * specialize (IH (S d) (cur ++ String c "")). lia.
Qed.

(** Splitting and merging a string whose braces are balanced and that
    has no literal dollar sign directly before a digit. *)
Lemma merge_split (s : string) :
  literal_token_free s = true -> merge_restores s.
Proof.
  intros Hfree Hbal Hrep. unfold balanced in Hbal.
  exists (render_from [] false (parse s)),
         (first_occurrences (expression_texts s)).
  split.
  - rewrite Split_parse, (balanced_depth s 0 Hbal). reflexivity.
  - unfold MergeLogExpressions, format.
    rewrite (merge_render (parse s) [] _ false).
    + unfold parse, separated.
      rewrite (unparse_separated s 0 "" false Hbal). reflexivity.
    + apply literal_token_free_items; [exact Hfree | discriminate].
    + now apply balanced_items.
    + reflexivity.
    + pose proof (first_occurrences_length (expression_texts s)).
      pose proof (texts_length s 0 "").
      unfold representable, expression_texts, parse in *. lia.
Qed.

End MergeFacts.

(** ** Unclosed braces and separators *)

Module BraceFacts.
Import Codec CodecSpec Aux TextFacts CodecFacts SplitFacts.

Lemma depth_from_app (a b : string) (d : nat) :
  depth_from d (a ++ b) = depth_from (depth_from d a) b.
Proof.
  revert d. induction a as [|c a IH]; intros d; cbn; [reflexivity|].
  destruct (Ascii.eqb c "{"); [apply IH|].
  destruct (Ascii.eqb c "}"); apply IH.
Qed.

Lemma cons_eq_app (c : ascii) (r p q : string) :
  String c r = p ++ q ->
  (p = "" /\ q = String c r) \/ (exists p', p = String c p' /\ r = p' ++ q).
Proof.
  destruct p as [|c' p']; cbn; intros H.
  - left. auto.
  - right. injection H as -> ->. eauto.
Qed.

(** While no closing brace is unmatched, the depth is the number of
    opening braces minus the number of closing ones. *)
Lemma depth_unclamped (s : string) :
  forall d : nat,
    (forall p q, s = p ++ q ->
       (count_char "}" p < d + count_char "{" p)%nat) ->
    (depth_from d s + count_char "}" s = d + count_char "{" s)%nat.
Proof.
  induction s as [|c s IH]; intros d H; cbn; [lia|].
  assert (Hs : forall d',
             (forall p q, s = p ++ q ->
                count_char "}" (String c p) < d + count_char "{" (String c p)
                -> count_char "}" p < d' + count_char "{" p)%nat ->
             (depth_from d' s + count_char "}" s
              = d' + count_char "{" s)%nat).
  { intros d' Hd'. apply IH. intros p q Hpq. apply (Hd' p q Hpq).
    apply (H (String c p) q). cbn. now rewrite Hpq. }
  pose proof (H (String c "") s eq_refl) as H1. cbn in H1, Hs.
  destruct (Ascii.eqb_spec c "{") as [->|Ho];
    [|destruct (Ascii.eqb_spec c "}") as [->|Hc]]; cbn in *.
  - rewrite (Hs (S d)); [lia|]. intros; lia.
  - enough (depth_from (Nat.pred d) s + count_char "}" s
            = Nat.pred d + count_char "{" s)%nat by lia.
    apply Hs. intros; lia.
  - apply Hs. intros; lia.
Qed.

Lemma open_depth (s : string) :
  forall d : nat,
    depth_from d s <> O ->
    (d <> O /\ forall p q, s = p ++ q ->
                 (count_char "}" p < d + count_char "{" p)%nat)
    \/ (exists pre post,
          s = pre ++ String "{" post /\ depth_from d pre = O
          /\ never_closed post).
Proof.
  induction s as [|c s IH]; intros d H.
  - left. cbn in H. split; [exact H|].
    intros p q Hpq. destruct p; [cbn; lia | discriminate].
  - cbn [depth_from] in H.
    destruct (Ascii.eqb_spec c "{") as [->|Ho];
      [|destruct (Ascii.eqb_spec c "}") as [->|Hc]].
    + destruct (IH (S d) H) as [[Hn Hp]|(pre & post & -> & Hpre & Hpost)].
      * destruct d as [|d].
        -- right. exists "", s. split; [reflexivity|]. split; [reflexivity|].
           intros p q Hpq. specialize (Hp p q Hpq). lia.
        -- left. split; [discriminate|]. intros p q Hpq.
           apply cons_eq_app in Hpq as [[-> _]|(p' & -> & Hpq)];
             [cbn; lia|].
           specialize (Hp p' q Hpq). cbn in *. lia.
      * right. exists (String "{" pre), post. cbn. auto.
    + destruct (IH (Nat.pred d) H)
        as [[Hn Hp]|(pre & post & -> & Hpre & Hpost)].
      * left. split; [lia|]. intros p q Hpq.
        apply cons_eq_app in Hpq as [[-> _]|(p' & -> & Hpq)];
          [cbn; lia|].
        specialize (Hp p' q Hpq). cbn in *. lia.
      * right. exists (String "}" pre), post. cbn. auto.
    + destruct (IH d H) as [[Hn Hp]|(pre & post & -> & Hpre & Hpost)].
      * left. split; [exact Hn|]. intros p q Hpq.
        apply cons_eq_app in Hpq as [[-> _]|(p' & -> & Hpq)];
          [cbn; lia|].
        specialize (Hp p' q Hpq). cbn.
        apply Ascii.eqb_neq in Ho, Hc. rewrite Ho, Hc. cbn. exact Hp.
      * right. exists (String c pre), post. cbn.
        apply Ascii.eqb_neq in Ho, Hc. rewrite Ho, Hc. auto.
Qed.

(** The depth at the end is not zero exactly when a top-level opening
    brace is never closed. *)
Lemma unclosed_depth (s : string) :
  depth_from 0 s <> O <-> unclosed_top_level s.
Proof.
  split.
  - intros H. destruct (open_depth s 0 H) as [[Hn _]|H']; [congruence|].
    exact H'.
  - intros (pre & post & -> & Hpre & Hpost).
    rewrite depth_from_app, Hpre. cbn.
    assert (Hp : forall p q, post = p ++ q ->
                   (count_char "}" p < 1 + count_char "{" p)%nat).
    { intros p q Hpq. specialize (Hpost p q Hpq). lia. }
    pose proof (depth_unclamped post 1 Hp) as Hd.
    pose proof (Hpost post "" (eq_sym (append_nil_r post))). lia.
Qed.

Lemma Split_raises (s : string) :
  SplitLogExpressions s = Raise (ValueError UnbalancedLeftBrace)
  <-> unclosed_top_level s.
Proof.
  rewrite <- unclosed_depth, Split_parse.
  destruct (Nat.eqb_spec (depth_from 0 s) 0) as [E|E];
    split; intros H; try congruence; try discriminate.
Qed.

Lemma Split_returns (s : string) :
  ~ unclosed_top_level s ->
  SplitLogExpressions s
  = Return (render_from [] false (parse s),
            first_occurrences (expression_texts s)).
Proof.
  rewrite <- unclosed_depth, Split_parse. intros H.
  destruct (Nat.eqb_spec (depth_from 0 s) 0) as [E|E];
    [reflexivity | contradiction].
Qed.

(** *** The separator flag *)






(** A closing brace at depth 0 is written to the output as it is. *)
Lemma stray_close (pre : string) :
  depth_from 0 pre = O ->
  log_format (run initial (pre ++ "}")) = log_format (run initial pre) ++ "}"
  /\ expressions (run initial (pre ++ "}")) = expressions (run initial pre)
  /\ brace_count (run initial (pre ++ "}")) = 0%Z.
Proof.
  intros Hd. rewrite run_app. cbn [run].
  pose proof (run_count pre initial 0 eq_refl) as Hc. rewrite Hd in Hc.
  destruct (run initial pre) as [E lf cur bc sep].
  cbn [brace_count need_separator log_format expressions] in *. rewrite Hc.
  rewrite (step_spec E lf cur 0 sep "}" ltac:(reflexivity)). cbn.
  rewrite andb_false_r. auto.
Qed.

End BraceFacts.

(** ** When [MergeLogExpressions] raises *)

Module FailureFacts.
Import CodecSpec Aux TextFacts Format MergeFacts.

Lemma raises_emit (c : ascii) (o : outcome string) :
  raises o -> raises (emit c o).
Proof. intros [e ->]. now exists e. Qed.

Lemma raises_bind {A B} (o : outcome A) (k : A -> outcome B) :
  raises o -> raises (o ≫= k).
Proof. intros [e ->]. now exists e. Qed.

Lemma get_integer_cases (ds : string) (acc : N) :
  all_digits ds = true ->
  get_integer acc ds = Return (digits_value acc ds)
  \/ get_integer acc ds = Raise (ValueError TooManyDigits).
Proof.
  revert acc. induction ds as [|c ds IH]; intros acc Hd; cbn; [now left|].
  simpl in Hd. apply andb_true_iff in Hd as [Hc Hd]. rewrite Hc.
  destruct (_ <? _)%N; [now right | now apply IH].
Qed.

(** A field of digits selects an argument or raises. *)
Lemma render_field_definite (text : string) (args : list string) :
  all_digits text = true -> text <> "" ->
  (exists v, render_field text args = Return v)
  \/ raises (render_field text args).
Proof.
  intros Hd Hn. unfold render_field.
  destruct text as [|c r] eqn:Et; [congruence|]. rewrite <- Et in *.
  destruct (get_integer_cases text 0 Hd) as [-> | ->]; cbn.
  - unfold positional.
    destruct (_ <? _)%N; [|right; now eexists].
    destruct (args !! _); [left | right]; now eexists.
  - right. now eexists.
Qed.

Lemma render_field_out_of_range (text : string) (args : list string) :
  all_digits text = true -> text <> "" ->
  (length args <= N.to_nat (digits_value 0 text))%nat ->
  raises (render_field text args).
Proof.
  intros Hd Hn Hr. unfold render_field.
  destruct text as [|c r] eqn:Et; [congruence|]. rewrite <- Et in *.
  destruct (get_integer_cases text 0 Hd) as [-> | ->]; cbn.
  - unfold positional.
    replace (_ <? _)%N with false by (symmetry; apply N.ltb_ge; lia).
    now eexists.
  - now eexists.
Qed.

(** *** Formats without an opening brace *)

Lemma q_of_step (text : string) (c : ascii) :
  isdigit c = true ->
  tok_step (q_of text) c = (q_of (text ++ String c ""), []).
Proof.
  intros Hc. destruct text as [|c' r]; cbn [q_of tok_step]; rewrite Hc.
  - cbn. now rewrite N.add_0_l.
  - destruct (String c' r ++ String c "") eqn:E; [discriminate|].
    cbn [q_of]. rewrite <- E. rewrite digits_value_app. reflexivity.
Qed.

Lemma tokens_from_Dollar (fmt : string) :
  starts_with_digit fmt = false ->
  tokens_from Dollar fmt = tokens_from Outside fmt.
Proof.
  destruct fmt as [|c r]; cbn; [reflexivity|]. intros ->. reflexivity.
Qed.

Lemma sub_tokens_true_other (fmt : string) :
  starts_with_digit fmt = false ->
  sub_tokens true fmt = "}}}" ++ sub_tokens false fmt.
Proof. exact (sub_tokens_digits "" fmt eq_refl). Qed.

Lemma format_field_close (text rest : string) (args : list string) :
  format_from (Field 1 text) ("}}}" ++ rest) args
  = (v ← render_field text args;
     r ← emit "}" (format_from Literal rest args);
     Return (v ++ r)).
Proof. reflexivity. Qed.

Lemma format_token_start (r : string) (args : list string) :
  starts_with_digit r = true ->
  format_from Literal (sub_tokens false (String "$" r)) args
  = emit "{" (format_from (Field 1 "") (sub_tokens true r) args).
Proof.
  intros Hr. cbn [sub_tokens]. rewrite Hr. cbn.
  destruct r as [|c r]; [discriminate|]. cbn in Hr. cbn [sub_tokens].
  rewrite Hr. cbn.
  destruct (isdigit_not_brace c Hr) as (H1 & H2 & _). rewrite H1.
  reflexivity.
Qed.

Lemma no_open_tail (c : ascii) (r : string) :
  count_char "{" (String c r) = O ->
  Ascii.eqb c "{" = false /\ count_char "{" r = O.
Proof.
  cbn. destruct (Ascii.eqb c "{"); [discriminate|]. auto.
Qed.

Lemma failing_format (n : nat) :
  forall (fmt : string) (args : list string),
    (String.length fmt <= n)%nat ->
    count_char "{" fmt = O ->
    (close_braces_paired fmt = false \/ bad Outside fmt args ->
     raises (format_from Literal (sub_tokens false fmt) args))
    /\ (forall text,
          all_digits text = true ->
          text <> "" \/ starts_with_digit fmt = true ->
          close_braces_paired fmt = false \/ bad (q_of text) fmt args ->
          raises (format_from (Field 1 text) (sub_tokens true fmt) args)).
Proof.
  induction n as [|n IH]; intros fmt args Hlen Hopen.
  - destruct fmt; [|cbn in Hlen; lia]. split.
    + intros [H|(i & [] & _)]. discriminate.
    + intros text Hd [Ht|Hs] Hbad; [|discriminate].
      cbn [sub_tokens]. rewrite (format_field_close text "").
      apply raises_bind.
      destruct Hbad as [H|(i & Hi & Hr)]; [discriminate|].
      destruct text as [|c r]; [congruence|]. cbn in Hi.
      destruct Hi as [<-|[]].
      now apply render_field_out_of_range.
  - assert (HP : close_braces_paired fmt = false \/ bad Outside fmt args ->
                 raises (format_from Literal (sub_tokens false fmt) args)).
    { destruct fmt as [|c r]; [intros [H|(i & [] & _)]; discriminate|].
      cbn in Hlen. apply no_open_tail in Hopen as [Ho Hopen].
      intros Hbad.
      destruct (Ascii.eqb_spec c "}") as [->|Hc].
      - (* a closing brace *)
        destruct r as [|c' r']; [now eexists|].
        destruct (Ascii.eqb_spec c' "}") as [->|Hc'].
        + cbn. apply raises_emit.
          apply no_open_tail in Hopen as [_ Hopen].
          apply (IH r' args); [cbn in Hlen; lia | exact Hopen |].
          exact Hbad.
        + cbn [sub_tokens andb]. cbn [Ascii.eqb Bool.eqb andb].
          cbn [String.append].
          destruct (Ascii.eqb c' "$" && starts_with_digit r'); cbn.
          * now eexists.
          * apply Ascii.eqb_neq in Hc'. rewrite Hc'. now eexists.
      - apply Ascii.eqb_neq in Hc.
        destruct (Ascii.eqb_spec c "$") as [->|Hd].
        + destruct (starts_with_digit r) eqn:Hr.
          * rewrite (format_token_start r args Hr). apply raises_emit.
            apply (IH r args); [lia | exact Hopen | reflexivity | now right |].
            destruct Hbad as [H|H]; [left; exact H | right; exact H].
          * rewrite sub_tokens_literal by (cbn; exact Hr).
            rewrite format_literal by reflexivity. apply raises_emit.
            apply (IH r args); [lia | exact Hopen |].
            destruct Hbad as [H|H]; [left; exact H | right].
            unfold bad in *. cbn in H.
            now rewrite (tokens_from_Dollar r Hr) in H.
        + apply Ascii.eqb_neq in Hd.
          rewrite sub_tokens_literal by (now rewrite Hd).
          rewrite (format_literal _ _ _ Ho Hc). apply raises_emit.
          apply (IH r args); [lia | exact Hopen |].
          destruct Hbad as [H|H]; [left | right].
          * cbn in H. now rewrite Hc in H.
          * unfold bad in *. cbn in H. now rewrite Hd in H. }
    split; [exact HP|].
    intros text Hd Htext Hbad.
    destruct fmt as [|c r].
    + destruct Htext as [Ht|Hs]; [|discriminate].
      cbn [sub_tokens]. rewrite (format_field_close text "").
      apply raises_bind.
      destruct Hbad as [H|(i & Hi & Hr)]; [discriminate|].
      destruct text as [|c r]; [congruence|]. cbn in Hi.
      destruct Hi as [<-|[]].
      now apply render_field_out_of_range.
    + cbn in Hlen. pose proof Hopen as Hopen'.
      apply no_open_tail in Hopen' as [Ho Hopen'].
      destruct (isdigit c) eqn:Ec.
      * (* one more digit of the token *)
        cbn [sub_tokens andb]. rewrite Ec.
        destruct (isdigit_not_brace c Ec) as (_ & H2 & _).
        cbn [format_from]. rewrite Ho, H2.
        apply (IH r args); [lia | exact Hopen' | | |].
        -- rewrite all_digits_app, Hd. cbn. now rewrite Ec.
        -- left. destruct text; discriminate.
        -- destruct Hbad as [H|H]; [left | right].
           ++ cbn in H. now rewrite H2 in H.
           ++ unfold bad in *. cbn [tokens_from] in H.
              now rewrite (q_of_step text c Ec) in H.
      * (* the token ends *)
        destruct Htext as [Ht|Hs]; [|cbn in Hs; congruence].
        rewrite sub_tokens_true_other by exact Ec.
        rewrite format_field_close.
        destruct Hbad as [H|(i & Hi & Hr)].
        -- destruct (render_field_definite text args Hd Ht) as [[v ->]|Hv];
             [|now apply raises_bind].
           cbn. apply raises_bind, raises_emit, HP. now left.
        -- destruct text as [|c0 r0] eqn:Et; [congruence|].
           rewrite <- Et in *.
           assert (q_of text = Digits (digits_value 0 text)) as Hq
             by (rewrite Et; reflexivity).
           rewrite Hq in Hi. cbn [tokens_from tok_step] in Hi.
           rewrite Ec in Hi.
           assert (Hi' : i = N.to_nat (digits_value 0 text)
                         \/ In i (tokens_from Outside (String c r))).
           { cbn [tokens_from tok_step].
             destruct (Ascii.eqb c "$"); cbn in Hi |- *;
               (destruct Hi as [Hi|Hi];
                [left; now symmetry | right; exact Hi]). }
           destruct Hi' as [->|Hi'].
           ++ apply raises_bind.
              now apply render_field_out_of_range.
           ++ destruct (render_field_definite text args Hd Ht)
                as [[v ->]|Hv]; [|now apply raises_bind].
              cbn. apply raises_bind, raises_emit, HP. right.
              now exists i.
Qed.

Lemma merge_raises_no_open (fmt : string) (exprs : list string) :
  count_char "{" fmt = O ->
  close_braces_paired fmt = false \/ token_out_of_range fmt exprs ->
  raises (MergeLogExpressions fmt exprs).
Proof.
  intros Ho Hbad.
  exact (proj1 (failing_format _ fmt exprs (le_n _) Ho) Hbad).
Qed.

(** *** Formats with a single opening brace *)

Lemma brace_free_tail (c : ascii) (r : string) :
  brace_free (String c r) ->
  Ascii.eqb c "{" = false /\ Ascii.eqb c "}" = false /\ brace_free r.
Proof.
  unfold brace_free. cbn.
  destruct (Ascii.eqb c "{"), (Ascii.eqb c "}"); intros [H1 H2];
    try discriminate. auto.
Qed.

(** Inside a field, text without braces never closes the field. *)
Lemma field_never_closes (post : string) (args : list string) :
  brace_free post ->
  (forall k text,
     format_from (Field (S k) text) (sub_tokens false post) args
     = Raise (ValueError UnmatchedOpenBrace))
  /\ (forall k text,
       format_from (Field (S (S (S (S k)))) text) (sub_tokens true post) args
       = Raise (ValueError UnmatchedOpenBrace)).
Proof.
  induction post as [|c r IH]; intros Hf.
  - split; intros k text; reflexivity.
  - apply brace_free_tail in Hf as (H1 & H2 & Hf).
    destruct (IH Hf) as [IHF IHT].
    assert (HF : forall k text,
               format_from (Field (S k) text)
                 (sub_tokens false (String c r)) args
               = Raise (ValueError UnmatchedOpenBrace)).
    { intros k text. cbn [sub_tokens].
      destruct (Ascii.eqb c "$" && starts_with_digit r); cbn.
      - apply IHT.
      - rewrite H1, H2. apply IHF. }
    split; [exact HF|]. intros k text.
    destruct (isdigit c) eqn:Ec.
    + cbn [sub_tokens andb]. rewrite Ec. cbn [format_from].
      rewrite H1, H2. apply IHT.
    + rewrite sub_tokens_true_other by exact Ec. cbn. apply HF.
Qed.

Lemma literal_after_digits (r : string) (args : list string) :
  brace_free r -> raises (format_from Literal (sub_tokens true r) args).
Proof.
  induction r as [|c r IH]; intros Hf.
  - cbn. now eexists.
  - apply brace_free_tail in Hf as (H1 & H2 & Hf).
    destruct (isdigit c) eqn:Ec.
    + cbn [sub_tokens andb]. rewrite Ec.
      rewrite (format_literal _ _ _ H1 H2). apply raises_emit. now apply IH.
    + rewrite sub_tokens_true_other by exact Ec. cbn [sub_tokens].
      destruct (Ascii.eqb c "$" && starts_with_digit r); cbn;
        [|rewrite H2]; now eexists.
Qed.

Lemma lone_open_raises (post : string) (args : list string) :
  brace_free post ->
  raises (format_from Literal (sub_tokens false (String "{" post)) args).
Proof.
  intros Hf. cbn [sub_tokens andb Ascii.eqb Bool.eqb]. cbn [String.append].
  destruct post as [|c r]; [cbn; now eexists|].
  pose proof Hf as Hf'. apply brace_free_tail in Hf' as (H1 & H2 & Hr).
  cbn [sub_tokens].
  destruct (Ascii.eqb c "$" && starts_with_digit r) eqn:Et.
  - cbn. apply raises_emit, raises_emit. now apply literal_after_digits.
  - cbn. rewrite H1, H2.
    rewrite (proj1 (field_never_closes r args Hr) 0%nat). now eexists.
Qed.

Lemma starts_with_digit_before_open (r post : string) :
  starts_with_digit (r ++ String "{" post) = starts_with_digit r.
Proof. destruct r; reflexivity. Qed.

Lemma before_lone_open (pre post : string) (args : list string) :
  brace_free pre -> brace_free post ->
  raises (format_from Literal
            (sub_tokens false (pre ++ String "{" post)) args)
  /\ (forall text,
       all_digits text = true ->
       text <> "" \/ starts_with_digit pre = true ->
       raises (format_from (Field 1 text)
                 (sub_tokens true (pre ++ String "{" post)) args)).
Proof.
  intros Hpre Hpost. induction pre as [|c r IH].
  - split; [now apply lone_open_raises|].
    intros text Hd [Ht|Hs]; [|discriminate].
    cbn [String.append]. rewrite sub_tokens_true_other by reflexivity.
    rewrite format_field_close.
    destruct (render_field_definite text args Hd Ht) as [[v ->]|Hv];
      [|now apply raises_bind].
    cbn. apply raises_bind, raises_emit. now apply lone_open_raises.
  - apply brace_free_tail in Hpre as (H1 & H2 & Hr).
    destruct (IH Hr) as [IHP IHQ]. cbn [String.append].
    assert (HP : raises (format_from Literal
                   (sub_tokens false (String c (r ++ String "{" post)))
                   args)).
    { destruct (Ascii.eqb_spec c "$") as [->|Hc].
      - destruct (starts_with_digit r) eqn:Es.
        + rewrite format_token_start
            by (now rewrite starts_with_digit_before_open).
          apply raises_emit. apply IHQ; [reflexivity | now right].
        + rewrite sub_tokens_literal
            by (cbn; now rewrite starts_with_digit_before_open).
          rewrite format_literal by reflexivity. now apply raises_emit.
      - apply Ascii.eqb_neq in Hc.
        rewrite sub_tokens_literal by (now rewrite Hc).
        rewrite (format_literal _ _ _ H1 H2). now apply raises_emit. }
    split; [exact HP|]. intros text Hd Htext.
    destruct (isdigit c) eqn:Ec.
    + cbn [sub_tokens andb]. rewrite Ec. cbn [format_from].
      rewrite H1, H2. apply IHQ.
      * rewrite all_digits_app, Hd. cbn. now rewrite Ec.
      * left. destruct text; discriminate.
    + destruct Htext as [Ht|Hs]; [|cbn in Hs; congruence].
      rewrite sub_tokens_true_other by exact Ec.
      rewrite format_field_close.
      destruct (render_field_definite text args Hd Ht) as [[v ->]|Hv];
        [|now apply raises_bind].
      cbn. now apply raises_bind, raises_emit.
Qed.

Lemma merge_raises_lone_open (pre post : string) (exprs : list string) :
  brace_free pre -> brace_free post ->
  raises (MergeLogExpressions (pre ++ String "{" post) exprs).
Proof.
  intros Hpre Hpost. exact (proj1 (before_lone_open pre post exprs Hpre Hpost)).
Qed.

End FailureFacts.

(** ** The resolver *)

Module ResolverFacts.
Import Resolver ResolverSpec Aux.

Lemma DefaultDebuggee_blank (ds : list Debuggee) :
  DefaultDebuggee (Return ds) = ResolveDefault blank ds.
Proof.
  unfold DefaultDebuggee, ResolveDefault, blank.
  destruct ds as [|d1 [|d2 r]]; cbn [mbind outcome_mbind outcome_bind];
    try reflexivity.
  cbn [first_verdict]. unfold try_latest at 1.
  destruct (_FindLatestMinorVersion (d1 :: d2 :: r)) as [[d|]|e|];
    cbn [mbind outcome_mbind outcome_bind]; try reflexivity.
  unfold unique_or_ambiguous at 1.
  destruct (List.filter _ (d1 :: d2 :: r)) as [|m1 [|m2 ms]] eqn:Em;
    try reflexivity.
  unfold try_latest at 1.
  destruct (_FindLatestMinorVersion (m1 :: m2 :: ms)) as [[d|]|e|];
    cbn [mbind outcome_mbind outcome_bind]; try reflexivity.
  unfold unique_or_ambiguous at 1.
  destruct (List.filter _ (m1 :: m2 :: ms)) as [|v1 [|v2 vs]] eqn:Ev;
    try reflexivity.
  unfold try_latest.
  destruct (_FindLatestMinorVersion (v1 :: v2 :: vs)) as [[d|]|e|];
    reflexivity.
Qed.

Lemma FindDebuggee_Resolve `{RegexEngine} (ds : list Debuggee)
    (pattern : string) :
  pattern <> "" ->
  FindDebuggee (Return ds) (Some pattern) = Resolve ds pattern.
Proof.
  intros Hp. unfold FindDebuggee, Resolve.
  assert (truthy (Some pattern) = true) as ->
    by (cbn; now apply negb_true_iff, String.eqb_neq).
  cbn [negb default mbind outcome_mbind outcome_bind id].
  destruct (re_compile pattern) as [re|]; [|reflexivity].
  destruct (List.filter _ ds) as [|c1 [|c2 cs]] eqn:Ec.
  - destruct (List.filter _ ds) as [|c1 [|c2 cs]]; try reflexivity;
      destruct (_FindLatestMinorVersion _) as [[d|]|e|]; reflexivity.
  - reflexivity.
  - destruct (_FindLatestMinorVersion _) as [[d|]|e|]; reflexivity.
Qed.

(** *** [_FindLatestMinorVersion] *)

Lemma truthy_Some (o : option string) :
  truthy o = true -> exists l, o = Some l /\ l <> "".
Proof.
  destruct o as [l|]; [|discriminate]. cbn. intros H.
  exists l. split; [reflexivity|].
  now apply negb_true_iff, String.eqb_neq in H.
Qed.

Lemma name_not_empty (d : Debuggee) :
  truthy (minorversion d) = true -> name d <> "".
Proof.
  intros H. unfold name. rewrite H, !orb_true_r.
  unfold or_default, DEFAULT_MODULE.
  destruct (module d) as [m|]; [|discriminate].
  destruct (String.eqb_spec m "") as [->|Hm]; [discriminate|].
  destruct m; [congruence | discriminate].
Qed.

Lemma versioned_value (ds : list Debuggee) (d : Debuggee) :
  numeric_labels ds -> In d ds -> truthy (minorversion d) = true ->
  exists l v, labels d !! "minorversion" = Some l
              /\ Py.int l = Return v /\ minor_value d = Some v.
Proof.
  intros Hn Hd Ht. destruct (truthy_Some _ Ht) as (l & Hl & Hne).
  destruct (Hn d l Hd Hl Hne) as [v Hv].
  exists l, v. unfold minor_value. rewrite Hl, Hv. auto.
Qed.

Lemma loop_step (best : option Debuggee) (bv : option Z) (n : string)
    (d : Debuggee) (rest : list Debuggee) (l : string) (v : Z) :
  n <> "" -> String.eqb n (name d) = true ->
  labels d !! "minorversion" = Some l -> l <> "" ->
  Py.int l = Return v ->
  latest_loop best bv (Some n) (d :: rest)
  = if improves bv v then latest_loop (Some d) (Some v) (Some n) rest
    else latest_loop best bv (Some n) rest.
Proof.
  intros Hn Hname Hl Hne Hv. cbn [latest_loop].
  assert (truthy (Some n) = true) as ->
    by (cbn; now apply negb_true_iff, String.eqb_neq).
  change (default "" (Some n)) with n.
  cbn [negb]. rewrite Hname. cbn [negb]. rewrite Hl.
  assert (truthy (Some l) = true) as ->
    by (cbn; now apply negb_true_iff, String.eqb_neq).
  change (default "" (Some l)) with l.
  cbn [negb]. rewrite Hv. reflexivity.
Qed.

Lemma loop_uniform (rest : list Debuggee) :
  forall (b0 : Debuggee) (v0 : Z) (n : string),
    n <> "" -> uniformb n rest = true -> numeric_labels rest ->
    (0 <= v0 /\ forall d v, In d rest -> minor_value d = Some v -> 0 <= v)%Z
    \/ (v0 <> 0 /\ forall d v, In d rest -> minor_value d = Some v -> v <> 0)%Z ->
    exists b v,
      latest_loop (Some b0) (Some v0) (Some n) rest = Return (Some b)
      /\ (b = b0 /\ v = v0 \/ In b rest /\ minor_value b = Some v)
      /\ (v0 <= v)%Z
      /\ forall d' v', In d' rest -> minor_value d' = Some v' -> (v' <= v)%Z.
Proof.
  induction rest as [|d rest IH]; intros b0 v0 n Hn Hu Hnum Hsign.
  - exists b0, v0. cbn. split; [reflexivity|]. split; [now left|].
    split; [lia | tauto].
  - cbn in Hu. apply andb_true_iff in Hu as [Hd Hu].
    apply andb_true_iff in Hd as [Hname Ht].
    destruct (versioned_value (d :: rest) d Hnum (or_introl eq_refl) Ht)
      as (l & v & Hl & Hv & Hmv).
    assert (Hne : l <> "").
    { destruct (truthy_Some _ Ht) as (l' & Hl' & Hne).
      unfold minorversion in Hl'. congruence. }
    rewrite (loop_step _ _ n d rest l v Hn Hname Hl Hne Hv).
    assert (Hnum' : numeric_labels rest).
    { intros d' l' Hd'. apply Hnum. now right. }
    assert (Hsign_d : (0 <= v0 /\ 0 <= v \/ v0 <> 0 /\ v <> 0)%Z).
    { destruct Hsign as [[H0 H]|[H0 H]]; [left | right];
        (split; [exact H0 | apply (H d v); [now left | exact Hmv]]). }
    cbn [improves].
    destruct ((v0 =? 0)%Z || (v0 <? v)%Z) eqn:Ei.
    + (* the new debuggee becomes the best one *)
      assert (Hle : (v0 <= v)%Z).
      { apply orb_true_iff in Ei as [E|E];
          [apply Z.eqb_eq in E | apply Z.ltb_lt in E]; lia. }
      destruct (IH d v n Hn Hu Hnum') as (b & w & Hr & Hb & Hw & Hmax).
      { destruct Hsign as [[H0 H]|[H0 H]]; [left | right].
        - split; [lia|]. intros d' v' Hd'. apply H. now right.
        - split; [lia|]. intros d' v' Hd'. apply H. now right. }
      exists b, w. split; [exact Hr|]. split; [|split; [lia|]].
      * right. destruct Hb as [[-> ->]|[Hb Hbv]];
          [split; [now left | exact Hmv] | split; [now right | exact Hbv]].
      * intros d' v' [<-|Hd'] Hv'; [|now apply (Hmax d')].
        rewrite Hmv in Hv'. injection Hv' as <-. exact Hw.
    + (* the best one stays *)
      apply orb_false_iff in Ei as [E1 E2].
      apply Z.eqb_neq in E1. apply Z.ltb_ge in E2.
      destruct (IH b0 v0 n Hn Hu Hnum') as (b & w & Hr & Hb & Hw & Hmax).
      { destruct Hsign as [[H0 H]|[H0 H]]; [left | right].
        - split; [lia|]. intros d' v' Hd'. apply H. now right.
        - split; [lia|]. intros d' v' Hd'. apply H. now right. }
      exists b, w. split; [exact Hr|]. split; [|split; [lia|]].
      * destruct Hb as [Hb|[Hb Hbv]]; [now left | right].
        split; [now right | exact Hbv].
      * intros d' v' [<-|Hd'] Hv'; [|now apply (Hmax d')].
        rewrite Hmv in Hv'. injection Hv' as <-. lia.
Qed.

Lemma loop_not_uniform (rest : list Debuggee) :
  forall (best : option Debuggee) (bv : option Z) (n : string),
    n <> "" -> uniformb n rest = false -> numeric_labels rest ->
    latest_loop best bv (Some n) rest = Return None.
Proof.
  induction rest as [|d rest IH]; intros best bv n Hn Hu Hnum;
    [discriminate|].
  cbn in Hu.
  assert (Hnum' : numeric_labels rest).
  { intros d' l' Hd'. apply Hnum. now right. }
  destruct (String.eqb n (name d)) eqn:Hname.
  - destruct (truthy (minorversion d)) eqn:Ht.
    + destruct (versioned_value (d :: rest) d Hnum (or_introl eq_refl) Ht)
        as (l & v & Hl & Hv & Hmv).
      assert (Hne : l <> "").
      { destruct (truthy_Some _ Ht) as (l' & Hl' & Hne).
        unfold minorversion in Hl'. congruence. }
      rewrite (loop_step _ _ n d rest l v Hn Hname Hl Hne Hv).
      cbn in Hu. destruct (improves bv v); now apply IH.
    + cbn [latest_loop].
      assert (truthy (Some n) = true) as ->
        by (cbn; now apply negb_true_iff, String.eqb_neq).
      change (default "" (Some n)) with n.
      cbn [negb]. rewrite Hname. cbn [negb].
      unfold minorversion in Ht. now rewrite Ht.
  - cbn [latest_loop].
    assert (truthy (Some n) = true) as ->
      by (cbn; now apply negb_true_iff, String.eqb_neq).
    change (default "" (Some n)) with n.
    cbn [negb]. now rewrite Hname.
Qed.

Lemma uniform_iff (d0 : Debuggee) (rest : list Debuggee) :
  same_name (d0 :: rest) /\ all_versioned (d0 :: rest)
  <-> truthy (minorversion d0) = true
      /\ uniformb (name d0) rest = true.
Proof.
  unfold same_name, all_versioned, uniformb.
  rewrite forallb_forall. split.
  - intros [Hs Ha]. split; [apply Ha; now left|].
    intros d Hd. apply andb_true_iff. split.
    + apply String.eqb_eq. apply Hs; [now left | now right].
    + apply Ha. now right.
  - intros [Ht Hu].
    assert (Hname : forall d, In d (d0 :: rest) -> name d = name d0).
    { intros d [<-|Hd]; [reflexivity|].
      specialize (Hu d Hd). apply andb_true_iff in Hu as [Hu _].
      symmetry. now apply String.eqb_eq. }
    split.
    + intros d d' Hd Hd'. now rewrite (Hname d Hd), (Hname d' Hd').
    + intros d [<-|Hd]; [exact Ht|].
      specialize (Hu d Hd). now apply andb_true_iff in Hu as [_ Hu].
Qed.

Lemma latest_uniform (ds : list Debuggee) :
  ds <> [] -> numeric_labels ds -> sign_uniform ds ->
  latest_iff_uniform ds.
Proof.
  intros Hne Hnum Hsign. destruct ds as [|d0 rest]; [congruence|].
  assert (Hnum' : numeric_labels rest).
  { intros d' l' Hd'. apply Hnum. now right. }
  unfold latest_iff_uniform. rewrite uniform_iff.
  cbn [_FindLatestMinorVersion].
  destruct (truthy (minorversion d0)) eqn:Ht.
  - destruct (versioned_value (d0 :: rest) d0 Hnum (or_introl eq_refl) Ht)
      as (l & v0 & Hl & Hv & Hmv).
    assert (Hn0 := name_not_empty d0 Ht).
    assert (Hstart : latest_loop None None None (d0 :: rest)
                     = latest_loop (Some d0) (Some v0) (Some (name d0)) rest).
    { cbn [latest_loop truthy negb]. rewrite Hl.
      assert (truthy (Some l) = true) as ->
        by (unfold minorversion in Ht; now rewrite Hl in Ht).
      change (default "" (Some l)) with l.
      cbn [negb]. rewrite Hv. reflexivity. }
    rewrite Hstart.
    destruct (uniformb (name d0) rest) eqn:Hu.
    + destruct (loop_uniform rest d0 v0 (name d0) Hn0 Hu Hnum')
        as (b & w & Hr & Hb & Hw & Hmax).
      { destruct Hsign as [H|H]; [left | right].
        - split; [apply (H d0 v0); [now left | exact Hmv]|].
          intros d' v' Hd'. apply H. now right.
        - split; [apply (H d0 v0); [now left | exact Hmv]|].
          intros d' v' Hd'. apply H. now right. }
      split; [|intros H; elim H; auto].
      split; [auto|]. intros _. exists b. split; [exact Hr|].
      split; [destruct Hb as [[-> _]|[Hb _]]; [now left | now right]|].
      exists w. split; [destruct Hb as [[-> ->]|[_ Hb]]; assumption|].
      intros d' v' [<-|Hd'] Hv'; [|now apply (Hmax d')].
      rewrite Hmv in Hv'. injection Hv' as <-. exact Hw.
    + rewrite (loop_not_uniform rest _ _ _ Hn0 Hu Hnum').
      split; [|reflexivity]. split.
      * intros (d & Hd & _). discriminate.
      * intros [_ H]. discriminate.
  - assert (Hnone : latest_loop None None None (d0 :: rest) = Return None).
    { cbn [latest_loop truthy negb]. unfold minorversion in Ht.
      now rewrite Ht. }
    rewrite Hnone. split; [|reflexivity]. split.
    + intros (d & Hd & _). discriminate.
    + intros [H _]. discriminate.
Qed.

End ResolverFacts.

(** ** Breakpoints *)

Module BreakpointFacts.
Import Breakpoints BreakpointSpec CodecSpec Aux.

(** *** Decoration *)

Lemma AddTargetInfo_Dict (self : Debuggee) (d : MessageDict) :
  raises (AddTargetInfo self (Dict d)).
Proof.
  unfold AddTargetInfo, new_MessageDict, call_all_fields, getattr.
  destruct (items d !! "all_fields") as [v|].
  - now eexists.
  - destruct (hidden_fields d !! "all_fields") as [v|]; now eexists.
Qed.

Lemma getattr_fill_other (fields : list (string * value)) :
  forall (d : MessageDict) (k : string),
    ~ In k (keys fields) -> getattr (fill d fields) k = getattr d k.
Proof.
  induction fields as [|[f v] fields IH]; intros d k Hk; [reflexivity|].
  cbn in Hk. cbn [fill fold_left].
  change (fold_left _ fields ?x) with (fill x fields).
  rewrite IH by tauto.
  assert (f <> k) by tauto.
  unfold getattr. destruct (falsy v); cbn.
  - now rewrite lookup_insert_ne.
  - now rewrite lookup_insert_ne.
Qed.

Lemma getattr_fill (fields : list (string * value)) :
  forall (d : MessageDict) (k : string) (v : value),
    NoDup (keys fields) ->
    (forall k', In k' (keys fields) -> items d !! k' = None) ->
    assoc k fields = Some v ->
    getattr (fill d fields) k = Return v.
Proof.
  induction fields as [|[f w] fields IH]; intros d k v Hnd Hd Hk;
    [discriminate|].
  cbn in Hk, Hnd. apply NoDup_cons in Hnd as [Hf Hnd].
  cbn [fill fold_left].
  change (fold_left _ fields ?x) with (fill x fields).
  destruct (String.eqb_spec k f) as [->|Hne].
  - injection Hk as ->.
    rewrite getattr_fill_other
      by (intros Hin; apply Hf; now apply list_elem_of_In).
    unfold getattr. destruct (falsy v); cbn.
    + rewrite (Hd f) by now left. now rewrite lookup_insert_eq.
    + now rewrite lookup_insert_eq.
  - apply IH; [exact Hnd | | exact Hk].
    intros k' Hk'.
    assert (f <> k').
    { intros ->. apply Hf. now apply list_elem_of_In. }
    destruct (falsy w); cbn; [|rewrite lookup_insert_ne by assumption];
      apply Hd; now right.
Qed.

Lemma new_MessageDict_Message (self : Debuggee) (b : Breakpoint) :
  new_MessageDict (Message b) (hidden_of self) = Return (wrapped self b).
Proof. reflexivity. Qed.

Lemma all_fields_keys (b : Breakpoint) :
  keys (all_fields b)
  = ["action"; "condition"; "expressions"; "id"; "isFinalState";
     "location"; "logLevel"; "logMessageFormat"; "userEmail"].
Proof. reflexivity. Qed.

Lemma wrapped_hidden (self : Debuggee) (b : Breakpoint) (k : string)
    (v : value) :
  ~ In k (keys (all_fields b)) -> hidden_of self !! k = Some v ->
  getattr (wrapped self b) k = Return v.
Proof.
  intros Hk Hv. unfold wrapped. rewrite getattr_fill_other by exact Hk.
  unfold getattr. cbn [items hidden_fields]. now rewrite lookup_empty, Hv.
Qed.

Lemma wrapped_field (self : Debuggee) (b : Breakpoint) (k : string)
    (v : value) :
  assoc k (all_fields b) = Some v -> getattr (wrapped self b) k = Return v.
Proof.
  intros Hk. unfold wrapped. apply getattr_fill; [| |exact Hk].
  - rewrite all_fields_keys. apply NoDup_ListNoDup.
    repeat (constructor; [cbn; intuition discriminate|]). constructor.
  - intros k' _. apply lookup_empty.
Qed.

Lemma DebugViewUrl_wrapped (self : Debuggee) (b : Breakpoint) :
  exists url, DebugViewUrl (wrapped self b) = Return url.
Proof.
  unfold DebugViewUrl.
  rewrite (wrapped_hidden self b "project_number"
             (VInt (project_number self)));
    [|rewrite all_fields_keys; cbn; intuition discriminate | reflexivity].
  rewrite (wrapped_hidden self b "target_uniquifier"
             (VStr (target_uniquifier self)));
    [|rewrite all_fields_keys; cbn; intuition discriminate | reflexivity].
  rewrite (wrapped_field self b "id" (VStr (id b)) eq_refl).
  rewrite (wrapped_field self b "location"
             (of_option VLocation (location b)) eq_refl).
  cbn [mbind outcome_mbind outcome_bind].
  destruct (location b) as [l|]; cbn [of_option falsy].
  - destruct (negb (String.eqb (path l) "")), (negb (line l =? 0)%Z);
      cbn; eexists; reflexivity.
  - cbn. eexists; reflexivity.
Qed.

(** With a log message format, the decoration is the merge of the
    format with the expressions, put into a dictionary. *)
Lemma AddTargetInfo_format (self : Debuggee) (b : Breakpoint)
    (f : string) :
  logMessageFormat b = Some f -> f <> "" ->
  exists result,
    AddTargetInfo self (Message b)
    = (merged ← MergeLogExpressions f (expressions b);
       Return (HideExistingField
                 (set_item result "logMessageFormat" (VStr merged))
                 "expressions")).
Proof.
  intros Hf Hne. unfold AddTargetInfo.
  fold (hidden_of self). rewrite new_MessageDict_Message.
  cbn [mbind outcome_mbind outcome_bind].
  destruct (DebugViewUrl_wrapped self b) as [url ->].
  cbn [mbind outcome_mbind outcome_bind attr assoc all_fields String.eqb
       Ascii.eqb Bool.eqb].
  rewrite Hf. cbn [of_option].
  apply String.eqb_neq in Hne. rewrite Hne.
  destruct (location b) as [l|]; cbn [of_option falsy mbind outcome_mbind
                                       outcome_bind];
    eexists; reflexivity.
Qed.

Lemma AddTargetInfo_raises (self : Debuggee) (b : Breakpoint)
    (f : string) (e : exn) :
  logMessageFormat b = Some f -> f <> "" ->
  (AddTargetInfo self (Message b) = Raise e
   <-> MergeLogExpressions f (expressions b) = Raise e).
Proof.
  intros Hf Hne.
  destruct (AddTargetInfo_format self b f Hf Hne) as [result ->].
  destruct (MergeLogExpressions f (expressions b)); cbn;
    split; intros H; congruence.
Qed.

(** *** Listing with exact IDs *)

Lemma filtered_with_dict (self : Debuggee) (listed : list Breakpoint)
    (x : MessageDict) (more : list pyobj) (out : list MessageDict) :
  _FilteredDictListWithInfo self
    ((Message <$> listed) ++ Dict x :: more)%list None
  <> Return out.
Proof.
  revert out. induction listed as [|a listed IH]; intros out;
    cbn -[AddTargetInfo].
  - destruct (AddTargetInfo_Dict self x) as [e ->]. discriminate.
  - destruct (AddTargetInfo self (Message a)); cbn -[AddTargetInfo];
      try discriminate.
    destruct (_FilteredDictListWithInfo self _ None) as [out'|e|] eqn:E;
      cbn; try discriminate.
    now elim (IH out').
Qed.

Lemma fetch_missing_length `{RegexEngine} (svc : Service) (self : Debuggee)
    (ids : list string) :
  forall (log log' : list call) (xs : list MessageDict),
    fetch_missing svc self ids log = (Return xs, log') ->
    length xs = length ids.
Proof.
  induction ids as [|i ids IH]; intros log log' xs; cbn.
  - intros [= <- _]. reflexivity.
  - unfold mbind, rpc_mbind, rpc_bind.
    destruct (GetBreakpoint svc self i log) as [[x|e|] log1];
      try discriminate.
    destruct (fetch_missing svc self ids log1) as [[xs'|e|] log2] eqn:E;
      try discriminate.
    intros [= <- _]. cbn. f_equal. exact (IH _ _ _ E).
Qed.

(** A listing that asks for an ID that the service does not list never
    returns, when no type restriction filters the result. *)
Lemma ListMatching_missing `{RegexEngine} (svc : Service) (self : Debuggee)
    (requested : list string) (include_all_users include_inactive : bool)
    (log : list call) (i : string) :
  In i requested -> _BREAKPOINT_ID_PATTERN i = true ->
  (forall listed,
     breakpoints_List svc (target_id self) include_all_users
                      include_inactive = Return listed ->
     ~ In i (List.map id listed)) ->
  forall out log',
    ListMatchingBreakpoints svc self requested include_all_users
                            include_inactive None log
    <> (Return out, log').
Proof.
  intros Hin Hid Hlisted out log'.
  unfold ListMatchingBreakpoints, mbind, rpc_mbind, rpc_bind, lift,
    _CheckClient.
  destruct (clients_ready svc); [|discriminate].
  destruct (compile_all _) as [patterns|e|]; try discriminate.
  destruct (breakpoints_List svc (target_id self) include_all_users
                             include_inactive) as [listed|e|] eqn:El;
    try discriminate.
  specialize (Hlisted listed eq_refl).
  set (ids := list_to_set (List.filter _BREAKPOINT_ID_PATTERN requested)
              : gset string).
  set (result := List.filter (fun bp => _MatchesIdOrRegexp bp ids patterns)
                             listed).
  set (missing := elements (ids ∖ list_to_set (id <$> result))).
  assert (Hmiss : i ∈ missing).
  { unfold missing. apply elem_of_elements, elem_of_difference. split.
    - unfold ids. apply elem_of_list_to_set, list_elem_of_In.
      apply filter_In. auto.
    - rewrite elem_of_list_to_set. intros Hi.
      apply list_elem_of_In in Hi. apply Hlisted.
      change (id <$> result) with (List.map id result) in Hi.
      apply in_map_iff in Hi as (bp & Hbp & Hr).
      apply in_map_iff. exists bp. split; [exact Hbp|].
      unfold result in Hr. now apply filter_In in Hr. }
  destruct (fetch_missing svc self missing _) as [[fetched|e|] log2] eqn:Ef;
    try discriminate.
  apply fetch_missing_length in Ef.
  destruct fetched as [|x more].
  - destruct missing; [now apply not_elem_of_nil in Hmiss | discriminate].
  - intros [= Hout _]. revert Hout. apply filtered_with_dict.
Qed.

(** *** The pattern of breakpoint IDs *)

Lemma repeat_class_mono (cls : ascii -> bool) (k k' : string -> bool)
    (s : string) :
  (forall t, k t = true -> k' t = true) ->
  forall lo hi,
    repeat_class cls lo hi k s = true -> repeat_class cls lo hi k' s = true.
Proof.
  intros Hk. induction s as [|c s IH]; intros lo hi; cbn.
  - rewrite !orb_false_r. destruct lo; [apply Hk | auto].
  - rewrite !orb_true_iff, !andb_true_iff.
    intros [H|[H1 H2]]; [left | right].
    + destruct lo; [now apply Hk | discriminate].
    + split; [exact H1 | now apply IH].
Qed.

Lemma repeat_class_unbounded (cls : ascii -> bool) (k : string -> bool)
    (s : string) :
  forall lo h,
    repeat_class cls lo (Some h) k s = true ->
    repeat_class cls lo None k s = true.
Proof.
  induction s as [|c s IH]; intros lo h; cbn.
  - auto.
  - rewrite !orb_true_iff, !andb_true_iff.
    intros [H|[[H1 H2] H3]]; [now left | right].
    split; [split; [exact H1 | reflexivity]|]. now apply (IH _ _ H3).
Qed.

Lemma literal_mono (c : ascii) (k k' : string -> bool) (s : string) :
  (forall t, k t = true -> k' t = true) ->
  literal c k s = true -> literal c k' s = true.
Proof.
  intros Hk. destruct s as [|c' s]; cbn; [auto|].
  rewrite !andb_true_iff. intros [H1 H2]. split; [exact H1 | now apply Hk].
Qed.

(** Every string of the documented format is taken for an ID. *)
Lemma format_accepted (s : string) :
  breakpoint_id_format s = true -> _BREAKPOINT_ID_PATTERN s = true.
Proof.
  unfold breakpoint_id_format, _BREAKPOINT_ID_PATTERN.
  apply repeat_class_mono. intros t1. apply literal_mono. intros t2.
  apply repeat_class_mono. intros t3. apply literal_mono. intros t4.
  apply repeat_class_unbounded.
Qed.

Lemma hex_run_accepted (s : string) :
  all_hex s = true -> s <> "" ->
  forall lo, (lo <= 1)%nat -> repeat_class hex lo None at_end s = true.
Proof.
  induction s as [|c s IH]; intros Hh Hn lo Hlo; [congruence|].
  cbn in Hh. apply andb_true_iff in Hh as [Hc Hs]. cbn. rewrite Hc. cbn.
  apply orb_true_iff. right.
  destruct s as [|c' s'].
  - destruct lo as [|[|lo]]; cbn; try reflexivity. lia.
  - apply IH; [exact Hs | discriminate | destruct lo; cbn; lia].
Qed.

(** The third segment may be of any length. *)
Lemma long_third_segment (tail : string) :
  all_hex tail = true -> tail <> "" ->
  _BREAKPOINT_ID_PATTERN ("1234567890123-abcd-" ++ tail) = true.
Proof.
  intros Hh Hn. unfold _BREAKPOINT_ID_PATTERN.
  cbn -[repeat_class]. 
  do 13 (cbn [repeat_class]; apply orb_true_iff; right;
         apply andb_true_iff; split; [reflexivity|]).
  cbn [repeat_class Nat.pred fmap option_fmap option_map].
  apply orb_true_iff; left. cbn [literal]. cbn [andb Ascii.eqb Bool.eqb].
  do 4 (cbn [repeat_class]; apply orb_true_iff; right;
        apply andb_true_iff; split; [reflexivity|]).
  cbn [repeat_class Nat.pred fmap option_fmap option_map].
  apply orb_true_iff; left. cbn [literal]. cbn [andb Ascii.eqb Bool.eqb].
  now apply hex_run_accepted.
Qed.

End BreakpointFacts.

(** * Properties of the other operations *)

(** ** Outcomes *)

Module OutcomeFacts.

Lemma bind_Return {A B} (m : outcome A) (f : A -> outcome B) (b : B) :
  (x ← m; f x) = Return b -> exists a, m = Return a /\ f a = Return b.
Proof. destruct m as [a| |]; [eauto|discriminate|discriminate]. Qed.

Lemma Return_inj {A} (a b : A) : Return a = Return b -> a = b.
Proof. congruence. Qed.

End OutcomeFacts.

(** ** Text that the codec copies *)

Module CodecMore.
Import Codec CodecSpec Aux TextFacts CodecFacts Format.

Lemma count_char_app (c : ascii) (a b : string) :
  count_char c (a ++ b) = (count_char c a + count_char c b)%nat.
Proof.
  induction a as [|x a IH]; [reflexivity|].
  cbn [String.append count_char]. rewrite IH. lia.
Qed.

Lemma count_char_cons_0 (c x : ascii) (r : string) :
  count_char c (String x r) = 0%nat ->
  Ascii.eqb x c = false /\ count_char c r = 0%nat.
Proof.
  cbn [count_char]. destruct (Ascii.eqb x c); [discriminate|]. auto.
Qed.

(** Text without an opening brace is copied to the output. *)
Lemma run_no_open (s : string) :
  forall st : state,
    brace_count st = 0%Z -> need_separator st = false ->
    count_char "{" s = 0%nat ->
    run st s = add_format st s.
Proof.
  induction s as [|c r IH]; intros [E lf cur n sep] Hn Hs Hc;
    cbn in Hn, Hs; subst n sep.
  - cbn. unfold add_format. cbn. now rewrite append_nil_r.
  - apply count_char_cons_0 in Hc as [Hx Hr].
    cbn [run]. unfold step. cbn. rewrite Hx. cbn.
    rewrite IH; [|reflexivity|reflexivity|exact Hr].
    unfold add_format. cbn. now rewrite append_snoc.
Qed.

Lemma Split_no_open (s : string) :
  count_char "{" s = 0%nat -> SplitLogExpressions s = Return (s, []).
Proof.
  intros H. unfold SplitLogExpressions.
  rewrite (run_no_open s initial eq_refl eq_refl H). reflexivity.
Qed.

(** The output never holds an opening brace. *)
Lemma all_digits_no_char (c : ascii) (s : string) :
  isdigit c = false -> all_digits s = true -> count_char c s = 0%nat.
Proof.
  intros Hc. induction s as [|x r IH]; [reflexivity|].
  cbn [all_digits count_char]. intros [Hx Hr]%andb_true_iff.
  rewrite (IH Hr). destruct (Ascii.eqb_spec x c) as [->|]; [|reflexivity].
  congruence.
Qed.

Lemma step_no_open (st : state) (c : ascii) :
  count_char "{" (log_format st) = 0%nat ->
  count_char "{" (log_format (step st c)) = 0%nat.
Proof.
  destruct st as [E lf cur n sep]. cbn [log_format]. intros H.
  unfold step, finish_expression, add_format, set_separator, set_count,
    set_expression, set_expressions. cbn.
  repeat match goal with
  | |- context [if ?b then _ else _] => destruct b eqn:?; cbn
  | |- context [match list_index ?x ?l with _ => _ end] =>
      destruct (list_index x l) eqn:?; cbn
  end;
  rewrite ?count_char_app, ?H; cbn;
  rewrite ?(all_digits_no_char "{" _ eq_refl (decimal_digits _));
  try reflexivity; try congruence.
  all: rewrite ?count_char_app, ?H; cbn; try congruence.
  all: match goal with Hb : Ascii.eqb _ _ = false |- _ => now rewrite Hb end.
Qed.

Lemma run_no_open_out (s : string) :
  forall st : state,
    count_char "{" (log_format st) = 0%nat ->
    count_char "{" (log_format (run st s)) = 0%nat.
Proof.
  induction s as [|c r IH]; intros st H; [exact H|].
  cbn [run]. apply IH, step_no_open, H.
Qed.

Lemma Split_no_open_out (s encoded : string) (exprs : list string) :
  SplitLogExpressions s = Return (encoded, exprs) ->
  count_char "{" encoded = 0%nat.
Proof.
  unfold SplitLogExpressions.
  destruct (negb _); [discriminate|]. intros [= <- _].
  now apply run_no_open_out.
Qed.

End CodecMore.

(** ** The expressions of a format string *)

Module ExpressionFacts.
Import Codec CodecSpec Aux TextFacts CodecFacts SplitFacts.

Lemma fold_add_origin (l : list string) :
  forall (E : list string) (t : string),
    In t (fold_left add_expression l E) -> In t E \/ In t l.
Proof.
  induction l as [|x l IH]; intros E t; [now left|].
  cbn [fold_left]. intros [H|H]%IH; [|right; now right].
  unfold add_expression in H. destruct (list_index x E); [now left|].
  apply in_app_or in H as [H|[<-|[]]]; [now left|right; now left].
Qed.

(** [cur] leads from depth 0 to depth [d] without a closing brace that
    nothing opens. *)
Lemma parse_balanced (s : string) :
  forall (d : nat) (cur t : string),
    (forall rest, balanced_from d rest = true ->
                  balanced_from 0 (cur ++ rest) = true) ->
    In t (texts (parse_from (S d) cur s)) -> balanced t = true.
Proof.
  assert (Htop : forall s,
    (forall (d : nat) (cur t : string),
       (forall rest, balanced_from d rest = true ->
                     balanced_from 0 (cur ++ rest) = true) ->
       In t (texts (parse_from (S d) cur s)) -> balanced t = true)
    /\ (forall cur t, In t (texts (parse_from 0 cur s)) ->
                      balanced t = true)).
  { intros s0. induction s0 as [|c r [IHin IHtop]];
      [split; intros; contradiction|].
    split.
    - intros d cur t Hcur. cbn [parse_from].
      destruct (Ascii.eqb_spec c "{") as [->|Ho].
      + apply IHin. intros rest Hrest.
        rewrite append_snoc. apply Hcur. exact Hrest.
      + destruct (Ascii.eqb_spec c "}") as [->|Hc].
        * destruct d as [|d].
          -- cbn [texts]. intros [<-|Ht]; [|exact (IHtop _ _ Ht)].
             unfold balanced. rewrite <- (append_nil_r cur).
             now apply Hcur.
          -- apply IHin. intros rest Hrest.
             rewrite append_snoc. apply Hcur. exact Hrest.
        * apply IHin. intros rest Hrest.
          rewrite append_snoc. apply Hcur.
          cbn [balanced_from].
          apply Ascii.eqb_neq in Ho, Hc. now rewrite Ho, Hc.
    - intros cur t. cbn [parse_from].
      destruct (Ascii.eqb c "{").
      + apply IHin. intros rest Hrest. exact Hrest.
      + cbn [texts]. apply IHtop. }
  apply Htop.
Qed.

Lemma Split_balanced (s encoded : string) (exprs : list string) :
  SplitLogExpressions s = Return (encoded, exprs) ->
  Forall (fun t => balanced t = true) exprs.
Proof.
  rewrite Split_parse. destruct (Nat.eqb _ 0); [|discriminate].
  intros [= _ <-]. apply List.Forall_forall. intros t Ht.
  unfold first_occurrences in Ht.
  apply fold_add_origin in Ht as [[]|Ht].
  unfold expression_texts, parse in Ht.
  destruct s as [|c r]; [destruct Ht|].
  cbn [parse_from] in Ht.
  destruct (Ascii.eqb c "{").
  - apply (parse_balanced r 0 "" t); [intros rest Hr; exact Hr|exact Ht].
  - cbn [texts] in Ht. revert Ht. generalize "" at 1.
    clear c. induction r as [|c r IH]; intros cur; [intros []|].
    cbn [parse_from]. destruct (Ascii.eqb c "{").
    + apply (parse_balanced r 0 "" t). intros rest Hr; exact Hr.
    + cbn [texts]. apply IH.
Qed.

End ExpressionFacts.

(** ** Formats without tokens, and surplus expressions *)

Module MergeMore.
Import Codec CodecSpec Aux TextFacts CodecFacts Format MergeFacts
       OutcomeFacts CodecMore.

Lemma emit_Return (c : ascii) (m : outcome string) (r : string) :
  emit c m = Return r -> exists r', m = Return r' /\ r = String c r'.
Proof.
  unfold emit. intros (a & -> & [= <-])%bind_Return. eauto.
Qed.

(** *** Text without tokens *)

Lemma tokens_from_Digits (s : string) (n : N) :
  tokens_from (Digits n) s <> [].
Proof.
  revert n. induction s as [|c r IH]; intros n; [discriminate|].
  cbn [tokens_from tok_step].
  destruct (isdigit c); [apply IH|].
  destruct (Ascii.eqb c "$"); discriminate.
Qed.

Lemma merge_plain (s : string) (args : list string) :
  forall q : tok_state,
    (q = Outside \/ q = Dollar /\ starts_with_digit s = false) ->
    tokens_from q s = [] -> brace_free s ->
    format_from Literal (sub_tokens false s) args = Return s.
Proof.
  induction s as [|c r IH]; intros q Hq Ht [Ho Hc]; [reflexivity|].
  apply count_char_cons_0 in Ho as [Ho Ho'].
  apply count_char_cons_0 in Hc as [Hc Hc'].
  assert (Hd : Ascii.eqb c "$" && starts_with_digit r = false).
  { destruct (Ascii.eqb_spec c "$") as [->|]; [|reflexivity].
    destruct r as [|d r]; [reflexivity|]. cbn.
    destruct (isdigit d) eqn:Ed; [|reflexivity]. exfalso.
    assert (tokens_from Dollar (String d r) = []) as Hn.
    { destruct Hq as [->|[-> _]]; exact Ht. }
    cbn [tokens_from tok_step] in Hn. rewrite Ed in Hn.
    now apply tokens_from_Digits in Hn. }
  rewrite (sub_tokens_literal c r Hd), (format_literal c _ args Ho Hc).
  assert (exists q', (q' = Outside \/ q' = Dollar
                      /\ starts_with_digit r = false)
                     /\ tokens_from q' r = []) as (q' & Hq' & Ht').
  { destruct (Ascii.eqb_spec c "$") as [->|Hne].
    - exists Dollar. split; [right; split; [reflexivity|exact Hd]|].
      destruct Hq as [->|[-> _]]; exact Ht.
    - exists Outside. split; [left; reflexivity|].
      assert (Ascii.eqb c "$" = false) as Ec by now apply Ascii.eqb_neq.
      destruct Hq as [->|[-> Hs]]; cbn [tokens_from tok_step] in Ht.
      + now rewrite Ec in Ht.
      + cbn in Hs. now rewrite Hs, Ec in Ht. }
  rewrite (IH q' Hq' Ht' (conj Ho' Hc')). reflexivity.
Qed.

Lemma Merge_plain (s : string) (args : list string) :
  tokens s = [] -> brace_free s -> MergeLogExpressions s args = Return s.
Proof.
  intros Ht Hb. apply (merge_plain s args Outside); auto.
Qed.

(** *** More expressions than the format names *)

Lemma positional_app (n : N) (args more : list string) (a : string) :
  positional n args = Return a ->
  positional n (args ++ more)%list = Return a.
Proof.
  unfold positional.
  destruct (N.ltb_spec n (N.of_nat (length args))) as [Hn|]; [|discriminate].
  destruct (args !! N.to_nat n) as [x|] eqn:E; [|discriminate].
  intros [= <-].
  rewrite length_app.
  destruct (N.ltb_spec n (N.of_nat (length args + length more))); [|lia].
  now rewrite (lookup_app_l_Some _ _ _ _ E).
Qed.

Lemma render_field_app (field : string) (args more : list string)
    (v : string) :
  render_field field args = Return v ->
  render_field field (args ++ more)%list = Return v.
Proof.
  unfold render_field. destruct field as [|c r]; [discriminate|].
  intros (n & -> & Hp)%bind_Return. cbn.
  now apply positional_app.
Qed.

Lemma format_from_app (more : list string) (k : nat) :
  forall (s : string) (m : mode) (args : list string) (r : string),
    (String.length s <= k)%nat ->
    format_from m s args = Return r ->
    format_from m s (args ++ more)%list = Return r.
Proof.
  induction k as [|k IH]; intros s m args r Hk.
  { destruct s; [|cbn in Hk; lia]. destruct m; intros H; exact H. }
  destruct s as [|c s]; [destruct m; intros H; exact H|].
  cbn in Hk. assert (Hs : (String.length s <= k)%nat) by lia.
  destruct m as [|n text]; cbn [format_from].
  - destruct (Ascii.eqb c "}").
    { destruct s as [|c' s']; [intros H; exact H|].
      destruct (Ascii.eqb c' "}"); [|intros H; exact H].
      intros (r' & Hr & ->)%emit_Return.
      rewrite (IH s' Literal args r'); [reflexivity|cbn in Hs; lia|exact Hr]. }
    destruct (Ascii.eqb c "{").
    { destruct s as [|c' s']; [intros H; exact H|].
      destruct (Ascii.eqb c' "{").
      - intros (r' & Hr & ->)%emit_Return.
        rewrite (IH s' Literal args r'); [reflexivity|cbn in Hs; lia|exact Hr].
      - apply IH, Hs. }
    intros (r' & Hr & ->)%emit_Return.
    now rewrite (IH s Literal args r' Hs Hr).
  - destruct (Ascii.eqb c "{"); [apply IH, Hs|].
    destruct (Ascii.eqb c "}"); [|apply IH, Hs].
    destruct n as [|[|n']]; try (apply IH, Hs).
    + intros (v & Hv & (rest & Hrest & Hr)%bind_Return)%bind_Return.
      rewrite (render_field_app _ _ more _ Hv). cbn.
      rewrite (IH s Literal args rest Hs Hrest). exact Hr.
    + intros (v & Hv & (rest & Hrest & Hr)%bind_Return)%bind_Return.
      rewrite (render_field_app _ _ more _ Hv). cbn.
      rewrite (IH s Literal args rest Hs Hrest). exact Hr.
Qed.

Lemma Merge_more (fmt : string) (args more : list string) (r : string) :
  MergeLogExpressions fmt args = Return r ->
  MergeLogExpressions fmt (args ++ more)%list = Return r.
Proof. apply (format_from_app more _ _ Literal args r (le_n _)). Qed.

End MergeMore.

(** ** What the resolver returns and raises *)

Module ResolverMore.
Import Resolver ResolverSpec Aux ResolverFacts OutcomeFacts.

(** *** What [_FindLatestMinorVersion] returns *)

Lemma latest_loop_sound (rest : list Debuggee) :
  forall (best : option Debuggee) (bv : option Z) (nm : option string)
         (d : Debuggee),
    latest_loop best bv nm rest = Return (Some d) ->
    (best = Some d \/ In d rest)
    /\ (forall d', In d' rest ->
          truthy (minorversion d') = true
          /\ (truthy nm = true -> name d' = default "" nm))
    /\ (forall d' d'', In d' rest -> In d'' rest -> name d' = name d'').
Proof.
  induction rest as [|x rest IH]; intros best bv nm d.
  { cbn. intros [= ->]. split; [now left|]. split; [intros ? []|intros ? ? []]. }
  cbn [latest_loop].
  assert (Hafter : forall nm',
    truthy nm' = true ->
    (if negb (truthy (labels x !! "minorversion")) then Return None
     else minor_version ← Py.int (default "" (labels x !! "minorversion"));
          if improves bv minor_version
          then latest_loop (Some x) (Some minor_version) nm' rest
          else latest_loop best bv nm' rest) = Return (Some d) ->
    truthy (minorversion x) = true
    /\ (best = Some d \/ d = x \/ In d rest)
    /\ (forall d', In d' rest ->
          truthy (minorversion d') = true /\ name d' = default "" nm')
    /\ (forall d' d'', In d' rest -> In d'' rest -> name d' = name d'')).
  { intros nm' Hnm'. fold (minorversion x).
    destruct (truthy (minorversion x)) eqn:Ht; [|discriminate]. cbn [negb].
    intros (v & _ & Hv)%bind_Return.
    destruct (improves bv v); apply IH in Hv as (Hin & Hall & Hsame);
      (split; [reflexivity|]); (split; [|split; [|exact Hsame]]).
    - destruct Hin as [[= ->]|Hin]; auto.
    - intros d' Hd'. destruct (Hall d' Hd'); auto.
    - destruct Hin; auto.
    - intros d' Hd'. destruct (Hall d' Hd'); auto. }
  destruct (truthy nm) eqn:Hnm; cbn [negb].
  - destruct (String.eqb_spec (default "" nm) (name x)) as [Hx|];
      [|discriminate]. cbn [negb].
    intros (Ht & Hin & Hall & Hsame)%(Hafter nm Hnm).
    split; [|split].
    + destruct Hin as [|[->|]]; cbn; auto.
    + intros d' [<-|Hd']; [auto|]. destruct (Hall d' Hd'); auto.
    + intros d' d'' [<-|Hd'] [<-|Hd'']; auto.
      * destruct (Hall d'' Hd''). congruence.
      * destruct (Hall d' Hd'). congruence.
  - intros H.
    assert (Ht : truthy (minorversion x) = true).
    { fold (minorversion x) in H.
      destruct (truthy (minorversion x)); [reflexivity|discriminate]. }
    pose proof (name_not_empty x Ht) as Hne.
    assert (Hnx : truthy (Some (name x)) = true).
    { cbn. now destruct (String.eqb_spec (name x) ""). }
    apply (Hafter _ Hnx) in H as (_ & Hin & Hall & Hsame).
    split; [|split].
    + destruct Hin as [|[->|]]; cbn; auto.
    + intros d' [<-|Hd']; [split; [exact Ht|congruence]|].
      destruct (Hall d' Hd'). split; [assumption|congruence].
    + intros d' d'' [<-|Hd'] [<-|Hd'']; auto.
      * destruct (Hall d'' Hd'') as [_ ->]. reflexivity.
      * destruct (Hall d' Hd') as [_ ->]. reflexivity.
Qed.

Lemma latest_sound (ds : list Debuggee) (d : Debuggee) :
  _FindLatestMinorVersion ds = Return (Some d) ->
  In d ds
  /\ forall d', In d' ds ->
       name d' = name d /\ truthy (minorversion d') = true.
Proof.
  destruct ds as [|x rest]; [discriminate|].
  unfold _FindLatestMinorVersion.
  intros (Hin & Hall & Hsame)%latest_loop_sound.
  destruct Hin as [|Hin]; [discriminate|].
  split; [exact Hin|]. intros d' Hd'. split; [now apply Hsame|].
  now apply Hall.
Qed.

(** A failure of [_FindLatestMinorVersion] is the [ValueError] of
    [int]. *)
Lemma int_Raise (s : string) (e : exn) :
  Py.int s = Raise e -> e = ValueError InvalidIntLiteral.
Proof.
  unfold Py.int. destruct s as [|c r]; [now intros [= <-]|].
  repeat match goal with
         | |- context [if ?b then _ else _] => destruct b
         end; try discriminate.
  now intros [= <-].
Qed.

Lemma latest_loop_Raise (rest : list Debuggee) :
  forall (best : option Debuggee) (bv : option Z) (nm : option string)
         (e : exn),
    latest_loop best bv nm rest = Raise e ->
    e = ValueError InvalidIntLiteral.
Proof.
  induction rest as [|x rest IH]; intros best bv nm e; [discriminate|].
  cbn [latest_loop].
  assert (Hafter : forall nm',
    (if negb (truthy (labels x !! "minorversion")) then Return None
     else minor_version ← Py.int (default "" (labels x !! "minorversion"));
          if improves bv minor_version
          then latest_loop (Some x) (Some minor_version) nm' rest
          else latest_loop best bv nm' rest) = Raise e ->
    e = ValueError InvalidIntLiteral).
  { intros nm'. destruct (negb _); [discriminate|].
    destruct (Py.int _) as [v|e'|] eqn:Ei; cbn.
    - destruct (improves bv v); apply IH.
    - intros [= <-]. now apply int_Raise in Ei.
    - discriminate. }
  destruct (negb (truthy nm)); [apply Hafter|].
  destruct (negb (String.eqb _ _)); [discriminate|apply Hafter].
Qed.

Lemma latest_Raise (ds : list Debuggee) (e : exn) :
  _FindLatestMinorVersion ds = Raise e -> e = ValueError InvalidIntLiteral.
Proof.
  destruct ds; [discriminate|]. apply latest_loop_Raise.
Qed.

(** *** What the resolver returns *)

Lemma DefaultDebuggee_In (ds : list Debuggee) (d : Debuggee) :
  DefaultDebuggee (Return ds) = Return d -> In d ds.
Proof.
  unfold DefaultDebuggee. cbn [mbind outcome_mbind outcome_bind].
  destruct ds as [|d0 [|d1 rest]]; [discriminate|intros [= ->]; now left|].
  generalize (d0 :: d1 :: rest). clear d0 d1 rest. intros ds.
  destruct (_FindLatestMinorVersion ds) as [[l|]| |] eqn:E1;
    cbn [mbind outcome_mbind outcome_bind];
    [intros [= <-]; now apply latest_sound in E1| |discriminate..].
  set (by_module := List.filter (fun d => negb (truthy (module d))) ds).
  assert (Hm : forall x, In x by_module -> In x ds).
  { intros x Hx. now apply filter_In in Hx. }
  destruct by_module as [|m0 [|m1 mrest]];
    [discriminate|intros [= <-]; apply Hm; now left|].
  revert Hm. generalize (m0 :: m1 :: mrest). clear m0 m1 mrest.
  intros by_module Hm.
  destruct (_FindLatestMinorVersion by_module) as [[l|]| |] eqn:E2;
    cbn [mbind outcome_mbind outcome_bind];
    [intros [= <-]; apply Hm; now apply latest_sound in E2
    | |discriminate..].
  set (by_version :=
         List.filter (fun d => negb (truthy (version d))) by_module).
  assert (Hv : forall x, In x by_version -> In x ds).
  { intros x Hx. apply Hm. now apply filter_In in Hx. }
  destruct by_version as [|v0 [|v1 vrest]];
    [discriminate|intros [= <-]; apply Hv; now left|].
  revert Hv. generalize (v0 :: v1 :: vrest). clear v0 v1 vrest.
  intros by_version Hv.
  destruct (_FindLatestMinorVersion by_version) as [[l|]| |] eqn:E3;
    cbn [mbind outcome_mbind outcome_bind];
    [intros [= <-]; apply Hv; now apply latest_sound in E3
    |discriminate..].
Qed.

Lemma FindDebuggee_sound `{RegexEngine} (ds : list Debuggee)
    (pattern : string) (d : Debuggee) :
  pattern <> "" ->
  FindDebuggee (Return ds) (Some pattern) = Return d ->
  In d ds
  /\ exists match_re, re_compile pattern = Some match_re
       /\ (target_id d = pattern
           \/ re_search match_re (name d) = true
           \/ re_search match_re (description d) = true).
Proof.
  intros Hp. unfold FindDebuggee.
  assert (truthy (Some pattern) = true) as ->.
  { cbn. now destruct (String.eqb_spec pattern ""). }
  cbn [negb default from_option id mbind outcome_mbind outcome_bind].
  change (default "" (Some pattern)) with pattern.
  destruct (re_compile pattern) as [re|]; [|discriminate].
  set (by_name := List.filter _ ds).
  set (by_description := List.filter _ ds).
  set (cands := match by_name with [] => by_description | _ => by_name end).
  assert (Hc : forall x, In x cands ->
            In x ds /\ (target_id x = pattern
                        \/ re_search re (name x) = true
                        \/ re_search re (description x) = true)).
  { intros x Hx.
    assert (In x by_name \/ In x by_description) as [Hn|Hn].
    { subst cands. destruct by_name; auto. }
    - apply filter_In in Hn as [Hin Hf]. split; [exact Hin|].
      apply orb_true_iff in Hf as [Hf%String.eqb_eq|Hf]; auto.
    - apply filter_In in Hn as [Hin Hf]. auto. }
  intros Hres.
  enough (In d cands) as Hd by (destruct (Hc d Hd); eauto).
  destruct cands as [|c0 [|c1 crest]];
    [discriminate|injection Hres as <-; now left|].
  destruct (_FindLatestMinorVersion _) as [[l|]| |] eqn:E; cbn in Hres;
    try discriminate.
  injection Hres as <-. now apply latest_sound in E.
Qed.

Lemma DefaultDebuggee_Raise (ds : list Debuggee) (e : exn) :
  DefaultDebuggee (Return ds) = Raise e ->
  e = NoDebuggeeError None \/ e = MultipleDebuggeesError None ds
  \/ e = ValueError InvalidIntLiteral.
Proof.
  unfold DefaultDebuggee. cbn [mbind outcome_mbind outcome_bind].
  destruct ds as [|d0 [|d1 rest]]; [intros [= <-]; auto|discriminate|].
  generalize (d0 :: d1 :: rest). clear d0 d1 rest. intros ds.
  destruct (_FindLatestMinorVersion ds) as [[l|]|e'|] eqn:E1;
    cbn [mbind outcome_mbind outcome_bind];
    [discriminate| |intros [= <-]; apply latest_Raise in E1; auto
    |discriminate].
  destruct (List.filter (fun d => negb (truthy (module d))) ds)
    as [|m0 [|m1 mrest]]; [intros [= <-]; auto|discriminate|].
  generalize (m0 :: m1 :: mrest). clear m0 m1 mrest. intros by_module.
  destruct (_FindLatestMinorVersion by_module) as [[l|]|e'|] eqn:E2;
    cbn [mbind outcome_mbind outcome_bind];
    [discriminate| |intros [= <-]; apply latest_Raise in E2; auto
    |discriminate].
  destruct (List.filter (fun d => negb (truthy (version d))) by_module)
    as [|v0 [|v1 vrest]]; [intros [= <-]; auto|discriminate|].
  generalize (v0 :: v1 :: vrest). clear v0 v1 vrest. intros by_version.
  destruct (_FindLatestMinorVersion by_version) as [[l|]|e'|] eqn:E3;
    cbn [mbind outcome_mbind outcome_bind];
    [discriminate|intros [= <-]; auto
    |intros [= <-]; apply latest_Raise in E3; auto|discriminate].
Qed.

End ResolverMore.

(** ** Source locations *)

Module LocationFacts.
Import Breakpoints CodecSpec Aux TextFacts Locations CodecMore
       ResolverMore.

(** *** Numerals of integers *)

Lemma string_of_uint_pos (d : Decimal.uint) :
  (forall acc : positive,
     digits_value (N.pos acc) (NilEmpty.string_of_uint d)
     = N.pos (Pos.of_uint_acc d acc))
  /\ digits_value 0 (NilEmpty.string_of_uint d) = Pos.of_uint d.
Proof.
  induction d as [|d [IH1 IH2]|d [IH1 IH2]|d [IH1 IH2]|d [IH1 IH2]
                  |d [IH1 IH2]|d [IH1 IH2]|d [IH1 IH2]|d [IH1 IH2]
                  |d [IH1 IH2]|d [IH1 IH2]];
    (split; [intros acc|]);
    cbn [NilEmpty.string_of_uint digits_value Pos.of_uint_acc Pos.of_uint];
    try reflexivity;
    unfold digit_value; cbn [N_of_ascii N_of_digits N.add N.mul N.sub];
    rewrite <- ?IH1, <- ?IH2; try reflexivity; f_equal; lia.
Qed.

Lemma string_of_uint_empty (d : Decimal.uint) :
  NilEmpty.string_of_uint d = "" -> d = Decimal.Nil.
Proof. destruct d; cbn; congruence. Qed.

Lemma int_digits (s : string) :
  all_digits s = true -> s <> "" ->
  Py.int s = Return (Z.of_N (digits_value 0 s)).
Proof.
  intros Hd Hs. unfold Py.int. destruct s as [|c r]; [congruence|].
  now rewrite Hd.
Qed.

Lemma int_decimalZ (z : Z) : Py.int (decimalZ z) = Return z.
Proof.
  unfold decimalZ. destruct z as [|p|p]; [reflexivity| |];
    cbn [Z.to_int NilZero.string_of_int];
    pose proof (DecimalPos.Unsigned.to_uint_nonnil p) as Hn;
    assert (NilZero.string_of_uint (Pos.to_uint p)
            = NilEmpty.string_of_uint (Pos.to_uint p)) as ->
      by (destruct (Pos.to_uint p); [congruence|reflexivity..]);
    pose proof (string_of_uint_digits (Pos.to_uint p)) as Hd;
    pose proof (proj2 (string_of_uint_pos (Pos.to_uint p))) as Hv;
    rewrite DecimalPos.Unsigned.of_to in Hv;
    assert (Hs : NilEmpty.string_of_uint (Pos.to_uint p) <> "")
      by (intros E; now apply string_of_uint_empty in E).
  - rewrite (int_digits _ Hd Hs), Hv. reflexivity.
  - unfold Py.int. cbn [all_digits isdigit andb].
    rewrite Hd. cbn [Ascii.eqb Bool.eqb orb andb].
    destruct (String.eqb_spec (NilEmpty.string_of_uint (Pos.to_uint p)) "");
      [congruence|].
    cbn [negb]. now rewrite Hv.
Qed.

Lemma decimalZ_no_colon (z : Z) : count_char ":" (decimalZ z) = 0%nat.
Proof.
  unfold decimalZ. destruct z as [|p|p]; [reflexivity| |];
    cbn [Z.to_int NilZero.string_of_int];
    pose proof (DecimalPos.Unsigned.to_uint_nonnil p) as Hn;
    assert (NilZero.string_of_uint (Pos.to_uint p)
            = NilEmpty.string_of_uint (Pos.to_uint p)) as ->
      by (destruct (Pos.to_uint p); [congruence|reflexivity..]);
    pose proof (string_of_uint_digits (Pos.to_uint p)) as Hd.
  - now apply all_digits_no_char.
  - cbn [count_char]. now rewrite (all_digits_no_char ":" _ eq_refl Hd).
Qed.

(** *** [split] *)

Lemma split_from_length (s : string) :
  forall cur, length (split_from cur s) = S (count_char ":" s).
Proof.
  induction s as [|c r IH]; intros cur; [reflexivity|].
  cbn [split_from count_char].
  destruct (Ascii.eqb c ":"); cbn; now rewrite IH.
Qed.

Lemma split_from_plain (s : string) :
  forall cur, count_char ":" s = 0%nat -> split_from cur s = [cur ++ s].
Proof.
  induction s as [|c r IH]; intros cur Hc.
  - cbn. now rewrite append_nil_r.
  - apply count_char_cons_0 in Hc as [Hx Hr].
    cbn [split_from]. rewrite Hx, (IH _ Hr). now rewrite append_snoc.
Qed.

Lemma split_from_colon (p r : string) :
  forall cur,
    count_char ":" p = 0%nat ->
    split_from cur (p ++ String ":" r) = (cur ++ p) :: split_from "" r.
Proof.
  induction p as [|c p IH]; intros cur Hc.
  - cbn. now rewrite append_nil_r.
  - apply count_char_cons_0 in Hc as [Hx Hp].
    cbn [String.append split_from]. rewrite Hx, (IH _ Hp).
    now rewrite append_snoc.
Qed.

Lemma LocationFromString_shown (l : SourceLocation) :
  count_char ":" (path l) = 0%nat ->
  _LocationFromString (shown l) = Return l.
Proof.
  intros Hp. unfold _LocationFromString, Locations.split.
  change (shown l) with (path l ++ String ":" (decimalZ (line l))).
  rewrite (split_from_colon _ _ "" Hp).
  rewrite (split_from_plain _ "" (decimalZ_no_colon (line l))).
  cbn [String.append]. rewrite int_decimalZ.
  destruct l; reflexivity.
Qed.

Lemma LocationFromString_malformed (s : string) :
  _LocationFromString s = Raise (ValueError MalformedLocation)
  <-> count_char ":" s <> 1%nat.
Proof.
  unfold _LocationFromString.
  pose proof (split_from_length s "") as Hl.
  fold (Locations.split s) in Hl.
  destruct (Locations.split s) as [|p [|l [|x rest]]]; cbn in Hl;
    try (split; [lia|reflexivity]).
  split; [|lia].
  destruct (Py.int l) as [n|e|] eqn:E; cbn; try discriminate.
  intros [= ->]. now apply int_Raise in E.
Qed.

End LocationFacts.

(** ** The dictionary of a message *)

Module DictFacts.
Import Breakpoints BreakpointSpec CodecSpec Aux Locations Decoration
       BreakpointFacts OutcomeFacts.

(** *** The constructor of [_MessageDict] *)

Lemma items_fill_other (fields : list (string * value)) :
  forall (d : MessageDict) (k : string),
    ~ In k (keys fields) -> items (fill d fields) !! k = items d !! k.
Proof.
  induction fields as [|[f v] fields IH]; intros d k Hk; [reflexivity|].
  cbn in Hk. cbn [fill fold_left].
  change (fold_left _ fields ?x) with (fill x fields).
  rewrite IH by tauto.
  assert (f <> k) by tauto.
  destruct (falsy v); cbn; [reflexivity|].
  now rewrite lookup_insert_ne.
Qed.

Lemma hidden_fill_other (fields : list (string * value)) :
  forall (d : MessageDict) (k : string),
    ~ In k (keys fields) ->
    hidden_fields (fill d fields) !! k = hidden_fields d !! k.
Proof.
  induction fields as [|[f v] fields IH]; intros d k Hk; [reflexivity|].
  cbn in Hk. cbn [fill fold_left].
  change (fold_left _ fields ?x) with (fill x fields).
  rewrite IH by tauto.
  assert (f <> k) by tauto.
  destruct (falsy v); cbn; [|reflexivity].
  now rewrite lookup_insert_ne.
Qed.

Lemma items_fill (fields : list (string * value)) :
  forall (d : MessageDict) (k : string) (v : value),
    NoDup (keys fields) -> assoc k fields = Some v ->
    items (fill d fields) !! k
    = if falsy v then items d !! k else Some v.
Proof.
  induction fields as [|[f w] fields IH]; intros d k v Hnd Hk;
    [discriminate|].
  cbn in Hk, Hnd. apply NoDup_cons in Hnd as [Hf Hnd].
  cbn [fill fold_left].
  change (fold_left _ fields ?x) with (fill x fields).
  destruct (String.eqb_spec k f) as [->|Hne].
  - injection Hk as ->.
    rewrite items_fill_other
      by (intros Hin; apply Hf; now apply list_elem_of_In).
    destruct (falsy v); cbn; [reflexivity|]. now rewrite lookup_insert_eq.
  - rewrite (IH _ k v Hnd Hk).
    destruct (falsy v); [|reflexivity].
    destruct (falsy w); cbn; [reflexivity|].
    rewrite lookup_insert_ne; congruence.
Qed.

Lemma hidden_fill (fields : list (string * value)) :
  forall (d : MessageDict) (k : string) (v : value),
    NoDup (keys fields) -> assoc k fields = Some v ->
    hidden_fields (fill d fields) !! k
    = if falsy v then Some v else hidden_fields d !! k.
Proof.
  induction fields as [|[f w] fields IH]; intros d k v Hnd Hk;
    [discriminate|].
  cbn in Hk, Hnd. apply NoDup_cons in Hnd as [Hf Hnd].
  cbn [fill fold_left].
  change (fold_left _ fields ?x) with (fill x fields).
  destruct (String.eqb_spec k f) as [->|Hne].
  - injection Hk as ->.
    rewrite hidden_fill_other
      by (intros Hin; apply Hf; now apply list_elem_of_In).
    destruct (falsy v); cbn; [|reflexivity]. now rewrite lookup_insert_eq.
  - rewrite (IH _ k v Hnd Hk).
    destruct (falsy v); [reflexivity|].
    destruct (falsy w); cbn; [|reflexivity].
    rewrite lookup_insert_ne; congruence.
Qed.

Lemma fields_NoDup (b : Breakpoint) : NoDup (keys (all_fields b)).
Proof.
  rewrite all_fields_keys. apply NoDup_ListNoDup.
  repeat (constructor; [cbn; intuition discriminate|]). constructor.
Qed.

Lemma assoc_keys (k : string) (fields : list (string * value)) :
  assoc k fields = None <-> ~ In k (keys fields).
Proof.
  induction fields as [|[f v] fields IH]; cbn; [tauto|].
  destruct (String.eqb_spec k f) as [->|Hne].
  - split; [discriminate|]. tauto.
  - rewrite IH. split; [intros H [?|?]; [congruence|tauto]|tauto].
Qed.

Lemma new_MessageDict_fill (b : Breakpoint)
    (hidden : gmap string value) :
  new_MessageDict (Message b) hidden
  = Return (fill {| orig_type := "Breakpoint"; items := ∅;
                    hidden_fields := hidden |} (all_fields b)).
Proof. reflexivity. Qed.

(** What the dictionary built from a message gives for a field of the
    message. *)
Lemma new_MessageDict_field (b : Breakpoint)
    (hidden : gmap string value) (d : MessageDict) (k : string)
    (v : value) :
  new_MessageDict (Message b) hidden = Return d ->
  assoc k (all_fields b) = Some v ->
  getattr d k = Return v
  /\ items d !! k = (if falsy v then None else Some v).
Proof.
  rewrite new_MessageDict_fill. intros <-%Return_inj Hk.
  split.
  - apply getattr_fill; [apply fields_NoDup| |exact Hk].
    intros k' _. apply lookup_empty.
  - rewrite (items_fill _ _ k v (fields_NoDup b) Hk). cbn.
    now rewrite lookup_empty.
Qed.

Lemma new_MessageDict_other (b : Breakpoint)
    (hidden : gmap string value) (d : MessageDict) (k : string) :
  new_MessageDict (Message b) hidden = Return d ->
  assoc k (all_fields b) = None ->
  items d !! k = None
  /\ getattr d k = match hidden !! k with
                   | Some v => Return v
                   | None => Raise (AttributeError "Breakpoint" k)
                   end.
Proof.
  rewrite new_MessageDict_fill. intros <-%Return_inj Hk%assoc_keys.
  split.
  - rewrite items_fill_other by exact Hk. apply lookup_empty.
  - rewrite getattr_fill_other by exact Hk. unfold getattr. cbn.
    now rewrite lookup_empty.
Qed.

(** *** [HideExistingField] *)

Lemma Hide_same (d : MessageDict) (k : string) (v : value) :
  getattr d k = Return v ->
  getattr (HideExistingField d k) k = Return v.
Proof.
  unfold HideExistingField, getattr.
  destruct (hidden_fields d !! k) as [h|] eqn:Eh; [now rewrite Eh|].
  cbn. rewrite lookup_delete_eq, lookup_insert_eq.
  destruct (items d !! k); [now intros [= ->]|discriminate].
Qed.

Lemma Hide_other (d : MessageDict) (k k' : string) :
  k <> k' ->
  getattr (HideExistingField d k) k' = getattr d k'
  /\ items (HideExistingField d k) !! k' = items d !! k'.
Proof.
  intros Hne. unfold HideExistingField, getattr.
  destruct (hidden_fields d !! k) as [h|] eqn:Eh; [auto|].
  cbn. now rewrite lookup_delete_ne, lookup_insert_ne.
Qed.

Lemma Hide_items (d : MessageDict) (k : string) :
  hidden_fields d !! k = None ->
  items (HideExistingField d k) !! k = None
  /\ getattr (HideExistingField d k) k
     = Return (default VNone (items d !! k)).
Proof.
  intros Eh. unfold HideExistingField, getattr. rewrite Eh. cbn.
  now rewrite lookup_delete_eq, lookup_insert_eq.
Qed.

Lemma Hide_twice (d : MessageDict) (k : string) :
  HideExistingField (HideExistingField d k) k = HideExistingField d k.
Proof.
  unfold HideExistingField at 1.
  destruct (hidden_fields (HideExistingField d k) !! k) eqn:E;
    [reflexivity|].
  exfalso. revert E. unfold HideExistingField.
  destruct (hidden_fields d !! k) eqn:Eh; [congruence|].
  cbn. now rewrite lookup_insert_eq.
Qed.

End DictFacts.

(** ** Decorated breakpoints *)

Module DecorationFacts.
Import Breakpoints BreakpointSpec CodecSpec Aux Locations Decoration
       BreakpointFacts DictFacts.

(** *** The console URL *)

Lemma urlencode_query (data : list (string * value)) :
  forall data' : list (string * string),
    Forall2 (fun x y => fst x = fst y /\ py_str (snd x) = Return (snd y))
            data data' ->
    urlencode data = Return (query_string data').
Proof.
  induction data as [|[k v] r IH]; intros data' H.
  - apply Forall2_nil_inv_l in H as ->. reflexivity.
  - apply Forall2_cons_inv_l in H as ([k' s] & r' & [Hk Hv] & Hr & ->).
    cbn in Hk, Hv. subst k'.
    cbn [urlencode query_string]. rewrite Hv.
    cbn [mbind outcome_mbind outcome_bind].
    rewrite (IH r' Hr). cbn [mbind outcome_mbind outcome_bind].
    destruct Hr; reflexivity.
Qed.

Lemma DebugViewUrl_console (self : Debuggee) (b : Breakpoint) :
  DebugViewUrl (wrapped self b) = Return (console_url self b).
Proof.
  unfold DebugViewUrl, console_url.
  rewrite (wrapped_hidden self b "project_number"
             (VInt (project_number self)));
    [|rewrite all_fields_keys; cbn; intuition discriminate | reflexivity].
  rewrite (wrapped_hidden self b "target_uniquifier"
             (VStr (target_uniquifier self)));
    [|rewrite all_fields_keys; cbn; intuition discriminate | reflexivity].
  rewrite (wrapped_field self b "id" (VStr (id b)) eq_refl).
  rewrite (wrapped_field self b "location"
             (of_option VLocation (location b)) eq_refl).
  cbn [mbind outcome_mbind outcome_bind].
  destruct (location b) as [l|]; cbn [of_option falsy].
  - destruct (String.eqb (path l) ""), (line l =? 0)%Z;
      cbn [negb app mbind outcome_mbind outcome_bind];
      (erewrite urlencode_query;
       [reflexivity|repeat constructor]).
  - cbn [negb app mbind outcome_mbind outcome_bind].
    erewrite urlencode_query; [reflexivity|repeat constructor].
Qed.

(** *** The result of [AddTargetInfo] on a message *)

Lemma AddTargetInfo_Message (self : Debuggee) (b : Breakpoint) :
  AddTargetInfo self (Message b)
  = match logMessageFormat b with
    | Some f =>
        if String.eqb f "" then Return (decorated self b None)
        else merged ← MergeLogExpressions f (expressions b);
             Return (decorated self b (Some merged))
    | None => Return (decorated self b None)
    end.
Proof.
  unfold AddTargetInfo.
  fold (hidden_of self). rewrite new_MessageDict_Message.
  cbn [mbind outcome_mbind outcome_bind].
  rewrite DebugViewUrl_console.
  cbn [mbind outcome_mbind outcome_bind attr assoc all_fields String.eqb
       Ascii.eqb Bool.eqb].
  unfold decorated.
  destruct (location b) as [l|], (logMessageFormat b) as [f|];
    cbn [of_option falsy mbind outcome_mbind outcome_bind];
    try reflexivity;
    destruct (String.eqb f ""); reflexivity.
Qed.

(** *** The entries of a decorated breakpoint *)

Lemma set_item_ne (d : MessageDict) (k k' : string) (v : value) :
  k <> k' ->
  getattr (set_item d k v) k' = getattr d k'
  /\ items (set_item d k v) !! k' = items d !! k'.
Proof.
  intros Hne. unfold getattr, set_item. cbn.
  now rewrite lookup_insert_ne.
Qed.

Lemma set_item_eq (d : MessageDict) (k : string) (v : value) :
  getattr (set_item d k v) k = Return v
  /\ items (set_item d k v) !! k = Some v.
Proof.
  unfold getattr, set_item. cbn. now rewrite lookup_insert_eq.
Qed.

Lemma decorated_other (self : Debuggee) (b : Breakpoint)
    (merged : option string) (k : string) :
  ~ In k ["consoleViewUrl"; "location"; "logMessageFormat";
          "expressions"] ->
  getattr (decorated self b merged) k = getattr (wrapped self b) k
  /\ items (decorated self b merged) !! k = items (wrapped self b) !! k.
Proof.
  intros Hk. cbn in Hk. unfold decorated.
  assert (H1 : "consoleViewUrl" <> k) by tauto.
  assert (H2 : "location" <> k) by tauto.
  assert (H3 : "logMessageFormat" <> k) by tauto.
  assert (H4 : "expressions" <> k) by tauto.
  set (r1 := set_item (wrapped self b) "consoleViewUrl" _).
  set (r2 := match location b with
             | Some l => set_item r1 "location" (VStr (shown l))
             | None => r1
             end).
  destruct (set_item_ne (wrapped self b) "consoleViewUrl" k
              (VStr (console_url self b)) H1) as [E1 E1'].
  fold r1 in E1, E1'.
  assert (getattr r2 k = getattr r1 k
          /\ items r2 !! k = items r1 !! k) as [E2 E2'].
  { subst r2. destruct (location b); [now apply set_item_ne|auto]. }
  destruct merged as [m|].
  - destruct (Hide_other (set_item r2 "logMessageFormat" (VStr m))
                "expressions" k H4) as [-> ->].
    destruct (set_item_ne r2 "logMessageFormat" k (VStr m) H3)
      as [-> ->].
    split; congruence.
  - split; congruence.
Qed.

Lemma wrapped_items (self : Debuggee) (b : Breakpoint) (k : string)
    (v : value) :
  assoc k (all_fields b) = Some v ->
  items (wrapped self b) !! k = (if falsy v then None else Some v).
Proof.
  intros Hk. unfold wrapped.
  rewrite (items_fill _ _ k v (fields_NoDup b) Hk). cbn.
  now rewrite lookup_empty.
Qed.

Lemma wrapped_items_other (self : Debuggee) (b : Breakpoint)
    (k : string) :
  ~ In k (keys (all_fields b)) -> items (wrapped self b) !! k = None.
Proof.
  intros Hk. unfold wrapped. rewrite items_fill_other by exact Hk.
  apply lookup_empty.
Qed.

(** The four attributes of the debuggee are attributes of the result,
    and none of them is a key of it. *)
Lemma decorated_target (self : Debuggee) (b : Breakpoint)
    (merged : option string) (k : string) (v : value) :
  hidden_of self !! k = Some v ->
  getattr (decorated self b merged) k = Return v
  /\ items (decorated self b merged) !! k = None.
Proof.
  intros Hv.
  assert (Hk : In k ["project_id"; "project_number"; "target_uniquifier";
                     "target_id"]).
  { unfold hidden_of in Hv.
    apply elem_of_list_to_map_2 in Hv. apply list_elem_of_In in Hv.
    cbn in Hv. cbn. intuition congruence. }
  assert (Hf : ~ In k (keys (all_fields b))).
  { rewrite all_fields_keys. cbn in Hk |- *.
    intuition (subst; discriminate). }
  destruct (decorated_other self b merged k) as [-> ->].
  { cbn in Hk |- *. intuition (subst; discriminate). }
  split; [now apply wrapped_hidden | now apply wrapped_items_other].
Qed.

Lemma decorated_field (self : Debuggee) (b : Breakpoint)
    (merged : option string) (k : string) (v : value) :
  assoc k (all_fields b) = Some v ->
  ~ In k ["location"; "logMessageFormat"; "expressions"] ->
  getattr (decorated self b merged) k = Return v
  /\ items (decorated self b merged) !! k
     = (if falsy v then None else Some v).
Proof.
  intros Hk Hn.
  destruct (decorated_other self b merged k) as [-> ->].
  { cbn in Hn |- *. intros [<-|H]; [discriminate|tauto]. }
  split; [now apply wrapped_field | now apply wrapped_items].
Qed.

Lemma decorated_url (self : Debuggee) (b : Breakpoint)
    (merged : option string) :
  items (decorated self b merged) !! "consoleViewUrl"
  = Some (VStr (console_url self b)).
Proof.
  unfold decorated.
  destruct merged as [m|], (location b) as [l|];
    repeat first
      [ rewrite (proj2 (Hide_other _ "expressions" "consoleViewUrl"
                          ltac:(discriminate)))
      | rewrite (proj2 (set_item_ne _ "logMessageFormat" "consoleViewUrl"
                          _ ltac:(discriminate)))
      | rewrite (proj2 (set_item_ne _ "location" "consoleViewUrl"
                          _ ltac:(discriminate))) ];
    apply set_item_eq.
Qed.

Lemma decorated_location (self : Debuggee) (b : Breakpoint)
    (merged : option string) :
  items (decorated self b merged) !! "location"
  = (VStr ∘ shown) <$> location b.
Proof.
  unfold decorated.
  destruct merged as [m|];
    repeat first
      [ rewrite (proj2 (Hide_other _ "expressions" "location"
                          ltac:(discriminate)))
      | rewrite (proj2 (set_item_ne _ "logMessageFormat" "location"
                          _ ltac:(discriminate))) ];
    (destruct (location b) as [l|] eqn:El;
     [apply set_item_eq|]);
    rewrite (proj2 (set_item_ne _ "consoleViewUrl" "location"
                      _ ltac:(discriminate)));
    rewrite (wrapped_items self b "location" VNone);
    try reflexivity; cbn; now rewrite El.
Qed.

Lemma decorated_log (self : Debuggee) (b : Breakpoint) (m : string) :
  items (decorated self b (Some m)) !! "logMessageFormat"
  = Some (VStr m)
  /\ items (decorated self b (Some m)) !! "expressions" = None
  /\ getattr (decorated self b (Some m)) "expressions"
     = Return (VStrings (expressions b)).
Proof.
  unfold decorated.
  set (d := set_item _ "logMessageFormat" (VStr m)).
  assert (Hg : getattr d "expressions"
               = Return (VStrings (expressions b))).
  { subst d.
    rewrite (proj1 (set_item_ne _ "logMessageFormat" "expressions"
                      _ ltac:(discriminate))).
    destruct (location b);
      rewrite ?(proj1 (set_item_ne _ "location" "expressions"
                         _ ltac:(discriminate)));
      rewrite (proj1 (set_item_ne _ "consoleViewUrl" "expressions"
                        _ ltac:(discriminate)));
      now apply wrapped_field. }
  split; [|split].
  - rewrite (proj2 (Hide_other d "expressions" "logMessageFormat"
                      ltac:(discriminate))).
    apply set_item_eq.
  - destruct (hidden_fields d !! "expressions") as [h|] eqn:Eh.
    + unfold HideExistingField. rewrite Eh.
      subst d.
      rewrite (proj2 (set_item_ne _ "logMessageFormat" "expressions"
                        _ ltac:(discriminate))).
      destruct (location b);
        rewrite ?(proj2 (set_item_ne _ "location" "expressions"
                           _ ltac:(discriminate)));
        rewrite (proj2 (set_item_ne _ "consoleViewUrl" "expressions"
                          _ ltac:(discriminate)));
        rewrite (wrapped_items self b "expressions"
                   (VStrings (expressions b)) eq_refl).
      all: destruct (falsy (VStrings (expressions b))) eqn:Ef;
        [reflexivity|].
      all: exfalso; revert Eh; cbn [hidden_fields set_item];
        unfold wrapped;
        rewrite (hidden_fill _ _ "expressions"
                   (VStrings (expressions b)) (fields_NoDup b) eq_refl);
        rewrite Ef; cbn; discriminate.
    + now apply Hide_items.
  - now apply Hide_same.
Qed.

End DecorationFacts.

(** ** Listings *)

Module ListingFacts.
Import Breakpoints BreakpointSpec CodecSpec Aux Locations Decoration
       Listing BreakpointFacts DictFacts DecorationFacts.

(** *** The filter of [_FilteredDictListWithInfo] *)

Lemma of_type_Message (b : Breakpoint) (t : option Action) :
  of_type (Message b) t = Return (kept t b).
Proof.
  unfold of_type, kept. destruct t as [t|]; [|reflexivity].
  cbn [attr assoc all_fields String.eqb Ascii.eqb Bool.eqb mbind
       outcome_mbind outcome_bind].
  destruct (action b) as [a|]; cbn; [|reflexivity].
  now rewrite orb_false_r.
Qed.

Lemma Filtered_cons (self : Debuggee) (b : Breakpoint)
    (bs : list Breakpoint) (t : option Action) :
  _FilteredDictListWithInfo self (Message <$> (b :: bs)) t
  = if kept t b
    then x ← AddTargetInfo self (Message b);
         xs ← _FilteredDictListWithInfo self (Message <$> bs) t;
         Return (x :: xs)
    else _FilteredDictListWithInfo self (Message <$> bs) t.
Proof.
  cbn [fmap list_fmap _FilteredDictListWithInfo].
  rewrite of_type_Message. reflexivity.
Qed.

Lemma Filtered_Return (self : Debuggee) (t : option Action)
    (bs : list Breakpoint) :
  forall out : list MessageDict,
    _FilteredDictListWithInfo self (Message <$> bs) t = Return out ->
    Forall2 (fun r b => AddTargetInfo self (Message b) = Return r)
            out (List.filter (kept t) bs).
Proof.
  induction bs as [|b bs IH]; intros out.
  - intros [= <-]. constructor.
  - rewrite Filtered_cons. cbn [List.filter].
    destruct (kept t b); [|apply IH].
    destruct (AddTargetInfo self (Message b)) as [x|e|] eqn:Ex;
      cbn [mbind outcome_mbind outcome_bind]; try discriminate.
    destruct (_FilteredDictListWithInfo self (Message <$> bs) t)
      as [xs|e|] eqn:Exs;
      cbn [mbind outcome_mbind outcome_bind]; try discriminate.
    intros [= <-]. constructor; [exact Ex|now apply IH].
Qed.

Lemma Filtered_Raise (self : Debuggee) (t : option Action)
    (bs : list Breakpoint) (e : exn) :
  _FilteredDictListWithInfo self (Message <$> bs) t = Raise e ->
  exists b, In b (List.filter (kept t) bs)
            /\ AddTargetInfo self (Message b) = Raise e.
Proof.
  induction bs as [|b bs IH]; [discriminate|].
  rewrite Filtered_cons. cbn [List.filter].
  destruct (kept t b).
  - destruct (AddTargetInfo self (Message b)) as [x|e'|] eqn:Ex;
      cbn [mbind outcome_mbind outcome_bind]; try discriminate.
    + destruct (_FilteredDictListWithInfo self (Message <$> bs) t)
        as [xs|e'|] eqn:Exs;
        cbn [mbind outcome_mbind outcome_bind]; try discriminate.
      intros [= <-]. destruct (IH eq_refl) as (b' & Hb' & Hr).
      exists b'. split; [now right|exact Hr].
    + intros [= <-]. exists b. split; [now left|exact Ex].
  - intros H. destruct (IH H) as (b' & Hb' & Hr). eauto.
Qed.

Lemma AddTargetInfo_plain (self : Debuggee) (b : Breakpoint) :
  plain b = true ->
  AddTargetInfo self (Message b) = Return (decorated self b None).
Proof.
  unfold plain. rewrite AddTargetInfo_Message.
  destruct (logMessageFormat b) as [f|]; [|reflexivity].
  cbn. now destruct (String.eqb f "").
Qed.

Lemma decorated_no_format (self : Debuggee) (b : Breakpoint) :
  plain b = true ->
  items (decorated self b None) !! "logMessageFormat" = None.
Proof.
  intros Hp. unfold decorated.
  destruct (location b);
    rewrite ?(proj2 (set_item_ne _ "location" "logMessageFormat"
                       _ ltac:(discriminate)));
    rewrite (proj2 (set_item_ne _ "consoleViewUrl" "logMessageFormat"
                      _ ltac:(discriminate)));
    rewrite (wrapped_items self b "logMessageFormat"
               (of_option VStr (logMessageFormat b)) eq_refl).
  all: unfold plain in Hp; destruct (logMessageFormat b) as [f|];
    [|reflexivity]; cbn in Hp |- *;
    now destruct (String.eqb f "").
Qed.

Lemma Filtered_plain (self : Debuggee) (t : option Action)
    (bs : list Breakpoint) :
  Forall (fun b => plain b = true) (List.filter (kept t) bs) ->
  _FilteredDictListWithInfo self (Message <$> bs) t
  = Return ((fun b => decorated self b None)
            <$> List.filter (kept t) bs).
Proof.
  induction bs as [|b bs IH]; [reflexivity|].
  rewrite Filtered_cons. cbn [List.filter].
  destruct (kept t b); [|exact IH].
  intros [Hb Hbs]%Forall_cons.
  rewrite (AddTargetInfo_plain self b Hb), (IH Hbs). reflexivity.
Qed.

(** *** [ListBreakpoints] *)

Lemma ListBreakpoints_unfold (svc : Service) (self : Debuggee)
    (a i : bool) (t : option Action) (log : list call) :
  ListBreakpoints svc self a i t log
  = if clients_ready svc
    then
      (listed ← breakpoints_List svc (target_id self) a i;
       _FilteredDictListWithInfo self (Message <$> listed) t,
       (log ++ [ListCall (target_id self) a i])%list)
    else (Raise NoEndpointError, log).
Proof.
  unfold ListBreakpoints, mbind, rpc_mbind, rpc_bind, lift, _CheckClient.
  destruct (clients_ready svc); [|reflexivity].
  destruct (breakpoints_List svc (target_id self) a i); reflexivity.
Qed.

End ListingFacts.

(** ** Listings by ID or pattern *)

Module MatchingFacts.
Import Breakpoints BreakpointSpec CodecSpec Aux Locations Decoration
       Listing BreakpointFacts DictFacts DecorationFacts ListingFacts.

Section WithEngine.
Context `{RegexEngine}.

Lemma compile_all_Return (ps : list string) :
  forall cs, compile_all ps = Return cs ->
    forall c, In c cs -> exists p, In p ps /\ re_compile p = Some c.
Proof.
  induction ps as [|p ps IH]; intros cs.
  - intros [= <-] c [].
  - cbn [compile_all]. destruct (re_compile p) as [c0|] eqn:Ep;
      [|discriminate].
    destruct (compile_all ps) as [cs'|e|]; cbn; try discriminate.
    intros [= <-] c [<-|Hc].
    + exists p. split; [now left|exact Ep].
    + destruct (IH cs' eq_refl c Hc) as (q & Hq & Eq).
      exists q. split; [now right|exact Eq].
Qed.

Lemma compile_all_fail (ps : list string) (p : string) :
  In p ps -> re_compile p = None -> compile_all ps = Raise RegexError.
Proof.
  induction ps as [|q ps IH]; intros Hin Hp; [destruct Hin|].
  cbn [compile_all]. destruct (re_compile q) as [c|] eqn:Eq;
    [|reflexivity].
  destruct Hin as [->|Hin]; [congruence|].
  now rewrite (IH Hin Hp).
Qed.

Lemma Forall2_In_l {A B} (P : A -> B -> Prop) (l : list A)
    (l' : list B) (x : A) :
  Forall2 P l l' -> In x l -> exists y, In y l' /\ P x y.
Proof.
  induction 1 as [|a b l l' Hab _ IH]; intros Hx; [destruct Hx|].
  destruct Hx as [<-|Hx].
  - exists b. split; [now left|exact Hab].
  - destruct (IH Hx) as (y & Hy & Hp). exists y. split; [now right|auto].
Qed.

(** What it is for a breakpoint to match one of the requested IDs or
    patterns. *)
Lemma Matches_sound (requested : list string) (bp : Breakpoint)
    (patterns : list compiled) :
  let ids : gset string :=
    list_to_set (List.filter _BREAKPOINT_ID_PATTERN requested) in
  compile_all (elements (list_to_set requested ∖ ids : gset string))
  = Return patterns ->
  _MatchesIdOrRegexp bp ids patterns = true ->
  In (id bp) requested
  \/ exists l p re,
       location bp = Some l /\ In p requested
       /\ re_compile p = Some re /\ re_search re (shown l) = true.
Proof.
  intros ids Hc. unfold _MatchesIdOrRegexp.
  destruct (bool_decide_reflect (id bp ∈ ids)) as [Hid|_].
  - intros _. left. unfold ids in Hid.
    apply elem_of_list_to_set, list_elem_of_In, filter_In in Hid.
    tauto.
  - destruct (location bp) as [l|]; [|discriminate].
    intros (c & Hcin & Hs)%existsb_exists. right.
    destruct (compile_all_Return _ _ Hc c Hcin) as (p & Hp & Ep).
    exists l, p, c. repeat split; auto.
    apply list_elem_of_In, elem_of_elements, elem_of_difference in Hp
      as [Hp _].
    now apply elem_of_list_to_set, list_elem_of_In in Hp.
Qed.

(** *** When no Get call is needed *)

Lemma ListMatching_listed (svc : Service) (self : Debuggee)
    (requested : list string) (a i : bool) (t : option Action)
    (log log' : list call) (o : outcome (list MessageDict)) :
  (forall listed,
     breakpoints_List svc (target_id self) a i = Return listed ->
     forall x, In x requested -> _BREAKPOINT_ID_PATTERN x = true ->
               In x (List.map id listed)) ->
  ListMatchingBreakpoints svc self requested a i t log = (o, log') ->
  (log' = log \/ log' = (log ++ [ListCall (target_id self) a i])%list)
  /\ forall out, o = Return out ->
       forall r, In r out ->
         exists b listed,
           breakpoints_List svc (target_id self) a i = Return listed
           /\ In b listed /\ kept t b = true
           /\ AddTargetInfo self (Message b) = Return r
           /\ (In (id b) requested
               \/ exists l p re,
                    location b = Some l /\ In p requested
                    /\ re_compile p = Some re
                    /\ re_search re (shown l) = true).
Proof.
  intros Hall.
  unfold ListMatchingBreakpoints, mbind, rpc_mbind, rpc_bind, lift,
    _CheckClient.
  destruct (clients_ready svc);
    [|intros [= <- <-]; split; [now left|discriminate]].
  destruct (compile_all _) as [patterns|e|] eqn:Ec;
    try (intros [= <- <-]; split; [now left|discriminate]).
  destruct (breakpoints_List svc (target_id self) a i)
    as [listed|e|] eqn:El;
    try (intros [= <- <-]; split; [now right|discriminate]).
  specialize (Hall listed eq_refl).
  set (ids := list_to_set (List.filter _BREAKPOINT_ID_PATTERN requested)
              : gset string) in *.
  set (result := List.filter
                   (fun bp => _MatchesIdOrRegexp bp ids patterns)
                   listed).
  assert (Hmiss : elements (ids ∖ list_to_set (id <$> result)) = []).
  { rewrite <- (elements_empty (C:=gset string)). f_equal.
    apply set_eq. intros x.
    rewrite elem_of_difference, elem_of_list_to_set.
    split; [|intros []%not_elem_of_empty].
    intros [Hx Hn]. exfalso. apply Hn.
    unfold ids in Hx.
    apply elem_of_list_to_set, list_elem_of_In, filter_In in Hx
      as [Hx Hp].
    specialize (Hall x Hx Hp).
    apply in_map_iff in Hall as (bp & <- & Hbp).
    apply list_elem_of_In.
    change (id <$> result) with (List.map id result).
    apply in_map. unfold result. apply filter_In. split; [exact Hbp|].
    unfold _MatchesIdOrRegexp.
    rewrite bool_decide_eq_true_2; [reflexivity|].
    unfold ids. apply elem_of_list_to_set, list_elem_of_In, filter_In.
    auto. }
  rewrite Hmiss. cbn [fetch_missing mret rpc_mret fmap list_fmap].
  rewrite app_nil_r.
  intros [= <- <-]. split; [now right|].
  intros out Hout r Hr.
  apply Filtered_Return in Hout.
  destruct (Forall2_In_l _ _ _ r Hout Hr) as (b & Hb & Hbr).
  apply filter_In in Hb as [Hb Hk].
  unfold result in Hb. apply filter_In in Hb as [Hb Hm].
  exists b, listed. repeat split; auto.
  exact (Matches_sound requested b patterns Ec Hm).
Qed.

Lemma ListMatching_nothing (svc : Service) (self : Debuggee)
    (a i : bool) (t : option Action) (log : list call)
    (listed : list Breakpoint) :
  clients_ready svc = true ->
  breakpoints_List svc (target_id self) a i = Return listed ->
  ListMatchingBreakpoints svc self [] a i t log
  = (Return [], (log ++ [ListCall (target_id self) a i])%list).
Proof.
  intros Hr Hl.
  unfold ListMatchingBreakpoints, mbind, rpc_mbind, rpc_bind, lift,
    _CheckClient.
  rewrite Hr. cbn [List.filter list_to_set foldr].
  assert ((∅ ∖ ∅ : gset string) = ∅) as -> by set_solver.
  rewrite elements_empty. cbn [compile_all]. rewrite Hl.
  assert (List.filter (fun bp => _MatchesIdOrRegexp bp ∅ []) listed
          = []) as ->.
  { clear Hl. induction listed as [|b bs IH]; [reflexivity|].
    cbn [List.filter]. unfold _MatchesIdOrRegexp at 1.
    rewrite bool_decide_eq_false_2 by set_solver.
    destruct (location b); cbn [existsb]; exact IH. }
  cbn [fmap list_fmap list_to_set foldr].
  assert ((∅ ∖ ∅ : gset string) = ∅) as -> by set_solver.
  rewrite elements_empty. reflexivity.
Qed.

Lemma ListMatching_bad_pattern (svc : Service) (self : Debuggee)
    (requested : list string) (a i : bool) (t : option Action)
    (log : list call) (p : string) :
  clients_ready svc = true ->
  In p requested -> _BREAKPOINT_ID_PATTERN p = false ->
  re_compile p = None ->
  ListMatchingBreakpoints svc self requested a i t log
  = (Raise RegexError, log).
Proof.
  intros Hr Hp Hid Hc.
  unfold ListMatchingBreakpoints, mbind, rpc_mbind, rpc_bind, lift,
    _CheckClient.
  rewrite Hr.
  rewrite (compile_all_fail _ p); [reflexivity| |exact Hc].
  apply list_elem_of_In, elem_of_elements, elem_of_difference. split.
  - now apply elem_of_list_to_set, list_elem_of_In.
  - rewrite elem_of_list_to_set. intros Hin.
    apply list_elem_of_In, filter_In in Hin as [_ Hin]. congruence.
Qed.

Lemma ListMatching_not_ready (svc : Service) (self : Debuggee)
    (requested : list string) (a i : bool) (t : option Action)
    (log : list call) :
  clients_ready svc = false ->
  ListMatchingBreakpoints svc self requested a i t log
  = (Raise NoEndpointError, log).
Proof.
  intros Hr.
  unfold ListMatchingBreakpoints, mbind, rpc_mbind, rpc_bind, lift,
    _CheckClient.
  now rewrite Hr.
Qed.

End WithEngine.

End MatchingFacts.

(** ** Creating breakpoints *)

Module CreationFacts.
Import Breakpoints CodecSpec Aux TextFacts Locations Decoration Listing
       Creation BraceFacts MergeFacts CodecMore LocationFacts DictFacts
       DecorationFacts ListingFacts.

(** *** The encoded format is not empty *)

Lemma parse_inside_not_nil (r : string) :
  forall (d : nat) (cur : string),
    depth_from (S d) r = 0%nat -> parse_from (S d) cur r <> [].
Proof.
  induction r as [|x r IH]; intros d cur; [discriminate|].
  cbn [depth_from parse_from].
  destruct (Ascii.eqb x "{"); [apply IH|].
  destruct (Ascii.eqb x "}"); [|apply IH].
  destruct d as [|d]; [discriminate|apply IH].
Qed.

Lemma render_not_empty (E : list string) (sep : bool)
    (items : list item) :
  items <> [] -> render_from E sep items <> "".
Proof.
  destruct items as [|[x|t] r]; [congruence| |]; intros _;
    cbn [render_from].
  - destruct (sep && isdigit x); discriminate.
  - discriminate.
Qed.

Lemma Split_not_empty (fmt encoded : string) (exprs : list string) :
  SplitLogExpressions fmt = Return (encoded, exprs) ->
  fmt <> "" -> encoded <> "".
Proof.
  rewrite SplitFacts.Split_parse.
  destruct (Nat.eqb_spec (depth_from 0 fmt) 0) as [Hd|]; [|discriminate].
  intros [= <- _] Hf. apply render_not_empty.
  destruct fmt as [|x r]; [congruence|].
  unfold parse. cbn [parse_from]. cbn [depth_from] in Hd.
  destruct (Ascii.eqb x "{"); [now apply parse_inside_not_nil|discriminate].
Qed.

Section WithClient.
Variable c : Client.
Variable self : Debuggee.

(** *** [CreateLogpoint] *)

(** The breakpoint that [CreateLogpoint] asks the service to set. *)
Lemma CreateLogpoint_runs (location fmt : string)
    (log_level condition user_email : option string)
    (labels : option (gmap string string)) (log : list request)
    (l : SourceLocation) (level : option LogLevel) (encoded : string)
    (exprs : list string) :
  clients_ready (service c) = true ->
  location <> "" -> fmt <> "" ->
  _LocationFromString location = Return l ->
  log_level_value c log_level = Return level ->
  SplitLogExpressions fmt = Return (encoded, exprs) ->
  let req :=
    {| Request.location := l;
       Request.condition := condition;
       Request.logLevel := level;
       Request.logMessageFormat := Some encoded;
       Request.expressions := exprs;
       Request.labels := labels_value labels;
       Request.userEmail := user_email;
       Request.action := LOG |} in
  CreateLogpoint c self location fmt log_level condition user_email
                 labels log
  = (Ran (response ← breakpoints_Set c (target_id self) req;
          AddTargetInfo self (Message response)),
     (log ++ [SetCall (target_id self) req])%list).
Proof.
  intros Hr Hl Hf El Ev Es req.
  unfold CreateLogpoint, _CheckClient. rewrite Hr.
  apply String.eqb_neq in Hl, Hf. rewrite Hl, Hf.
  unfold create_logpoint, mbind, io_mbind, io_bind, pure, Set_.
  rewrite El, Ev, Es. fold req.
  destruct (breakpoints_Set c (target_id self) req); reflexivity.
Qed.

Lemma CreateLogpoint_rejects (location fmt : string)
    (log_level condition user_email : option string)
    (labels : option (gmap string string)) (log : list request) :
  location = "" \/ fmt = "" \/ count_char ":" location <> 1%nat
  \/ unclosed_top_level fmt ->
  exists v,
    CreateLogpoint c self location fmt log_level condition user_email
                   labels log = (v, log)
    /\ forall d, v <> Ran (Return d).
Proof.
  intros H. unfold CreateLogpoint.
  destruct (_CheckClient (service c)) as [[]|e|];
    [|eexists; split; [reflexivity|discriminate]..].
  destruct (String.eqb_spec location "") as [->|Hl];
    [eexists; split; [reflexivity|discriminate]|].
  destruct (String.eqb_spec fmt "") as [->|Hf];
    [eexists; split; [reflexivity|discriminate]|].
  unfold create_logpoint, mbind, io_mbind, io_bind, pure.
  destruct (_LocationFromString location) as [l|e|] eqn:El;
    [|eexists; split; [reflexivity|discriminate]..].
  destruct (log_level_value c log_level) as [level|e|];
    [|eexists; split; [reflexivity|discriminate]..].
  destruct (SplitLogExpressions fmt) as [[encoded exprs]|e|] eqn:Es;
    [|eexists; split; [reflexivity|discriminate]..].
  exfalso. destruct H as [H|[H|[H|H]]]; [congruence..| |].
  - apply LocationFromString_malformed in H. congruence.
  - apply Split_raises in H. congruence.
Qed.

(** *** [CreateSnapshot] *)

Lemma CreateSnapshot_runs (location : string)
    (condition : option string) (expressions : option (list string))
    (user_email : option string)
    (labels : option (gmap string string)) (log : list request)
    (l : SourceLocation) :
  clients_ready (service c) = true ->
  _LocationFromString location = Return l ->
  let req :=
    {| Request.location := l;
       Request.condition := condition;
       Request.logLevel := None;
       Request.logMessageFormat := None;
       Request.expressions := default [] expressions;
       Request.labels := labels_value labels;
       Request.userEmail := user_email;
       Request.action := CAPTURE |} in
  CreateSnapshot c self location condition expressions user_email
                 labels log
  = (response ← breakpoints_Set c (target_id self) req;
     AddTargetInfo self (Message response),
     (log ++ [SetCall (target_id self) req])%list).
Proof.
  intros Hr El req.
  unfold CreateSnapshot, _CheckClient, mbind, io_mbind, io_bind, pure,
    Set_.
  rewrite Hr, El.
  assert (match expressions with
          | Some (e :: l0) => e :: l0
          | _ => []
          end = default [] expressions) as ->
    by (destruct expressions as [[|? ?]|]; reflexivity).
  fold req.
  destruct (breakpoints_Set c (target_id self) req); reflexivity.
Qed.

Lemma CreateSnapshot_malformed (location : string)
    (condition : option string) (expressions : option (list string))
    (user_email : option string)
    (labels : option (gmap string string)) (log : list request) :
  clients_ready (service c) = true ->
  count_char ":" location <> 1%nat ->
  CreateSnapshot c self location condition expressions user_email
                 labels log
  = (Raise (ValueError MalformedLocation), log).
Proof.
  intros Hr Hl%LocationFromString_malformed.
  unfold CreateSnapshot, _CheckClient, mbind, io_mbind, io_bind, pure.
  now rewrite Hr, Hl.
Qed.

End WithClient.

End CreationFacts.

(** ** The caches of project numbers *)

Module ProjectFacts.
Import Breakpoints Projects.

Section WithService.
Variable GetProject : string -> outcome Project.

Lemma coherent_initial : coherent initial.
Proof.
  split; intros ? ? H; cbn in H; now rewrite lookup_empty in H.
Qed.

Lemma GetProjectNumber_hit (project_id : string) (st : state) (n : Z) :
  _project_id_to_number_cache st !! project_id = Some n ->
  GetProjectNumber GetProject project_id st = (Return n, st).
Proof. intros H. unfold GetProjectNumber. now rewrite H. Qed.

Lemma GetProjectId_hit (n : Z) (st : state) (i : string) :
  _project_number_to_id_cache st !! n = Some i ->
  GetProjectId GetProject n st = (Return i, st).
Proof. intros H. unfold GetProjectId. now rewrite H. Qed.

(** A project that the service reports is in both caches. *)
Lemma GetProjectNumber_miss (project_id : string) (st : state)
    (p : Project) :
  _project_id_to_number_cache st !! project_id = None ->
  GetProject project_id = Return p ->
  exists st',
    GetProjectNumber GetProject project_id st
    = (Return (projectNumber p), st')
    /\ asked st' = (asked st ++ [project_id])%list
    /\ _project_id_to_number_cache st' !! projectId p
       = Some (projectNumber p)
    /\ _project_number_to_id_cache st' !! projectNumber p
       = Some (projectId p).
Proof.
  intros Hc Hg. unfold GetProjectNumber. rewrite Hc, Hg.
  eexists. split; [reflexivity|]. cbn.
  now rewrite !lookup_insert_eq.
Qed.

Lemma GetProjectNumber_coherent (project_id : string) (st st' : state)
    (o : outcome Z) :
  coherent st ->
  GetProjectNumber GetProject project_id st = (o, st') ->
  coherent st'.
Proof.
  intros [H1 H2]. unfold GetProjectNumber.
  destruct (_ !! project_id) as [n|]; [now intros [= _ <-]|].
  destruct (GetProject project_id) as [p|e|];
    intros [= _ <-]; [|now split..].
  split; cbn [_project_id_to_number_cache _project_number_to_id_cache].
  - intros i n.
    destruct (decide (projectNumber p = n)) as [<-|Hn].
    + intros _. rewrite lookup_insert_eq. eauto.
    + rewrite (lookup_insert_ne _ (projectNumber p) n) by exact Hn.
      destruct (decide (projectId p = i)) as [<-|Hi].
      * rewrite lookup_insert_eq. congruence.
      * rewrite lookup_insert_ne by exact Hi. apply H1.
  - intros n i.
    destruct (decide (projectId p = i)) as [<-|Hi].
    + intros _. rewrite lookup_insert_eq. eauto.
    + rewrite (lookup_insert_ne _ (projectId p) i) by exact Hi.
      destruct (decide (projectNumber p = n)) as [<-|Hn].
      * rewrite lookup_insert_eq. congruence.
      * rewrite lookup_insert_ne by exact Hn. apply H2.
Qed.

Lemma GetProjectId_coherent (n : Z) (st st' : state)
    (o : outcome string) :
  coherent st -> GetProjectId GetProject n st = (o, st') ->
  coherent st'.
Proof.
  intros Hc. unfold GetProjectId.
  destruct (_ !! n) as [i|]; [now intros [= _ <-]|].
  destruct (GetProjectNumber GetProject (decimalZ n) st)
    as [[m|e|] st1] eqn:E;
    intros [= _ <-]; exact (GetProjectNumber_coherent _ _ _ _ Hc E).
Qed.

(** After the number of a project was found, its ID is found without
    asking. *)
Lemma GetProjectNumber_then_Id (project_id : string) (st st' : state)
    (n : Z) :
  coherent st ->
  GetProjectNumber GetProject project_id st = (Return n, st') ->
  exists i, GetProjectId GetProject n st' = (Return i, st').
Proof.
  intros [H1 _]. unfold GetProjectNumber.
  destruct (_ !! project_id) as [m|] eqn:Ec.
  - intros [= <- <-]. destruct (H1 _ _ Ec) as [i Hi].
    exists i. now apply GetProjectId_hit.
  - destruct (GetProject project_id) as [p|e|]; try discriminate.
    intros [= <- <-]. exists (projectId p). apply GetProjectId_hit.
    cbn. now rewrite lookup_insert_eq.
Qed.

(** The answer of [GetProjectId] does not change when it is asked
    again. *)
Lemma GetProjectId_stable (n : Z) (st st' : state) (i : string) :
  GetProjectId GetProject n st = (Return i, st') ->
  fst (GetProjectId GetProject n st') = Return i.
Proof.
  unfold GetProjectId at 1.
  destruct (_project_number_to_id_cache st !! n) as [j|] eqn:Ec.
  { intros [= <- <-]. now rewrite (GetProjectId_hit n st j Ec). }
  unfold GetProjectNumber.
  destruct (_project_id_to_number_cache st !! decimalZ n) as [m|] eqn:Ei.
  { rewrite Ec. intros [= <- <-]. unfold GetProjectId.
    rewrite Ec. unfold GetProjectNumber. now rewrite Ei, Ec. }
  destruct (GetProject (decimalZ n)) as [p|e|] eqn:Eg; try discriminate.
  cbn [_project_number_to_id_cache].
  destruct (decide (projectNumber p = n)) as [<-|Hn].
  - rewrite lookup_insert_eq. intros [= <- <-].
    unfold GetProjectId. cbn. now rewrite lookup_insert_eq.
  - rewrite (lookup_insert_ne _ (projectNumber p) n) by exact Hn.
    rewrite Ec. intros [= <- <-].
    unfold GetProjectId.
    cbn [_project_number_to_id_cache _project_id_to_number_cache].
    rewrite (lookup_insert_ne _ (projectNumber p) n) by exact Hn.
    rewrite Ec. unfold GetProjectNumber.
    cbn [_project_number_to_id_cache _project_id_to_number_cache].
    destruct (decide (projectId p = decimalZ n)) as [Hi|Hi].
    + rewrite Hi, lookup_insert_eq.
      cbn [_project_number_to_id_cache].
      rewrite (lookup_insert_ne _ (projectNumber p) n) by exact Hn.
      now rewrite Ec.
    + rewrite (lookup_insert_ne _ (projectId p) (decimalZ n))
        by exact Hi.
      rewrite Ei, Eg.
      cbn [_project_number_to_id_cache].
      rewrite !(lookup_insert_ne _ (projectNumber p) n) by exact Hn.
      now rewrite Ec.
Qed.

(** What [GetProjectId] answers. *)
Lemma GetProjectId_answer (n : Z) (st st' : state) (i : string) :
  GetProjectId GetProject n st = (Return i, st') ->
  _project_number_to_id_cache st' !! n = Some i
  \/ _project_number_to_id_cache st' !! n = None /\ i = decimalZ n.
Proof.
  unfold GetProjectId.
  destruct (_project_number_to_id_cache st !! n) as [j|] eqn:Ec.
  { intros [= <- <-]. now left. }
  destruct (GetProjectNumber GetProject (decimalZ n) st)
    as [[m|e|] st1]; try discriminate.
  intros [= <- <-].
  destruct (_project_number_to_id_cache st1 !! n); cbn; auto.
Qed.

End WithService.

End ProjectFacts.

(** * The statements of the specification *)

Import CodecSpec ResolverSpec BreakpointSpec Examples.

(** ** Expression codec *)

(** C1, as the specification states it, fails on text that already holds
    a dollar sign and a digit: ["$5"] has balanced braces, it is copied
    through, and its token 5 is no index into the empty list of
    expressions. *)
Lemma split_literal_token_out_of_range :
  ~ split_indexes_expressions "$5".
Proof.
  intros H. destruct (H eq_refl) as (enc & exprs & Hs & Hr & _).
  vm_compute in Hs. injection Hs as <- <-.
  vm_compute in Hr. inversion Hr as [|i l Hi _]. simpl in Hi. lia.
Qed.

(** C1, amended: for every format string with balanced top-level braces in
    which no dollar sign outside the expressions is directly followed by
    a digit, [SplitLogExpressions] returns [(encoded, exprs)] such that
    every token [$i] of [encoded] satisfies [0 <= i < len(exprs)], the
    tokens are in order the positions in [exprs] of the expressions of the
    string (so identical text always gets the same index), and [exprs]
    holds the distinct expressions in the order of first appearance; in
    particular the split of ["{x}{x}"] is [("$0$0", ["x"])]. *)
Theorem split_indexes_expressions_of_format :
  (forall s, literal_token_free s = true -> split_indexes_expressions s)
  /\ SplitLogExpressions "{x}{x}" = Return ("$0$0", ["x"]).
Proof.
  split; [exact SplitFacts.split_indexes | reflexivity].
Qed.

Lemma split_indexes_expressions_witness :
  literal_token_free "a={a}, b={b}{a}7" = true
  /\ split_indexes_expressions "a={a}, b={b}{a}7".
Proof.
  split; [reflexivity|].
  apply (proj1 split_indexes_expressions_of_format). reflexivity.
Defined.

(** C7, as the specification states it, fails for the same reason: the
    braces of ["{a}$0"] are balanced, its split is [("$0$0", ["a"])], and
    the merge of that is ["{a}{a}"]. *)
Lemma merge_rewrites_literal_token :
  ~ merge_restores "{a}$0".
Proof.
  intros H.
  destruct (H eq_refl) as (enc & exprs & Hs & Hm).
  - unfold representable. vm_compute. discriminate.
  - vm_compute in Hs. injection Hs as <- <-.
    vm_compute in Hm. discriminate.
Qed.

(** C7, amended: for every format string [s] with balanced top-level
    braces in which no dollar sign outside the expressions is directly
    followed by a digit, [MergeLogExpressions] applied to the output of
    [SplitLogExpressions] returns [s] with one space after every brace
    that closes a top-level expression and is directly followed by a
    digit; in particular the merge of ["a=$0, b=$1"] with [["a"; "b"]] is
    ["a={a}, b={b}"]. *)
Theorem merge_restores_format :
  (forall s, literal_token_free s = true -> merge_restores s)
  /\ MergeLogExpressions "a=$0, b=$1" ["a"; "b"] = Return "a={a}, b={b}".
Proof.
  split; [exact MergeFacts.merge_split | reflexivity].
Qed.

Lemma merge_restores_witness :
  literal_token_free "{a}5, {b{c}}{a}" = true
  /\ merge_restores "{a}5, {b{c}}{a}".
Proof.
  split; [reflexivity|].
  apply (proj1 merge_restores_format). reflexivity.
Defined.

(** C8: [SplitLogExpressions] fails, with the error of unbalanced braces,
    exactly when some top-level opening brace is never closed by the end
    of the input, and returns otherwise; a closing brace at top level is
    no error and is written to the output as it is, the brace count never
    goes below zero, and the empty input gives [("", [])]. *)
Theorem split_raises_iff_unclosed :
  (forall s, SplitLogExpressions s = Raise (ValueError UnbalancedLeftBrace)
             <-> unclosed_top_level s)
  /\ (forall s, ~ unclosed_top_level s ->
        exists encoded exprs, SplitLogExpressions s = Return (encoded, exprs))
  /\ (forall pre encoded exprs,
        SplitLogExpressions pre = Return (encoded, exprs) ->
        SplitLogExpressions (pre ++ "}") = Return (encoded ++ "}", exprs))
  /\ (forall s, (0 <= Codec.brace_count (Codec.run Codec.initial s))%Z)
  /\ SplitLogExpressions "" = Return ("", [])
  /\ SplitLogExpressions "{a" = Raise (ValueError UnbalancedLeftBrace).
Proof.
  split; [exact BraceFacts.Split_raises|].
  split; [intros s H; rewrite (BraceFacts.Split_returns s H); eauto|].
  split; [|split; [exact CodecFacts.run_count_nonneg | split; reflexivity]].
  intros pre encoded exprs H. unfold SplitLogExpressions in *.
  destruct (Z.eqb_spec (Codec.brace_count (Codec.run Codec.initial pre)) 0)
    as [E|E]; [|discriminate].
  cbn in H. injection H as <- <-.
  assert (Hd : depth_from 0 pre = O).
  { pose proof (CodecFacts.run_count pre Codec.initial 0 eq_refl) as Hc.
    rewrite E in Hc. lia. }
  destruct (BraceFacts.stray_close pre Hd) as (H1 & H2 & H3).
  now rewrite H1, H2, H3.
Qed.

Lemma split_raises_witness :
  (exists encoded exprs, SplitLogExpressions "a}b{c}" = Return (encoded, exprs))
  /\ SplitLogExpressions ("a={a}" ++ "}") = Return ("a=$0" ++ "}", ["a"]).
Proof.
  split.
  - apply (proj1 (proj2 split_raises_iff_unclosed)).
    intros H. apply (proj1 split_raises_iff_unclosed) in H.
    vm_compute in H. discriminate.
  - apply (proj1 (proj2 (proj2 split_raises_iff_unclosed))). reflexivity.
Defined.



(** C10, as stated, fails on doubled braces and on a token inside braces
    of the format: ["}}"] holds two unmatched braces, and the merge
    returns ["}"]; ["{$5}"] holds the token 5, which no expression
    answers, and the merge returns ["{{5}}"]. *)
Lemma merge_returns_on_escaped_braces :
  ~ merge_raises_on "}}" [] /\ ~ merge_raises_on "{$5}" [].
Proof.
  split; intros H.
  - destruct (H (or_introl eq_refl)) as [e He].
    vm_compute in He. discriminate.
  - destruct H as [e He].
    + right. exists 5%nat. split; [vm_compute; auto | simpl; lia].
    + vm_compute in He. discriminate.
Qed.

(** C10, amended: [MergeLogExpressions] is partial. On an encoded format
    without an opening brace it raises whenever, reading from the left,
    some closing brace is not one of a doubled pair, or some token [$N]
    has [N >= len(expressions)]; it raises when the only brace of the
    format is one opening brace; and [AddTargetInfo], on a message with a
    log message format that is not empty, raises exactly the exception
    that the merge of this format with the expressions of the message
    raises. *)
Theorem merge_raises_cases :
  (forall fmt exprs,
     count_char "{" fmt = O ->
     close_braces_paired fmt = false \/ token_out_of_range fmt exprs ->
     raises (MergeLogExpressions fmt exprs))
  /\ (forall pre post exprs,
        brace_free pre -> brace_free post ->
        raises (MergeLogExpressions (pre ++ String "{" post) exprs))
  /\ (forall self b f e,
        Breakpoints.logMessageFormat b = Some f -> f <> "" ->
        (Breakpoints.AddTargetInfo self (Breakpoints.Message b) = Raise e
         <-> MergeLogExpressions f (Breakpoints.expressions b) = Raise e)).
Proof.
  split; [exact FailureFacts.merge_raises_no_open|].
  split; [exact FailureFacts.merge_raises_lone_open|].
  exact BreakpointFacts.AddTargetInfo_raises.
Qed.

Lemma merge_raises_witness :
  raises (MergeLogExpressions "a=$0}" ["a"])
  /\ raises (MergeLogExpressions "a=$0, b=$1" ["a"])
  /\ raises (MergeLogExpressions ("a=$0 " ++ String "{" "b") ["a"])
  /\ (Breakpoints.AddTargetInfo (debuggee "t" [])
        (Breakpoints.Message (logpoint "1234567890123-abcd-1"))
      = Raise IndexError
      <-> MergeLogExpressions "a=$0, b=$1" ["a"; "b"] = Raise IndexError).
Proof.
  split; [|split; [|split]].
  - apply (proj1 merge_raises_cases); [reflexivity | left; reflexivity].
  - apply (proj1 merge_raises_cases); [reflexivity | right].
    exists 1%nat. split; [vm_compute; auto | simpl; lia].
  - apply (proj1 (proj2 merge_raises_cases)); split; reflexivity.
  - apply (proj2 (proj2 merge_raises_cases)); [reflexivity | discriminate].
Defined.

(** ** Debuggee resolver *)

(** C2, as stated, fails on a module label that is present and empty: of
    the two debuggees below the first has the label [module] with the
    empty string as value, so none is without a module label, and yet
    [DefaultDebuggee] returns the first. *)
Lemma default_takes_empty_module_label :
  Resolver.DefaultDebuggee
    (Return [debuggee "a" [("module", "")]; debuggee "b" [("module", "m")]])
  <> ResolveDefault absent
       [debuggee "a" [("module", "")]; debuggee "b" [("module", "m")]].
Proof. vm_compute. discriminate. Qed.

(** C2, amended: for every debuggee list, [DefaultDebuggee] fails with
    [NoDebuggeeError] on no debuggee, returns the only one, and otherwise
    takes the first verdict of: the latest minor version of all; the
    debuggees whose module label is absent or empty (none: fail with
    [MultipleDebuggeesError], one: return it); the latest minor version of
    these; those of them whose version label is absent or empty (none:
    fail with [MultipleDebuggeesError], one: return it); the latest minor
    version of these; and fails with [NoDebuggeeError] when no step gives
    a verdict. An exception of [_FindLatestMinorVersion] or of the listing
    is passed on. *)
Theorem default_debuggee_cascade :
  (forall ds, Resolver.DefaultDebuggee (Return ds) = ResolveDefault blank ds)
  /\ (forall e, Resolver.DefaultDebuggee (Raise e) = Raise e).
Proof.
  split; [exact ResolverFacts.DefaultDebuggee_blank | reflexivity].
Qed.

(** C3: for every debuggee list and every pattern that is not empty,
    [FindDebuggee] takes as candidates the debuggees whose target ID is
    the pattern or whose name the pattern finds; if there is none, those
    whose description the pattern finds; it returns the only candidate,
    fails with [NoDebuggeeError] carrying the pattern when there is none,
    and otherwise returns the latest minor version of the candidates, or
    fails with [MultipleDebuggeesError] carrying the pattern and all the
    candidates when there is no such version. *)
Theorem find_debuggee_cascade :
  forall (E : RegexEngine) (ds : list Debuggee) (pattern : string),
    pattern <> "" ->
    Resolver.FindDebuggee (Return ds) (Some pattern) = Resolve ds pattern.
Proof.
  intros E ds pattern. apply ResolverFacts.FindDebuggee_Resolve.
Qed.

Lemma find_debuggee_witness :
  "svc" <> ""
  /\ Resolver.FindDebuggee
       (Return [svc_v1 "a" "3"; debuggee "b" [("module", "web")];
                svc_v1 "c" "7"])
       (Some "svc")
     = Resolve [svc_v1 "a" "3"; debuggee "b" [("module", "web")];
                svc_v1 "c" "7"] "svc".
Proof.
  split; [discriminate|].
  apply (find_debuggee_cascade literal_engine). discriminate.
Defined.

(** C4, as stated, fails on the empty list, where every debuggee has the
    same name and a minor version and yet there is no result, and on a
    minor-version label that is no number, where [int] raises. *)
Lemma latest_fails_on_empty_and_non_numeric :
  ~ latest_iff_uniform []
  /\ ~ latest_iff_uniform [debuggee "a" [("minorversion", "abc")]].
Proof.
  split; intros [[_ H] _].
  - destruct H as (d & Hd & _); [|discriminate].
    split; intros ? ?; contradiction.
  - destruct H as (d & Hd & _).
    + split.
      * intros d d' [<-|[]] [<-|[]]. reflexivity.
      * intros d [<-|[]]. reflexivity.
    + vm_compute in Hd. discriminate.
Qed.

(** C4, amended: for every debuggee list that is not empty and whose
    minor-version labels, where present and not empty, are decimal
    integers, none negative or none zero, [_FindLatestMinorVersion]
    returns a debuggee of the list with the numerically largest minor
    version if and only if all debuggees have the same name and a minor
    version label that is not empty, and returns no result in every other
    case; e.g. of three debuggees named ["svc-v1"] with the minor versions
    3, 7 and 1 it returns the one with 7. *)
Theorem latest_minor_version :
  (forall ds,
     ds <> [] -> numeric_labels ds -> sign_uniform ds ->
     latest_iff_uniform ds)
  /\ Resolver.name (svc_v1 "b" "7") = "svc-v1"
  /\ Resolver._FindLatestMinorVersion
       [svc_v1 "a" "3"; svc_v1 "b" "7"; svc_v1 "c" "1"]
     = Return (Some (svc_v1 "b" "7")).
Proof.
  split; [exact ResolverFacts.latest_uniform|].
  split; vm_compute; reflexivity.
Qed.

Lemma latest_minor_version_witness :
  latest_iff_uniform [svc_v1 "a" "3"; svc_v1 "b" "7"; svc_v1 "c" "1"].
Proof.
  apply (proj1 latest_minor_version).
  - discriminate.
  - intros d l [<-|[<-|[<-|[]]]] Hl _; vm_compute in Hl;
      injection Hl as <-; eexists; reflexivity.
  - left. intros d v [<-|[<-|[<-|[]]]] Hv; vm_compute in Hv;
      injection Hv as <-; lia.
Defined.

(** The comparison of [_FindLatestMinorVersion] takes a best version of 0
    for none: after a minor version 0 any other version wins, also a
    negative one. *)
Example latest_after_zero :
  Resolver._FindLatestMinorVersion
    [debuggee "a" [("minorversion", "0")];
     debuggee "b" [("minorversion", "-3")]]
  = Return (Some (debuggee "b" [("minorversion", "-3")])).
Proof. vm_compute. reflexivity. Qed.

(** ** Breakpoints *)

(** C5: an exact ID that the listing lacks is fetched by one [Get] call,
    but the breakpoint that comes back is not in the output: it is a
    dictionary already, [_FilteredDictListWithInfo] decorates it again,
    and the call ends in an [AttributeError]. *)
Theorem list_matching_fetched_id_raises :
  Breakpoints.ListMatchingBreakpoints (service []) (debuggee "t" [])
    ["1234567890123-abcd-1"] false false None []
  = (Raise (AttributeError "Breakpoint" "all_fields"),
     [Breakpoints.ListCall "t" false false;
      Breakpoints.GetCall "t" "1234567890123-abcd-1"]).
Proof. vm_compute. reflexivity. Qed.

(** C6: the pattern of the code takes a string for an ID when its third
    segment has more than eight digits, which the documented format
    excludes; it accepts ["1234567890123-abcd-1"] and rejects
    ["xyz-abcd-1"], and [ListMatchingBreakpoints] fetches the long string
    as an ID. *)
Theorem id_pattern_accepts_long_third_segment :
  Breakpoints._BREAKPOINT_ID_PATTERN "1234567890123-abcd-123456789" = true
  /\ breakpoint_id_format "1234567890123-abcd-123456789" = false
  /\ Breakpoints._BREAKPOINT_ID_PATTERN "1234567890123-abcd-1" = true
  /\ breakpoint_id_format "1234567890123-abcd-1" = true
  /\ Breakpoints._BREAKPOINT_ID_PATTERN "xyz-abcd-1" = false
  /\ snd (Breakpoints.ListMatchingBreakpoints (service []) (debuggee "t" [])
            ["1234567890123-abcd-123456789"] false false None [])
     = [Breakpoints.ListCall "t" false false;
        Breakpoints.GetCall "t" "1234567890123-abcd-123456789"].
Proof. repeat split; vm_compute; reflexivity. Qed.

(** * Further properties of the layer *)

Import Breakpoints Locations Decoration Listing Creation Samples.

(** ** Expression codec *)

(** X1: a format string without an opening brace holds no expression:
    [SplitLogExpressions] returns it unchanged, closing braces included,
    with an empty list of expressions. *)
Theorem split_copies_text_without_open_brace (s : string) :
  count_char "{" s = 0%nat -> SplitLogExpressions s = Return (s, []).
Proof. apply CodecMore.Split_no_open. Qed.

Lemma split_copies_text_witness :
  count_char "{" "a}b $5" = 0%nat
  /\ SplitLogExpressions "a}b $5" = Return ("a}b $5", []).
Proof.
  split; [reflexivity|].
  apply split_copies_text_without_open_brace. reflexivity.
Defined.

(** X2: whatever the format string, the encoded format that
    [SplitLogExpressions] returns holds no opening brace, and it is empty
    only when the format string is. *)
Theorem split_encoded_format_shape (s encoded : string)
    (exprs : list string) :
  SplitLogExpressions s = Return (encoded, exprs) ->
  count_char "{" encoded = 0%nat /\ (s <> "" -> encoded <> "").
Proof.
  intros H. split.
  - exact (CodecMore.Split_no_open_out s encoded exprs H).
  - exact (CreationFacts.Split_not_empty s encoded exprs H).
Qed.

Lemma split_encoded_format_witness :
  SplitLogExpressions "{a}}{b{c}}" = Return ("$0}$1", ["a"; "b{c}"])
  /\ count_char "{" "$0}$1" = 0%nat
  /\ ("{a}}{b{c}}" <> "" -> "$0}$1" <> "").
Proof.
  split; [reflexivity|].
  apply (split_encoded_format_shape "{a}}{b{c}}" "$0}$1" ["a"; "b{c}"]).
  reflexivity.
Defined.

(** X3: every expression that [SplitLogExpressions] returns has balanced
    braces: each opening brace in it is closed in it, and no closing
    brace comes before its opening brace. *)
Theorem split_expressions_balanced (s encoded : string)
    (exprs : list string) :
  SplitLogExpressions s = Return (encoded, exprs) ->
  Forall (fun t => balanced t = true) exprs.
Proof. apply ExpressionFacts.Split_balanced. Qed.

Lemma split_expressions_balanced_witness :
  SplitLogExpressions "x={f({})} } {y}" = Return ("x=$0 } $1", ["f({})"; "y"])
  /\ Forall (fun t => balanced t = true) ["f({})"; "y"].
Proof.
  split; [reflexivity|].
  apply (split_expressions_balanced "x={f({})} } {y}" "x=$0 } $1").
  reflexivity.
Defined.

(** X4: [MergeLogExpressions] returns a text without braces and without
    tokens (a dollar sign followed by a digit) unchanged, whatever the
    expressions are. *)
Theorem merge_copies_text_without_tokens (s : string)
    (expressions : list string) :
  tokens s = [] -> brace_free s ->
  MergeLogExpressions s expressions = Return s.
Proof. apply MergeMore.Merge_plain. Qed.

Lemma merge_copies_text_witness :
  tokens "cost: $ 5, $x" = [] /\ brace_free "cost: $ 5, $x"
  /\ MergeLogExpressions "cost: $ 5, $x" ["a"] = Return "cost: $ 5, $x".
Proof.
  split; [reflexivity|]. split; [split; reflexivity|].
  apply merge_copies_text_without_tokens; [reflexivity|split; reflexivity].
Defined.

(** X5: expressions that the format does not name do not matter: when
    [MergeLogExpressions] returns a text for a list of expressions, it
    returns the same text for every longer list. *)
Theorem merge_ignores_surplus_expressions (log_format : string)
    (expressions more : list string) (text : string) :
  MergeLogExpressions log_format expressions = Return text ->
  MergeLogExpressions log_format (expressions ++ more)%list = Return text.
Proof. apply MergeMore.Merge_more. Qed.

Lemma merge_ignores_surplus_witness :
  MergeLogExpressions "a=$0, b=$1" ["a"; "b"] = Return "a={a}, b={b}"
  /\ MergeLogExpressions "a=$0, b=$1" (["a"; "b"] ++ ["c"; "d"])%list
     = Return "a={a}, b={b}".
Proof.
  split; [reflexivity|].
  apply merge_ignores_surplus_expressions. reflexivity.
Defined.

(** ** Debuggee resolver *)

(** X6: when [_FindLatestMinorVersion] returns a debuggee, it is one of
    the list, every debuggee of the list has its name, and every one has
    a minor version label that is not empty. *)
Theorem latest_minor_version_is_listed (ds : list Debuggee)
    (d : Debuggee) :
  Resolver._FindLatestMinorVersion ds = Return (Some d) ->
  In d ds
  /\ forall d', In d' ds ->
       Resolver.name d' = Resolver.name d
       /\ truthy (Resolver.minorversion d') = true.
Proof. apply ResolverMore.latest_sound. Qed.

Lemma latest_minor_version_is_listed_witness :
  Resolver._FindLatestMinorVersion [svc_v1 "a" "3"; svc_v1 "b" "7"]
  = Return (Some (svc_v1 "b" "7"))
  /\ In (svc_v1 "b" "7") [svc_v1 "a" "3"; svc_v1 "b" "7"]
  /\ forall d', In d' [svc_v1 "a" "3"; svc_v1 "b" "7"] ->
       Resolver.name d' = Resolver.name (svc_v1 "b" "7")
       /\ truthy (Resolver.minorversion d') = true.
Proof.
  split; [vm_compute; reflexivity|].
  apply latest_minor_version_is_listed. vm_compute. reflexivity.
Defined.

(** X7: [DefaultDebuggee] only returns a debuggee of the listing. *)
Theorem default_debuggee_is_listed (ds : list Debuggee) (d : Debuggee) :
  Resolver.DefaultDebuggee (Return ds) = Return d -> In d ds.
Proof. apply ResolverMore.DefaultDebuggee_In. Qed.

Lemma default_debuggee_is_listed_witness :
  Resolver.DefaultDebuggee
    (Return [debuggee "a" [("module", "web")]; debuggee "b" []])
  = Return (debuggee "b" [])
  /\ In (debuggee "b" [])
        [debuggee "a" [("module", "web")]; debuggee "b" []].
Proof.
  split; [vm_compute; reflexivity|].
  apply default_debuggee_is_listed. vm_compute. reflexivity.
Defined.

(** X8: when [DefaultDebuggee] fails on a listing, it fails with
    [NoDebuggeeError] without a pattern, with [MultipleDebuggeesError]
    without a pattern and with the whole listing, or with the
    [ValueError] of [int] on a minor version label. *)
Theorem default_debuggee_errors (ds : list Debuggee) (e : exn) :
  Resolver.DefaultDebuggee (Return ds) = Raise e ->
  e = NoDebuggeeError None \/ e = MultipleDebuggeesError None ds
  \/ e = ValueError InvalidIntLiteral.
Proof. apply ResolverMore.DefaultDebuggee_Raise. Qed.

Lemma default_debuggee_errors_witness :
  Resolver.DefaultDebuggee
    (Return [debuggee "a" [("module", "web")];
             debuggee "b" [("module", "api")]])
  = Raise (MultipleDebuggeesError None
             [debuggee "a" [("module", "web")];
              debuggee "b" [("module", "api")]])
  /\ (MultipleDebuggeesError None
        [debuggee "a" [("module", "web")];
         debuggee "b" [("module", "api")]]
      = NoDebuggeeError None
      \/ MultipleDebuggeesError None
           [debuggee "a" [("module", "web")];
            debuggee "b" [("module", "api")]]
         = MultipleDebuggeesError None
             [debuggee "a" [("module", "web")];
              debuggee "b" [("module", "api")]]
      \/ MultipleDebuggeesError None
           [debuggee "a" [("module", "web")];
            debuggee "b" [("module", "api")]]
         = ValueError InvalidIntLiteral).
Proof.
  split; [vm_compute; reflexivity|].
  apply default_debuggee_errors. vm_compute. reflexivity.
Defined.

(** X9: the debuggee that [FindDebuggee] returns for a pattern is one of
    the listing, and the pattern is its target ID, or is found in its
    name or in its description. *)
Theorem find_debuggee_matches (E : RegexEngine) (ds : list Debuggee)
    (pattern : string) (d : Debuggee) :
  pattern <> "" ->
  Resolver.FindDebuggee (Return ds) (Some pattern) = Return d ->
  In d ds
  /\ exists match_re, re_compile pattern = Some match_re
       /\ (target_id d = pattern
           \/ re_search match_re (Resolver.name d) = true
           \/ re_search match_re (description d) = true).
Proof. apply ResolverMore.FindDebuggee_sound. Qed.

Lemma find_debuggee_matches_witness :
  "web" <> ""
  /\ Resolver.FindDebuggee
       (Return [debuggee "a" [("module", "web")];
                debuggee "b" [("module", "api")]])
       (Some "web")
     = Return (debuggee "a" [("module", "web")])
  /\ In (debuggee "a" [("module", "web")])
        [debuggee "a" [("module", "web")];
         debuggee "b" [("module", "api")]]
  /\ exists match_re, re_compile "web" = Some match_re
       /\ (target_id (debuggee "a" [("module", "web")]) = "web"
           \/ re_search match_re
                (Resolver.name (debuggee "a" [("module", "web")])) = true
           \/ re_search match_re
                (description (debuggee "a" [("module", "web")])) = true).
Proof.
  split; [discriminate|]. split; [vm_compute; reflexivity|].
  apply (find_debuggee_matches literal_engine);
    [discriminate | vm_compute; reflexivity].
Defined.

(** ** The dictionary of a message *)

(** X10: the dictionary that [_MessageDict] builds from a message gives
    every field of the message as an attribute, with the value the
    message has for it; the field is a key of the dictionary exactly when
    this value is not false. *)
Theorem message_dict_field (b : Breakpoint) (hidden : gmap string value)
    (d : MessageDict) (k : string) (v : value) :
  new_MessageDict (Message b) hidden = Return d ->
  assoc k (all_fields b) = Some v ->
  getattr d k = Return v
  /\ items d !! k = (if falsy v then None else Some v).
Proof. apply DictFacts.new_MessageDict_field. Qed.

Lemma message_dict_field_witness :
  exists d,
    new_MessageDict (Message (logpoint "1234567890123-abcd-1")) ∅
    = Return d
    /\ assoc "condition" (all_fields (logpoint "1234567890123-abcd-1"))
       = Some VNone
    /\ getattr d "condition" = Return VNone
    /\ items d !! "condition" = (if falsy VNone then None else Some VNone).
Proof.
  eexists. split; [reflexivity|]. split; [reflexivity|].
  apply (message_dict_field (logpoint "1234567890123-abcd-1") ∅);
    reflexivity.
Defined.

(** X11: a name that is neither a field of the message nor one of the
    hidden fields given to [_MessageDict] is no key of the dictionary, and
    reading it as an attribute raises [AttributeError] with the name of
    the type of the message. *)
Theorem message_dict_missing_attribute (b : Breakpoint)
    (hidden : gmap string value) (d : MessageDict) (k : string) :
  new_MessageDict (Message b) hidden = Return d ->
  assoc k (all_fields b) = None -> hidden !! k = None ->
  items d !! k = None
  /\ getattr d k = Raise (AttributeError "Breakpoint" k).
Proof.
  intros Hd Hk Hh.
  destruct (DictFacts.new_MessageDict_other b hidden d k Hd Hk) as [Hi Hg].
  rewrite Hh in Hg. auto.
Qed.

Lemma message_dict_missing_attribute_witness :
  exists d,
    new_MessageDict (Message (logpoint "1234567890123-abcd-1")) ∅
    = Return d
    /\ items d !! "status" = None
    /\ getattr d "status" = Raise (AttributeError "Breakpoint" "status").
Proof.
  eexists. split; [reflexivity|].
  apply (message_dict_missing_attribute
           (logpoint "1234567890123-abcd-1") ∅); reflexivity.
Defined.

(** X12: [HideExistingField] keeps what reading the field as an attribute
    returns and touches no other field; a field that was not hidden
    before is no key of the dictionary afterwards, and reads [None] when
    the dictionary did not have it; hiding a field twice is hiding it
    once. *)
Theorem hide_existing_field :
  (forall d k v, getattr d k = Return v ->
                 getattr (HideExistingField d k) k = Return v)
  /\ (forall d k k', k <> k' ->
        getattr (HideExistingField d k) k' = getattr d k'
        /\ items (HideExistingField d k) !! k' = items d !! k')
  /\ (forall d k, hidden_fields d !! k = None ->
        items (HideExistingField d k) !! k = None
        /\ getattr (HideExistingField d k) k
           = Return (default VNone (items d !! k)))
  /\ (forall d k,
        HideExistingField (HideExistingField d k) k
        = HideExistingField d k).
Proof.
  split; [exact DictFacts.Hide_same|].
  split; [exact DictFacts.Hide_other|].
  split; [exact DictFacts.Hide_items|exact DictFacts.Hide_twice].
Qed.

Lemma hide_existing_field_witness :
  getattr
    (HideExistingField
       {| orig_type := "Breakpoint"; items := {["id" := VStr "x"]};
          hidden_fields := ∅ |} "id") "id"
  = Return (VStr "x")
  /\ items
       (HideExistingField
          {| orig_type := "Breakpoint"; items := {["id" := VStr "x"]};
             hidden_fields := ∅ |} "id") !! "id" = None.
Proof.
  split.
  - apply (proj1 hide_existing_field). reflexivity.
  - apply (proj1 (proj2 (proj2 hide_existing_field))). reflexivity.
Defined.

(** ** Decorated breakpoints *)

(** X13: the dictionary that [AddTargetInfo] returns for a message has
    the project ID, the project number, the uniquifier and the target ID
    of the debuggee as attributes, and none of the four as a key. *)
Theorem add_target_info_debuggee_fields (self : Debuggee) (b : Breakpoint)
    (r : MessageDict) :
  AddTargetInfo self (Message b) = Return r ->
  (getattr r "project_id" = Return (VStr (project_id self))
   /\ getattr r "project_number" = Return (VInt (project_number self))
   /\ getattr r "target_uniquifier"
      = Return (VStr (target_uniquifier self))
   /\ getattr r "target_id" = Return (VStr (target_id self)))
  /\ (items r !! "project_id" = None
      /\ items r !! "project_number" = None
      /\ items r !! "target_uniquifier" = None
      /\ items r !! "target_id" = None).
Proof.
  rewrite DecorationFacts.AddTargetInfo_Message.
  assert (H : forall m k v,
            Aux.hidden_of self !! k = Some v ->
            getattr (decorated self b m) k = Return v
            /\ items (decorated self b m) !! k = None)
    by (intros m k v; apply DecorationFacts.decorated_target).
  assert (Hall : forall m,
    (getattr (decorated self b m) "project_id"
     = Return (VStr (project_id self))
     /\ getattr (decorated self b m) "project_number"
        = Return (VInt (project_number self))
     /\ getattr (decorated self b m) "target_uniquifier"
        = Return (VStr (target_uniquifier self))
     /\ getattr (decorated self b m) "target_id"
        = Return (VStr (target_id self)))
    /\ (items (decorated self b m) !! "project_id" = None
        /\ items (decorated self b m) !! "project_number" = None
        /\ items (decorated self b m) !! "target_uniquifier" = None
        /\ items (decorated self b m) !! "target_id" = None)).
  { intros m.
    destruct (H m "project_id" _ eq_refl),
             (H m "project_number" _ eq_refl),
             (H m "target_uniquifier" _ eq_refl),
             (H m "target_id" _ eq_refl).
    repeat split; assumption. }
  destruct (logMessageFormat b) as [f|].
  - destruct (String.eqb f "").
    + intros <-%OutcomeFacts.Return_inj. apply Hall.
    + intros (m & _ & <-%OutcomeFacts.Return_inj)%OutcomeFacts.bind_Return.
      apply Hall.
  - intros <-%OutcomeFacts.Return_inj. apply Hall.
Qed.

Lemma add_target_info_debuggee_fields_witness :
  exists r,
    AddTargetInfo (debuggee "t" []) (Message (logpoint "1234567890123-abcd-1"))
    = Return r
    /\ getattr r "target_id" = Return (VStr "t")
    /\ items r !! "target_id" = None.
Proof.
  eexists. split; [reflexivity|].
  destruct (add_target_info_debuggee_fields
              (debuggee "t" []) (logpoint "1234567890123-abcd-1") _
              eq_refl) as [(_ & _ & _ & Hg) (_ & _ & _ & Hi)].
  split; [exact Hg|exact Hi].
Defined.

(** X14: the dictionary that [AddTargetInfo] returns keeps every field
    of the message other than the location, the log message format and
    the expressions: it is an attribute with the value of the message,
    and a key when this value is not false. The key [consoleViewUrl]
    holds the address of the console, with the project number, the
    uniquifier and the breakpoint ID, and with the path and the line
    when they are not empty and not zero; the key [location] holds
    [path:line] when the message has a location. *)
Theorem add_target_info_message_fields (self : Debuggee) (b : Breakpoint)
    (r : MessageDict) :
  AddTargetInfo self (Message b) = Return r ->
  (forall k v,
     assoc k (all_fields b) = Some v ->
     ~ In k ["location"; "logMessageFormat"; "expressions"] ->
     getattr r k = Return v
     /\ items r !! k = (if falsy v then None else Some v))
  /\ items r !! "consoleViewUrl" = Some (VStr (console_url self b))
  /\ items r !! "location" = (VStr ∘ shown) <$> location b.
Proof.
  rewrite DecorationFacts.AddTargetInfo_Message.
  assert (Hall : forall m,
    (forall k v,
       assoc k (all_fields b) = Some v ->
       ~ In k ["location"; "logMessageFormat"; "expressions"] ->
       getattr (decorated self b m) k = Return v
       /\ items (decorated self b m) !! k
          = (if falsy v then None else Some v))
    /\ items (decorated self b m) !! "consoleViewUrl"
       = Some (VStr (console_url self b))
    /\ items (decorated self b m) !! "location"
       = (VStr ∘ shown) <$> location b).
  { intros m. split; [|split].
    - intros k v. apply DecorationFacts.decorated_field.
    - apply DecorationFacts.decorated_url.
    - apply DecorationFacts.decorated_location. }
  destruct (logMessageFormat b) as [f|].
  - destruct (String.eqb f "").
    + intros <-%OutcomeFacts.Return_inj. apply Hall.
    + intros (m & _ & <-%OutcomeFacts.Return_inj)%OutcomeFacts.bind_Return.
      apply Hall.
  - intros <-%OutcomeFacts.Return_inj. apply Hall.
Qed.

Lemma add_target_info_message_fields_witness :
  exists r,
    AddTargetInfo (debuggee "t" []) (Message (logpoint "1234567890123-abcd-1"))
    = Return r
    /\ getattr r "id" = Return (VStr "1234567890123-abcd-1")
    /\ items r !! "consoleViewUrl"
       = Some (VStr
                 (console_url (debuggee "t" [])
                              (logpoint "1234567890123-abcd-1")))
    /\ items r !! "location" = Some (VStr "main.py:12").
Proof.
  eexists. split; [reflexivity|].
  destruct (add_target_info_message_fields
              (debuggee "t" []) (logpoint "1234567890123-abcd-1") _
              eq_refl) as (Hf & Hu & Hl).
  split; [|split; [exact Hu|exact Hl]].
  apply (Hf "id" (VStr "1234567890123-abcd-1") eq_refl).
  cbn. intuition discriminate.
Defined.

(** X15: for a message with a log message format that is not empty, the
    dictionary that [AddTargetInfo] returns has the format with the
    expressions put back under the key [logMessageFormat]; the
    expressions are no key of it, and are still an attribute. *)
Theorem add_target_info_logpoint (self : Debuggee) (b : Breakpoint)
    (f : string) (r : MessageDict) :
  logMessageFormat b = Some f -> f <> "" ->
  AddTargetInfo self (Message b) = Return r ->
  exists merged,
    MergeLogExpressions f (expressions b) = Return merged
    /\ items r !! "logMessageFormat" = Some (VStr merged)
    /\ items r !! "expressions" = None
    /\ getattr r "expressions" = Return (VStrings (expressions b)).
Proof.
  intros Hf Hne. rewrite DecorationFacts.AddTargetInfo_Message, Hf.
  apply String.eqb_neq in Hne. rewrite Hne.
  intros (m & Hm & <-%OutcomeFacts.Return_inj)%OutcomeFacts.bind_Return.
  exists m. split; [exact Hm|]. apply DecorationFacts.decorated_log.
Qed.

Lemma add_target_info_logpoint_witness :
  exists r,
    logMessageFormat (logpoint "1234567890123-abcd-1") = Some "a=$0, b=$1"
    /\ "a=$0, b=$1" <> ""
    /\ AddTargetInfo (debuggee "t" [])
         (Message (logpoint "1234567890123-abcd-1")) = Return r
    /\ exists merged,
         MergeLogExpressions "a=$0, b=$1"
           (expressions (logpoint "1234567890123-abcd-1")) = Return merged
         /\ items r !! "logMessageFormat" = Some (VStr merged)
         /\ items r !! "expressions" = None
         /\ getattr r "expressions"
            = Return (VStrings
                        (expressions (logpoint "1234567890123-abcd-1"))).
Proof.
  eexists. split; [reflexivity|]. split; [discriminate|].
  split; [reflexivity|].
  apply (add_target_info_logpoint (debuggee "t" [])
           (logpoint "1234567890123-abcd-1") "a=$0, b=$1");
    [reflexivity|discriminate|reflexivity].
Defined.

(** ** Listings *)

(** X16: when [_FilteredDictListWithInfo] returns on a list of messages,
    its result lists, in the order of the input, the decorations of the
    breakpoints of the requested type, a breakpoint without action being
    a snapshot; when it raises, decorating one of these breakpoints
    raises that exception. *)
Theorem filtered_list_entries (self : Debuggee) (bs : list Breakpoint)
    (restrict_to_type : option Action) :
  (forall out,
     _FilteredDictListWithInfo self (Message <$> bs) restrict_to_type
     = Return out ->
     Forall2 (fun r b => AddTargetInfo self (Message b) = Return r)
             out (List.filter (kept restrict_to_type) bs))
  /\ (forall e,
        _FilteredDictListWithInfo self (Message <$> bs) restrict_to_type
        = Raise e ->
        exists b, In b (List.filter (kept restrict_to_type) bs)
                  /\ AddTargetInfo self (Message b) = Raise e).
Proof.
  split.
  - apply ListingFacts.Filtered_Return.
  - intros e. apply ListingFacts.Filtered_Raise.
Qed.

Lemma filtered_list_entries_witness :
  exists out,
    _FilteredDictListWithInfo (debuggee "t" [])
      (Message <$> [snapshot "1234567890123-abcd-2";
                    logpoint "1234567890123-abcd-1"]) (Some LOG)
    = Return out
    /\ Forall2
         (fun r b => AddTargetInfo (debuggee "t" []) (Message b) = Return r)
         out
         (List.filter (kept (Some LOG))
                      [snapshot "1234567890123-abcd-2";
                       logpoint "1234567890123-abcd-1"]).
Proof.
  eexists. split; [reflexivity|].
  apply (proj1 (filtered_list_entries (debuggee "t" [])
                  [snapshot "1234567890123-abcd-2";
                   logpoint "1234567890123-abcd-1"] (Some LOG))).
  reflexivity.
Defined.

(** X17: on messages of which those of the requested type have no log
    message format, [_FilteredDictListWithInfo] does not fail: it returns
    one dictionary for each breakpoint of the requested type. *)
Theorem filtered_list_of_plain (self : Debuggee) (bs : list Breakpoint)
    (restrict_to_type : option Action) :
  Forall (fun b => plain b = true)
         (List.filter (kept restrict_to_type) bs) ->
  _FilteredDictListWithInfo self (Message <$> bs) restrict_to_type
  = Return ((fun b => decorated self b None)
            <$> List.filter (kept restrict_to_type) bs).
Proof. apply ListingFacts.Filtered_plain. Qed.

Lemma filtered_list_of_plain_witness :
  Forall (fun b => plain b = true)
         (List.filter (kept (Some CAPTURE))
                      [snapshot "1234567890123-abcd-2";
                       logpoint "1234567890123-abcd-1"])
  /\ _FilteredDictListWithInfo (debuggee "t" [])
       (Message <$> [snapshot "1234567890123-abcd-2";
                     logpoint "1234567890123-abcd-1"]) (Some CAPTURE)
     = Return ((fun b => decorated (debuggee "t" []) b None)
               <$> List.filter (kept (Some CAPTURE))
                     [snapshot "1234567890123-abcd-2";
                      logpoint "1234567890123-abcd-1"]).
Proof.
  split; [repeat constructor|].
  apply filtered_list_of_plain. repeat constructor.
Defined.

(** X18: [ListBreakpoints] that returns has made one call, the [List]
    call with its two flags, and its result lists the decorations of the
    breakpoints of the requested type in the answer of the service;
    without initialised clients it raises [NoEndpointError] and makes no
    call. *)
Theorem list_breakpoints_result (svc : Service) (self : Debuggee)
    (include_all_users include_inactive : bool)
    (restrict_to_type : option Action) (log : list call) :
  (forall out log',
     ListBreakpoints svc self include_all_users include_inactive
                     restrict_to_type log = (Return out, log') ->
     log' = (log ++ [ListCall (target_id self) include_all_users
                              include_inactive])%list
     /\ exists listed,
          breakpoints_List svc (target_id self) include_all_users
                           include_inactive = Return listed
          /\ Forall2 (fun r b => AddTargetInfo self (Message b) = Return r)
                     out (List.filter (kept restrict_to_type) listed))
  /\ (clients_ready svc = false ->
      ListBreakpoints svc self include_all_users include_inactive
                      restrict_to_type log
      = (Raise NoEndpointError, log)).
Proof.
  rewrite ListingFacts.ListBreakpoints_unfold. split.
  - intros out log'. destruct (clients_ready svc); [|discriminate].
    destruct (breakpoints_List svc (target_id self) include_all_users
                               include_inactive) as [listed|e|];
      cbn [mbind outcome_mbind outcome_bind]; try discriminate.
    intros [= Hout <-]. split; [reflexivity|].
    exists listed. split; [reflexivity|].
    now apply ListingFacts.Filtered_Return.
  - now intros ->.
Qed.

Lemma list_breakpoints_result_witness :
  exists out,
    ListBreakpoints (Examples.service [logpoint "1234567890123-abcd-1"])
                    (debuggee "t" []) false true (Some LOG) []
    = (Return out, [ListCall "t" false true])
    /\ Forall2
         (fun r b => AddTargetInfo (debuggee "t" []) (Message b) = Return r)
         out
         (List.filter (kept (Some LOG)) [logpoint "1234567890123-abcd-1"]).
Proof.
  eexists. split; [reflexivity|].
  destruct (proj1 (list_breakpoints_result
                     (Examples.service [logpoint "1234567890123-abcd-1"])
                     (debuggee "t" []) false true (Some LOG) [])
                  _ _ eq_refl) as (_ & listed & Hl & Hall).
  injection Hl as <-. exact Hall.
Defined.

(** X19: when every requested ID is in the listing of the service (in
    particular when only patterns are requested), [ListMatchingBreakpoints]
    makes no [Get] call: it makes at most the [List] call, and every entry
    of a result it returns is the decoration of a listed breakpoint of the
    requested type whose ID was requested, or whose location [path:line]
    one of the requested patterns finds. *)
Theorem list_matching_listed (E : RegexEngine) (svc : Service)
    (self : Debuggee) (requested : list string)
    (include_all_users include_inactive : bool)
    (restrict_to_type : option Action) (log log' : list call)
    (o : outcome (list MessageDict)) :
  (forall listed,
     breakpoints_List svc (target_id self) include_all_users
                      include_inactive = Return listed ->
     forall x, In x requested -> _BREAKPOINT_ID_PATTERN x = true ->
               In x (List.map id listed)) ->
  ListMatchingBreakpoints svc self requested include_all_users
                          include_inactive restrict_to_type log
  = (o, log') ->
  (log' = log
   \/ log' = (log ++ [ListCall (target_id self) include_all_users
                               include_inactive])%list)
  /\ forall out, o = Return out ->
       forall r, In r out ->
         exists b listed,
           breakpoints_List svc (target_id self) include_all_users
                            include_inactive = Return listed
           /\ In b listed /\ kept restrict_to_type b = true
           /\ AddTargetInfo self (Message b) = Return r
           /\ (In (id b) requested
               \/ exists l p re,
                    location b = Some l /\ In p requested
                    /\ re_compile p = Some re
                    /\ re_search re (shown l) = true).
Proof. apply MatchingFacts.ListMatching_listed. Qed.

Lemma list_matching_listed_witness :
  exists out,
    ListMatchingBreakpoints
      (Examples.service [snapshot "1234567890123-abcd-2";
                         logpoint "1234567890123-abcd-1"])
      (debuggee "t" []) ["1234567890123-abcd-1"; "main.py:7"]
      false false None []
    = (Return out, [ListCall "t" false false])
    /\ length out = 2%nat
    /\ forall r, In r out ->
         exists b listed,
           breakpoints_List
             (Examples.service [snapshot "1234567890123-abcd-2";
                                logpoint "1234567890123-abcd-1"])
             (target_id (debuggee "t" [])) false false = Return listed
           /\ In b listed /\ kept None b = true
           /\ AddTargetInfo (debuggee "t" []) (Message b) = Return r
           /\ (In (id b) ["1234567890123-abcd-1"; "main.py:7"]
               \/ exists l p re,
                    location b = Some l
                    /\ In p ["1234567890123-abcd-1"; "main.py:7"]
                    /\ re_compile p = Some re
                    /\ re_search re (shown l) = true).
Proof.
  eexists. split; [vm_compute; reflexivity|]. split; [reflexivity|].
  refine (proj2 (list_matching_listed literal_engine
                   (Examples.service [snapshot "1234567890123-abcd-2";
                                      logpoint "1234567890123-abcd-1"])
                   (debuggee "t" []) ["1234567890123-abcd-1"; "main.py:7"]
                   false false None [] _ _ _ _) _ eq_refl).
  - intros listed [= <-] x [<-|[<-|[]]] Hx.
    + right. left. reflexivity.
    + vm_compute in Hx. discriminate.
  - vm_compute. reflexivity.
Defined.

(** X20: a request for no ID and no pattern lists nothing: with
    initialised clients and an answer of the service,
    [ListMatchingBreakpoints] makes the [List] call and returns the empty
    list. *)
Theorem list_matching_nothing (E : RegexEngine) (svc : Service)
    (self : Debuggee) (include_all_users include_inactive : bool)
    (restrict_to_type : option Action) (log : list call)
    (listed : list Breakpoint) :
  clients_ready svc = true ->
  breakpoints_List svc (target_id self) include_all_users include_inactive
  = Return listed ->
  ListMatchingBreakpoints svc self [] include_all_users include_inactive
                          restrict_to_type log
  = (Return [],
     (log ++ [ListCall (target_id self) include_all_users
                       include_inactive])%list).
Proof. apply MatchingFacts.ListMatching_nothing. Qed.

Lemma list_matching_nothing_witness :
  clients_ready (Examples.service [logpoint "1234567890123-abcd-1"]) = true
  /\ ListMatchingBreakpoints
       (Examples.service [logpoint "1234567890123-abcd-1"])
       (debuggee "t" []) [] true false None []
     = (Return [], ([] ++ [ListCall "t" true false])%list).
Proof.
  split; [reflexivity|].
  apply (list_matching_nothing literal_engine
           (Examples.service [logpoint "1234567890123-abcd-1"])
           (debuggee "t" []) true false None []
           [logpoint "1234567890123-abcd-1"]); reflexivity.
Defined.

(** X21: [ListMatchingBreakpoints] fails before it contacts the service
    when the clients are not initialised, with [NoEndpointError], and
    when a requested string that is no breakpoint ID is no regular
    expression, with the error of [re.compile]. *)
Theorem list_matching_fails_before_contact (E : RegexEngine)
    (svc : Service) (self : Debuggee) (requested : list string)
    (include_all_users include_inactive : bool)
    (restrict_to_type : option Action) (log : list call) :
  (clients_ready svc = false ->
   ListMatchingBreakpoints svc self requested include_all_users
                           include_inactive restrict_to_type log
   = (Raise NoEndpointError, log))
  /\ (forall p,
        clients_ready svc = true -> In p requested ->
        _BREAKPOINT_ID_PATTERN p = false -> re_compile p = None ->
        ListMatchingBreakpoints svc self requested include_all_users
                                include_inactive restrict_to_type log
        = (Raise RegexError, log)).
Proof.
  split.
  - apply MatchingFacts.ListMatching_not_ready.
  - intros p. apply MatchingFacts.ListMatching_bad_pattern.
Qed.

Lemma list_matching_fails_before_contact_witness :
  ListMatchingBreakpoints
    {| clients_ready := false;
       breakpoints_List := fun _ _ _ => Return [];
       breakpoints_Get := fun _ i => Return (logpoint i) |}
    (debuggee "t" []) ["main.py"] false false None []
  = (Raise NoEndpointError, []).
Proof.
  apply (proj1 (list_matching_fails_before_contact literal_engine
                  {| clients_ready := false;
                     breakpoints_List := fun _ _ _ => Return [];
                     breakpoints_Get := fun _ i => Return (logpoint i) |}
                  (debuggee "t" []) ["main.py"] false false None [])).
  reflexivity.
Defined.

(** ** Source locations *)

(** X22: [_LocationFromString] reads back what [AddTargetInfo] shows for
    a location: for a path without a colon, the location of the string
    [path:line] is the path and the line. *)
Theorem location_round_trip (l : SourceLocation) :
  count_char ":" (path l) = 0%nat ->
  _LocationFromString (shown l) = Return l.
Proof. apply LocationFacts.LocationFromString_shown. Qed.

Lemma location_round_trip_witness :
  count_char ":" (path {| path := "src/main.py"; line := 120 |}) = 0%nat
  /\ _LocationFromString (shown {| path := "src/main.py"; line := 120 |})
     = Return {| path := "src/main.py"; line := 120 |}.
Proof.
  split; [reflexivity|].
  apply location_round_trip. reflexivity.
Defined.

(** X23: [_LocationFromString] raises the [ValueError] of a malformed
    location exactly when the string does not hold one colon; this
    includes the empty string. *)
Theorem location_malformed_iff (location : string) :
  _LocationFromString location = Raise (ValueError MalformedLocation)
  <-> count_char ":" location <> 1%nat.
Proof. apply LocationFacts.LocationFromString_malformed. Qed.

Lemma location_malformed_witness :
  _LocationFromString "" = Raise (ValueError MalformedLocation)
  /\ _LocationFromString "c:\main.py:12"
     = Raise (ValueError MalformedLocation).
Proof.
  split; apply (proj2 (location_malformed_iff _)); cbn; lia.
Defined.

(** ** Creating breakpoints *)

(** X24: [CreateLogpoint] contacts the service only with sound
    arguments: when the location is empty or does not hold one colon,
    or the log format string is empty or has a top-level opening brace
    that is never closed, it does not return a breakpoint and no call
    is made. *)
Theorem create_logpoint_rejects (c : Client) (self : Debuggee)
    (location log_format_string : string)
    (log_level condition user_email : option string)
    (labels : option (gmap string string)) (log : list request) :
  location = "" \/ log_format_string = ""
  \/ count_char ":" location <> 1%nat
  \/ unclosed_top_level log_format_string ->
  exists v,
    CreateLogpoint c self location log_format_string log_level condition
                   user_email labels log = (v, log)
    /\ forall d, v <> Ran (Return d).
Proof. apply CreationFacts.CreateLogpoint_rejects. Qed.

Lemma create_logpoint_rejects_witness :
  ("main.py:12" = "" \/ "" = ""
   \/ count_char ":" "main.py:12" <> 1%nat \/ unclosed_top_level "")
  /\ exists v,
       CreateLogpoint (storing "1234567890123-abcd-1") (debuggee "t" [])
                      "main.py:12" "" None None None None []
       = (v, [])
       /\ forall d, v <> Ran (Return d).
Proof.
  split; [right; left; reflexivity|].
  apply create_logpoint_rejects. right. left. reflexivity.
Defined.



(** X26: what the user gave is what the user gets back: when the service
    stores the breakpoint it is asked to set and answers with it,
    [CreateLogpoint] on a format string with balanced braces, in which no
    dollar sign outside the expressions is directly followed by a digit,
    returns a dictionary whose log message format is the format string,
    with the separator spaces after expressions that a digit follows,
    and whose location is [path:line] of the location read. *)
Theorem create_logpoint_round_trip (c : Client) (self : Debuggee)
    (location log_format_string : string)
    (log_level condition user_email : option string)
    (labels : option (gmap string string)) (log : list request)
    (l : SourceLocation) (level : option LogLevel) (i : string) :
  clients_ready (service c) = true ->
  (forall r, breakpoints_Set c (target_id self) r = Return (stored i r)) ->
  location <> "" -> _LocationFromString location = Return l ->
  log_level_value c log_level = Return level ->
  log_format_string <> "" -> balanced log_format_string = true ->
  literal_token_free log_format_string = true ->
  representable log_format_string ->
  exists d log',
    CreateLogpoint c self location log_format_string log_level condition
                   user_email labels log = (Ran (Return d), log')
    /\ length log' = S (length log)
    /\ items d !! "logMessageFormat"
       = Some (VStr (separated log_format_string))
    /\ items d !! "location" = Some (VStr (shown l))
    /\ getattr d "id" = Return (VStr i).
Proof.
  intros Hr Hset Hl El Ev Hf Hb Hfree Hrep.
  destruct (MergeFacts.merge_split log_format_string Hfree Hb Hrep)
    as (encoded & exprs & Hs & Hm).
  pose proof (CreationFacts.Split_not_empty _ _ _ Hs Hf) as Hne.
  rewrite (CreationFacts.CreateLogpoint_runs c self location
             log_format_string log_level condition user_email labels log
             l level encoded exprs Hr Hl Hf El Ev Hs).
  rewrite Hset. cbn [mbind outcome_mbind outcome_bind].
  set (req := {| Request.location := l;
                 Request.condition := condition;
                 Request.logLevel := level;
                 Request.logMessageFormat := Some encoded;
                 Request.expressions := exprs;
                 Request.labels := labels_value labels;
                 Request.userEmail := user_email;
                 Request.action := LOG |}).
  rewrite DecorationFacts.AddTargetInfo_Message.
  change (logMessageFormat (stored i req)) with (Some encoded).
  change (expressions (stored i req)) with exprs.
  cbv beta iota.
  apply String.eqb_neq in Hne. rewrite Hne, Hm.
  cbn [mbind outcome_mbind outcome_bind].
  eexists _, _. split; [reflexivity|]. split; [|split; [|split]].
  - rewrite length_app. cbn. lia.
  - apply DecorationFacts.decorated_log.
  - rewrite DecorationFacts.decorated_location. reflexivity.
  - apply (DecorationFacts.decorated_field self (stored i req) _ "id"
             (VStr i) eq_refl).
    cbn. intuition discriminate.
Qed.

Lemma create_logpoint_round_trip_witness :
  exists d log',
    CreateLogpoint (storing "1234567890123-abcd-1") (debuggee "t" [])
                   "main.py:12" "n={n}5, {f(x)}" None None None None []
    = (Ran (Return d), log')
    /\ length log' = 1%nat
    /\ items d !! "logMessageFormat"
       = Some (VStr (separated "n={n}5, {f(x)}"))
    /\ items d !! "location"
       = Some (VStr (shown {| path := "main.py"; line := 12 |}))
    /\ getattr d "id" = Return (VStr "1234567890123-abcd-1").
Proof.
  apply (create_logpoint_round_trip (storing "1234567890123-abcd-1")
           (debuggee "t" []) "main.py:12" "n={n}5, {f(x)}" None None None
           None [] {| path := "main.py"; line := 12 |} None
           "1234567890123-abcd-1");
    try reflexivity; discriminate.
Defined.

(** X27: when the service stores the breakpoint it is asked to set,
    [CreateSnapshot] at the location [path:line], for a path without a
    colon, makes one call, for a breakpoint with the action [CAPTURE] and
    no log message format, and returns a dictionary with that location,
    the ID the service gave, and no log message format. *)
Theorem create_snapshot_round_trip (c : Client) (self : Debuggee)
    (l : SourceLocation) (condition : option string)
    (expressions : option (list string)) (user_email : option string)
    (labels : option (gmap string string)) (log : list request)
    (i : string) :
  clients_ready (service c) = true ->
  (forall r, breakpoints_Set c (target_id self) r = Return (stored i r)) ->
  count_char ":" (path l) = 0%nat ->
  exists d req,
    CreateSnapshot c self (shown l) condition expressions user_email
                   labels log
    = (Return d, (log ++ [SetCall (target_id self) req])%list)
    /\ Request.action req = CAPTURE
    /\ Request.logMessageFormat req = None
    /\ Request.location req = l
    /\ items d !! "location" = Some (VStr (shown l))
    /\ items d !! "logMessageFormat" = None
    /\ getattr d "id" = Return (VStr i).
Proof.
  intros Hr Hset Hp.
  rewrite (CreationFacts.CreateSnapshot_runs c self (shown l) condition
             expressions user_email labels log l Hr
             (LocationFacts.LocationFromString_shown l Hp)).
  rewrite Hset. cbn [mbind outcome_mbind outcome_bind].
  set (req := {| Request.location := l;
                 Request.condition := condition;
                 Request.logLevel := None;
                 Request.logMessageFormat := None;
                 Request.expressions := default [] expressions;
                 Request.labels := labels_value labels;
                 Request.userEmail := user_email;
                 Request.action := CAPTURE |}).
  rewrite (ListingFacts.AddTargetInfo_plain self (stored i req) eq_refl).
  exists (decorated self (stored i req) None), req.
  split; [reflexivity|]. repeat (split; [reflexivity|]).
  split; [|split].
  - rewrite DecorationFacts.decorated_location. reflexivity.
  - now apply ListingFacts.decorated_no_format.
  - apply (DecorationFacts.decorated_field self (stored i req) _ "id"
             (VStr i) eq_refl).
    cbn. intuition discriminate.
Qed.

Lemma create_snapshot_round_trip_witness :
  exists d req,
    CreateSnapshot (storing "1234567890123-abcd-2") (debuggee "t" [])
                   (shown {| path := "main.py"; line := 7 |}) None
                   (Some ["x"]) None None []
    = (Return d, ([] ++ [SetCall (target_id (debuggee "t" [])) req])%list)
    /\ Request.action req = CAPTURE
    /\ Request.logMessageFormat req = None
    /\ Request.location req = {| path := "main.py"; line := 7 |}
    /\ items d !! "location"
       = Some (VStr (shown {| path := "main.py"; line := 7 |}))
    /\ items d !! "logMessageFormat" = None
    /\ getattr d "id" = Return (VStr "1234567890123-abcd-2").
Proof.
  apply (create_snapshot_round_trip (storing "1234567890123-abcd-2")
           (debuggee "t" []) {| path := "main.py"; line := 7 |});
    reflexivity.
Defined.

(** X28: [CreateSnapshot] has no check of its own for the location, and
    still contacts the service only with a location of the form
    [path:line]: with initialised clients, a location that does not hold
    one colon (the empty string among them) makes it raise the
    [ValueError] of [_LocationFromString], and no call is made. *)
Theorem create_snapshot_malformed (c : Client) (self : Debuggee)
    (location : string) (condition : option string)
    (expressions : option (list string)) (user_email : option string)
    (labels : option (gmap string string)) (log : list request) :
  clients_ready (service c) = true ->
  count_char ":" location <> 1%nat ->
  CreateSnapshot c self location condition expressions user_email labels
                 log
  = (Raise (ValueError MalformedLocation), log).
Proof. apply CreationFacts.CreateSnapshot_malformed. Qed.

Lemma create_snapshot_malformed_witness :
  clients_ready (service (storing "1234567890123-abcd-2")) = true
  /\ count_char ":" "" <> 1%nat
  /\ CreateSnapshot (storing "1234567890123-abcd-2") (debuggee "t" [])
                    "" None None None None []
     = (Raise (ValueError MalformedLocation), []).
Proof.
  split; [reflexivity|]. split; [cbn; lia|].
  apply create_snapshot_malformed; [reflexivity|cbn; lia].
Defined.

(** ** Projects *)

(** X29: the two caches of project numbers and project IDs stay
    coherent (every number one gives is a key of the other, and every ID
    likewise), and after [GetProjectNumber] has found the number of a
    project, [GetProjectId] finds an ID for this number without asking
    the resource manager. *)
Theorem project_number_then_id (GetProject : string -> outcome Projects.Project)
    (project_id : string) (st st' : Projects.state) (n : Z) :
  Projects.coherent st ->
  Projects.GetProjectNumber GetProject project_id st = (Return n, st') ->
  Projects.coherent st'
  /\ exists i, Projects.GetProjectId GetProject n st' = (Return i, st').
Proof.
  intros Hc H. split.
  - exact (ProjectFacts.GetProjectNumber_coherent GetProject _ _ _ _ Hc H).
  - exact (ProjectFacts.GetProjectNumber_then_Id GetProject _ _ _ _ Hc H).
Qed.

Lemma project_number_then_id_witness :
  Projects.coherent Projects.initial
  /\ exists st',
       Projects.GetProjectNumber registry "12345" Projects.initial
       = (Return 12345%Z, st')
       /\ Projects.asked st' = ["12345"]
       /\ Projects.coherent st'
       /\ exists i, Projects.GetProjectId registry 12345 st'
                    = (Return i, st').
Proof.
  split; [apply ProjectFacts.coherent_initial|].
  eexists. split; [reflexivity|]. split; [reflexivity|].
  apply (project_number_then_id registry "12345" Projects.initial);
    [apply ProjectFacts.coherent_initial|reflexivity].
Defined.

(** X30: [GetProjectId] gives the same ID when it is asked again: the ID
    it returns for a number is the one the cache then holds for the
    number, or, when the cache holds none, the decimal numeral of the
    number, and a second call in the state the first one left returns
    it again. *)
Theorem project_id_stable (GetProject : string -> outcome Projects.Project)
    (n : Z) (st st' : Projects.state) (i : string) :
  Projects.GetProjectId GetProject n st = (Return i, st') ->
  fst (Projects.GetProjectId GetProject n st') = Return i
  /\ (Projects._project_number_to_id_cache st' !! n = Some i
      \/ Projects._project_number_to_id_cache st' !! n = None
         /\ i = decimalZ n).
Proof.
  intros H. split.
  - exact (ProjectFacts.GetProjectId_stable GetProject _ _ _ _ H).
  - exact (ProjectFacts.GetProjectId_answer GetProject _ _ _ _ H).
Qed.

Lemma project_id_stable_witness :
  exists st',
    Projects.GetProjectId registry 12345 Projects.initial
    = (Return "demo", st')
    /\ fst (Projects.GetProjectId registry 12345 st') = Return "demo"
    /\ (Projects._project_number_to_id_cache st' !! 12345%Z = Some "demo"
        \/ Projects._project_number_to_id_cache st' !! 12345%Z = None
           /\ "demo" = decimalZ 12345).
Proof.
  eexists. split; [vm_compute; reflexivity|].
  apply (project_id_stable registry 12345 Projects.initial).
  vm_compute. reflexivity.
Defined.
